(** * Well-plate analyzer: colour pipeline, pixel sampler and IC50 estimator

    A shallow embedding of [services/wellPlateProcessor.ts] and the
    properties of its natural-language specification, followed by the parts
    of the components [PlateAnalyzer], [ResultsDisplay] and [App] that
    prepare its input and present its output.

    Number model.  A JavaScript [number] is modelled as an exact rational
    extended with [NaN], [+Infinity] and [-Infinity]: arithmetic on finite
    values is exact (binary64 rounding, overflow and the sign of zero are
    outside the model), the non-finite values follow the IEEE 754 rules that
    JavaScript uses.  [Math.sqrt], [Math.hypot] and [Math.pow] at a
    non-integer exponent are not rational functions; they are taken from the
    platform through the class [JSMath].  The canvas is taken through the
    record [CanvasRenderingContext2D]; [canvasContext] is the behaviour the
    HTML standard gives to [getImageData]. *)

From Stdlib Require Import String.
From Stdlib Require Import ZArith QArith Qround Qabs List Bool.
From Stdlib Require Import Lia Lqa Permutation Sorted.
Import ListNotations.

(* ================================================================== *)
(** ** JavaScript numbers *)
(* ================================================================== *)

Inductive number : Type :=
| Fin (q : Q)
| NaN
| PosInf
| NegInf.

Declare Scope js_scope.
Delimit Scope js_scope with js.
Bind Scope js_scope with number.

Definition Qlt_bool (x y : Q) : bool := negb (Qle_bool y x).

Definition of_Z (z : Z) : number := Fin (inject_Z z).
Definition of_nat (n : nat) : number := of_Z (Z.of_nat n).

Definition isNaN (x : number) : bool :=
  match x with NaN => true | _ => false end.

Definition isFinite (x : number) : bool :=
  match x with Fin _ => true | _ => false end.

Definition neg (x : number) : number :=
  match x with
  | Fin q => Fin (- q)
  | NaN => NaN
  | PosInf => NegInf
  | NegInf => PosInf
  end.

Definition add (x y : number) : number :=
  match x, y with
  | NaN, _ | _, NaN => NaN
  | Fin a, Fin b => Fin (a + b)
  | PosInf, NegInf | NegInf, PosInf => NaN
  | PosInf, _ | _, PosInf => PosInf
  | NegInf, _ | _, NegInf => NegInf
  end.

Definition sub (x y : number) : number := add x (neg y).

(** The sign of an infinite product or quotient. *)
Definition signed_inf (positive : bool) : number :=
  if positive then PosInf else NegInf.

Definition inf_times (positive : bool) (q : Q) : number :=
  if Qlt_bool 0 q then signed_inf positive
  else if Qlt_bool q 0 then signed_inf (negb positive)
  else NaN.

Definition mul (x y : number) : number :=
  match x, y with
  | NaN, _ | _, NaN => NaN
  | Fin a, Fin b => Fin (a * b)
  | PosInf, Fin b | Fin b, PosInf => inf_times true b
  | NegInf, Fin b | Fin b, NegInf => inf_times false b
  | PosInf, PosInf | NegInf, NegInf => PosInf
  | PosInf, NegInf | NegInf, PosInf => NegInf
  end.

(** Division.  A zero divisor is read as [+0]. *)
Definition div (x y : number) : number :=
  match x, y with
  | NaN, _ | _, NaN => NaN
  | Fin a, Fin b =>
      if Qeq_bool b 0 then inf_times true a else Fin (a / b)
  | Fin _, (PosInf | NegInf) => Fin 0
  | PosInf, Fin b => if Qlt_bool b 0 then NegInf else PosInf
  | NegInf, Fin b => if Qlt_bool b 0 then PosInf else NegInf
  | (PosInf | NegInf), (PosInf | NegInf) => NaN
  end.

(** [x < y]; every comparison with [NaN] is false. *)
Definition lt (x y : number) : bool :=
  match x, y with
  | NaN, _ | _, NaN => false
  | Fin a, Fin b => Qlt_bool a b
  | NegInf, NegInf => false
  | NegInf, _ => true
  | _, NegInf => false
  | PosInf, _ => false
  | _, PosInf => true
  end.

(** [x <= y]. *)
Definition le (x y : number) : bool :=
  match x, y with
  | NaN, _ | _, NaN => false
  | Fin a, Fin b => Qle_bool a b
  | NegInf, _ => true
  | _, NegInf => false
  | _, PosInf => true
  | PosInf, _ => false
  end.

Definition gt (x y : number) : bool := lt y x.
Definition ge (x y : number) : bool := le y x.

(** [x === y] on numbers. *)
Definition strict_eq (x y : number) : bool :=
  match x, y with
  | Fin a, Fin b => Qeq_bool a b
  | PosInf, PosInf | NegInf, NegInf => true
  | _, _ => false
  end.

Infix "+" := add : js_scope.
Infix "-" := sub : js_scope.
Infix "*" := mul : js_scope.
Infix "/" := div : js_scope.
Infix "<?" := lt (at level 70, no associativity) : js_scope.
Infix "<=?" := le (at level 70, no associativity) : js_scope.
Infix ">?" := gt (at level 70, no associativity) : js_scope.
Infix ">=?" := ge (at level 70, no associativity) : js_scope.
Infix "===" := strict_eq (at level 70, no associativity) : js_scope.

(** Number literals of the source are rational literals. *)
Coercion Fin : Q >-> number.

(** [Math.max], [Math.min], [Math.abs], [Math.floor], [Math.round]. *)
Definition Math_max (x y : number) : number :=
  match x, y with
  | NaN, _ | _, NaN => NaN
  | _, _ => if lt x y then y else x
  end.

Definition Math_min (x y : number) : number :=
  match x, y with
  | NaN, _ | _, NaN => NaN
  | _, _ => if lt y x then y else x
  end.

Definition Math_abs (x : number) : number :=
  match x with
  | Fin q => Fin (Qabs q)
  | NaN => NaN
  | PosInf | NegInf => PosInf
  end.

Definition Math_floor (x : number) : number :=
  match x with
  | Fin q => of_Z (Qfloor q)
  | _ => x
  end.

(** [Math.round] rounds to the nearest integer, ties towards [+Infinity]. *)
Definition Math_round (x : number) : number :=
  match x with
  | Fin q => of_Z (Qfloor (q + 0.5))
  | _ => x
  end.

(** The remainder operator [%]: the result has the sign of the dividend. *)
Definition rem (x y : number) : number :=
  match x, y with
  | Fin a, Fin b =>
      if Qeq_bool b 0 then NaN
      else
        let t := a / b in
        let n := if Qlt_bool t 0 then Qceiling t else Qfloor t in
        Fin (a - b * inject_Z n)
  | Fin a, (PosInf | NegInf) => Fin a
  | _, _ => NaN
  end.
Infix "%%" := rem (at level 40, left associativity) : js_scope.

(** Integer powers are exact; [pow_int x 0 = 1] also for [NaN]. *)
Fixpoint pow_pos (x : number) (n : nat) : number :=
  match n with
  | O => Fin 1
  | S O => x
  | S m => mul x (pow_pos x m)
  end.

Definition pow_int (x : number) (n : Z) : number :=
  if (n <? 0)%Z then div (Fin 1) (pow_pos x (Z.to_nat (- n)))
  else pow_pos x (Z.to_nat n).

(** The integer a rational literal denotes, if any. *)
Definition Q_as_integer (q : Q) : option Z :=
  let r := Qred q in
  if Pos.eqb (Qden r) 1 then Some (Qnum r) else None.

(** Numeric equality as a proposition: equal rationals, or the same
    infinity. *)
Definition num_eq (x y : number) : Prop :=
  match x, y with
  | Fin a, Fin b => a == b
  | PosInf, PosInf | NegInf, NegInf | NaN, NaN => True
  | _, _ => False
  end.

(** The platform's transcendental functions. *)
Class JSMath : Type := {
  Math_sqrt : number -> number;
  Math_hypot : number -> number -> number;
  (** [Math.pow] at an exponent that is not an integer *)
  Math_powf : number -> number -> number
}.

Definition Math_pow `{JSMath} (x y : number) : number :=
  match y with
  | Fin q =>
      match Q_as_integer q with
      | Some n => pow_int x n
      | None => Math_powf x y
      end
  | _ => Math_powf x y
  end.

Local Open Scope js_scope.

(* ================================================================== *)
(** ** Data model ([types.ts]) *)
(* ================================================================== *)

Module Point.
Record t : Type := mk { x : number; y : number }.
End Point.

Module RGB.
Record t : Type := mk { r : number; g : number; b : number }.
End RGB.

Module Lab.
Record t : Type := mk { l : number; a : number; b : number }.
End Lab.

Module GridConfig.
Record t : Type := mk {
  origin : Point.t;  (* centre of the top-left well *)
  u : Point.t;       (* step from one well to the next in a row *)
  v : Point.t        (* step from one well to the next in a column *)
}.
End GridConfig.

(** A JavaScript string as its sequence of UTF-16 code units. *)
Definition jsstring : Type := list Z.

Module WellResult.
Record t : Type := mk {
  id : jsstring;
  row : Z;
  col : Z;
  center : Point.t;
  avgColor : RGB.t;
  intensity : number;   (* 0-1 scale *)
  viability : number    (* 0-100 scale *)
}.
End WellResult.

Module IC50.
Record t : Type := mk { value : number; units : String.string }.
End IC50.

Module AnalysisOutput.
Record t : Type := mk {
  wellResults : list WellResult.t;
  ic50 : option IC50.t
}.
End AnalysisOutput.

Definition WELL_RADIUS_FACTOR : number := 0.30.

(* ================================================================== *)
(** ** Colour space converter *)
(* ================================================================== *)

Section Colour.
Context `{JSMath}.

Definition linearize (c : number) : number :=
  if c >? 0.04045 then Math_pow ((c + 0.055) / 1.055) 2.4
  else c / 12.92.

Definition lab_f (t : number) : number :=
  if t >? 0.008856 then Math_pow t (1 / 3)
  else (7.787 * t) + (16 / 116).

Definition rgbToLab (rgb : RGB.t) : Lab.t :=
  (* Step 1: sRGB to linear RGB *)
  let r := RGB.r rgb / 255 in
  let g := RGB.g rgb / 255 in
  let b := RGB.b rgb / 255 in
  let r := linearize r in
  let g := linearize g in
  let b := linearize b in
  (* Step 2: linear RGB to XYZ (D65) *)
  let x := r * 0.4124564 + g * 0.3575761 + b * 0.1804375 in
  let y := r * 0.2126729 + g * 0.7151522 + b * 0.0721750 in
  let z := r * 0.0193339 + g * 0.1191920 + b * 0.9503041 in
  (* Step 3: XYZ to L*a*b* *)
  let varX := x / 0.95047 in
  let varY := y / 1.00000 in
  let varZ := z / 1.08883 in
  let varX := lab_f varX in
  let varY := lab_f varY in
  let varZ := lab_f varZ in
  let l := (116 * varY) - 16 in
  let a := 500 * (varX - varY) in
  let b_lab := 200 * (varY - varZ) in
  Lab.mk l a b_lab.

Definition f_inv (t : number) : number :=
  if t >? 0.206897 then Math_pow t 3
  else (t - 16 / 116) / 7.787.

Definition toSrgb (c : number) : number :=
  if c >? 0.0031308 then (1.055 * Math_pow c (1 / 2.4) - 0.055)
  else (12.92 * c).

Definition clamp (val : number) : number :=
  Math_max 0 (Math_min 255 (Math_round (val * 255))).

Definition labToRgb (lab : Lab.t) : RGB.t :=
  let y := (Lab.l lab + 16) / 116 in
  let x := Lab.a lab / 500 + y in
  let z := y - Lab.b lab / 200 in
  let x := f_inv x * 0.95047 in
  let y := f_inv y * 1.00000 in
  let z := f_inv z * 1.08883 in
  (* XYZ to linear RGB (D65) *)
  let r := x * 3.2404542 + y * (-1.5371385) + z * (-0.4985314) in
  let g := x * (-0.9692660) + y * 1.8760108 + z * 0.0415560 in
  let b := x * 0.0556434 + y * (-0.2040259) + z * 1.0572252 in
  (* linear RGB to sRGB *)
  let r := toSrgb r in
  let g := toSrgb g in
  let b := toSrgb b in
  RGB.mk (clamp r) (clamp g) (clamp b).

End Colour.

(* ================================================================== *)
(** ** [Array.prototype.sort] with a comparator *)
(* ================================================================== *)

(** The sort is stable; an element moves behind another one only when the
    comparator is positive on the pair. *)
Section Sort.
Context {A : Type} (compareFn : A -> A -> number).

Fixpoint insert (e : A) (arr : list A) : list A :=
  match arr with
  | [] => [e]
  | e' :: rest =>
      if compareFn e e' >? 0 then e' :: insert e rest
      else e :: e' :: rest
  end.

Fixpoint sort (arr : list A) : list A :=
  match arr with
  | [] => []
  | e :: rest => insert e (sort rest)
  end.
End Sort.

(** [arr[i]] on an array of numbers; a missing element behaves as [NaN] in
    arithmetic. *)
Definition at_index (arr : list number) (i : nat) : number := nth i arr NaN.

(* ================================================================== *)
(** ** Robust colour estimator *)
(* ================================================================== *)

Section Estimator.
Context `{JSMath}.

(** The median of an already sorted array, as the source computes it. *)
Definition median_of_sorted (values : list number) : number :=
  let mid := Nat.div (length values) 2 in
  if Nat.eqb (Nat.modulo (length values) 2) 0
  then (at_index values (mid - 1) + at_index values mid) / 2
  else at_index values mid.

Definition getRobustAverageColor (pixels : list RGB.t) : RGB.t :=
  match pixels with
  | [] => RGB.mk 0 0 0
  | [p] => p
  | _ =>
      let labPixels := map rgbToLab pixels in
      let l_values := sort (fun a b => a - b) (map Lab.l labPixels) in
      let a_values := sort (fun a b => a - b) (map Lab.a labPixels) in
      let b_values := sort (fun a b => a - b) (map Lab.b labPixels) in
      let medianL := median_of_sorted l_values in
      let medianA := median_of_sorted a_values in
      let medianB := median_of_sorted b_values in
      labToRgb (Lab.mk medianL medianA medianB)
  end.
End Estimator.

(* ================================================================== *)
(** ** Canvas interface and pixel sampler *)
(* ================================================================== *)

(** [ImageData.data] is a [Uint8ClampedArray] of [4 * width * height]
    bytes; it is kept as the list of its RGBA quadruples, so that
    [data[i]], [data[i+1]], [data[i+2]] at [i = 4k] are the first three
    components of quadruple [k]. *)
Definition RGBA : Type := (Z * Z * Z * Z)%type.

Record ImageData : Type := { data : list RGBA }.

(** The one method of the 2D context the pipeline calls; [None] is a thrown
    exception. *)
Record CanvasRenderingContext2D : Type := {
  getImageData : number -> number -> number -> number -> option ImageData
}.

(** One call of [getImageData], with its arguments. *)
Record Call : Type := { sx : number; sy : number; sw : number; sh : number }.

(** Computations that read the canvas, with the calls they made. *)
Definition Sampling (A : Type) : Type := (A * list Call)%type.

Definition ret {A} (a : A) : Sampling A := (a, []).

Definition bind {A B} (m : Sampling A) (k : A -> Sampling B) : Sampling B :=
  let '(a, t1) := m in
  let '(b, t2) := k a in
  (b, t1 ++ t2).

Notation "x <- m ;; k" := (bind m (fun x => k))
  (at level 61, m at next level, right associativity).

Definition result {A} (m : Sampling A) : A := fst m.
Definition calls {A} (m : Sampling A) : list Call := snd m.

Section Sampler.
Context `{JSMath}.

(** The body of the [for (let i = 0; i < data.length; i += 4)] loop, at
    [i = 4 * k]. *)
Fixpoint scanPixels (radius : number) (k : nat) (data : list RGBA)
  : list RGB.t :=
  match data with
  | [] => []
  | (r, g, b, _) :: rest =>
      let i := of_nat (4 * k) in
      let px := (i / 4) %% (radius * 2) in
      let py := Math_floor ((i / 4) / (radius * 2)) in
      let dist :=
        Math_sqrt (Math_pow (px - radius) 2 + Math_pow (py - radius) 2) in
      if dist <=? radius
      then RGB.mk (of_Z r) (of_Z g) (of_Z b) :: scanPixels radius (S k) rest
      else scanPixels radius (S k) rest
  end.

Definition getPixelData (ctx : CanvasRenderingContext2D)
    (x y radius : number) : Sampling (list RGB.t) :=
  let radius := Math_max 1 (Math_round radius) in
  let request :=
    {| sx := Math_round (x - radius); sy := Math_round (y - radius);
       sw := radius * 2; sh := radius * 2 |} in
  match getImageData ctx (sx request) (sy request) (sw request) (sh request)
  with
  | Some imageData => (scanPixels radius 0 (data imageData), [request])
  | None => ([], [request])   (* catch: logged, no pixels *)
  end.
End Sampler.

(* ================================================================== *)
(** ** The canvas of the HTML standard *)
(* ================================================================== *)

(** Truncation towards zero. *)
Definition Qtrunc (q : Q) : Z :=
  if Qlt_bool q 0 then Qceiling q else Qfloor q.

(** WebIDL conversion of a [number] argument to [long]. *)
Definition toLong (x : number) : Z :=
  match x with
  | Fin q =>
      let m := (Qtrunc q mod 2 ^ 32)%Z in
      if (m >=? 2 ^ 31)%Z then (m - 2 ^ 32)%Z else m
  | _ => 0%Z
  end.

Definition zrange (n : Z) : list Z := map Z.of_nat (seq 0 (Z.to_nat n)).

Record Canvas : Type := {
  canvas_width : Z;
  canvas_height : Z;
  pixelAt : Z -> Z -> RGBA;       (* the bitmap, read inside the bounds *)
  originClean : bool
}.

Definition inBounds (c : Canvas) (px py : Z) : bool :=
  ((0 <=? px) && (px <? canvas_width c) &&
   (0 <=? py) && (py <? canvas_height c))%Z.

(** A pixel outside the canvas reads as transparent black. *)
Definition readPixel (c : Canvas) (px py : Z) : RGBA :=
  if inBounds c px py then pixelAt c px py else (0, 0, 0, 0)%Z.

(** [getImageData(sx, sy, sw, sh)]: throws [IndexSizeError] on an empty
    rectangle and [SecurityError] on a tainted canvas, otherwise returns the
    rectangle's pixels, row by row. *)
Definition canvas_getImageData (c : Canvas) (x y w h : number)
  : option ImageData :=
  let x := toLong x in
  let y := toLong y in
  let w := toLong w in
  let h := toLong h in
  if ((w =? 0) || (h =? 0))%Z then None
  else if negb (originClean c) then None
  else
    let '(x, w) := if (w <? 0)%Z then ((x + w)%Z, (- w)%Z) else (x, w) in
    let '(y, h) := if (h <? 0)%Z then ((y + h)%Z, (- h)%Z) else (y, h) in
    Some {| data :=
              flat_map
                (fun dy => map (fun dx => readPixel c (x + dx) (y + dy))
                               (zrange w))
                (zrange h) |}.

Definition canvasContext (c : Canvas) : CanvasRenderingContext2D :=
  {| getImageData := canvas_getImageData c |}.

(* ================================================================== *)
(** ** A rational implementation of the platform functions *)
(* ================================================================== *)

(** Integer [n]-th root by bisection: the largest [t] with [t ^ n <= m]. *)
Fixpoint iroot_bisect (fuel : nat) (n m lo hi : Z) : Z :=
  match fuel with
  | O => lo
  | S fuel' =>
      if (hi - lo <=? 1)%Z then lo
      else
        let mid := ((lo + hi) / 2)%Z in
        if (mid ^ n <=? m)%Z then iroot_bisect fuel' n m mid hi
        else iroot_bisect fuel' n m lo mid
  end.

Definition iroot (n m : Z) : Z :=
  let bits := (Z.log2 m / n + 1)%Z in
  iroot_bisect (S (Z.to_nat bits)) n m 0 (2 ^ bits).

(** Fractional bits kept by the approximations. *)
Definition precision : Z := 32.

Definition Qsqrt (q : Q) : Q :=
  Qmake (Z.sqrt (Qfloor (q * inject_Z (4 ^ precision))))
        (Z.to_pos (2 ^ precision)).

(** [q ^ (n / d)] for [q > 0], [n > 0]. *)
Definition Qroot_pow (q : Q) (n d : positive) : Q :=
  Qmake (iroot (Zpos d)
           (Qfloor (Qpower q (Zpos n) * inject_Z (2 ^ (precision * Zpos d)))))
        (Z.to_pos (2 ^ precision)).

Definition rational_sqrt (x : number) : number :=
  match x with
  | Fin q => if Qlt_bool q 0 then NaN else Fin (Qsqrt q)
  | PosInf => PosInf
  | _ => NaN
  end.

Definition rational_hypot (x y : number) : number :=
  match x, y with
  | (PosInf | NegInf), _ | _, (PosInf | NegInf) => PosInf
  | _, _ => rational_sqrt (x * x + y * y)
  end.

Definition rational_powf (x y : number) : number :=
  match x, y with
  | Fin q, Fin e =>
      if Qlt_bool q 0 then NaN
      else
        match Qnum (Qred e) with
        | Zpos n =>
            if Qeq_bool q 0 then Fin 0 else Fin (Qroot_pow q n (Qden (Qred e)))
        | Zneg n =>
            if Qeq_bool q 0 then PosInf
            else Fin 1 / Fin (Qroot_pow q n (Qden (Qred e)))
        | Z0 => Fin 1
        end
  | (PosInf | NegInf), Fin e => if Qlt_bool 0 e then PosInf else Fin 0
  | _, _ => NaN
  end.

#[export] Instance rationalMath : JSMath := {|
  Math_sqrt := rational_sqrt;
  Math_hypot := rational_hypot;
  Math_powf := rational_powf
|}.

(* ================================================================== *)
(** ** Dose-response / IC50 estimator *)
(* ================================================================== *)

Inductive JSError : Type := TypeError.

(** The completion of a call: a value, or a thrown exception. *)
Inductive Completion (A : Type) : Type :=
| Normal (a : A)
| Throw (e : JSError).
Arguments Normal {A} a.
Arguments Throw {A} e.

Definition bindC {A B} (m : Completion A) (k : A -> Completion B)
  : Completion B :=
  match m with
  | Normal a => k a
  | Throw e => Throw e
  end.

Notation "x <-! m ;; k" := (bindC m (fun x => k))
  (at level 61, m at next level, right associativity).

Module DataPoint.
Record t : Type := mk { concentration : number; viability : number }.
End DataPoint.

(** [Array.from({ length: rowCount }, () => [])]. *)
Definition emptyRows (rowCount : Z) : list (list number) :=
  repeat [] (Z.to_nat rowCount).

(** [viabilitiesByRow[i].push(v)] at a natural index; [None] when the
    array has no element [i]. *)
Fixpoint pushAt (rows : list (list number)) (i : nat) (v : number)
  : option (list (list number)) :=
  match rows, i with
  | [], _ => None
  | vs :: rest, O => Some ((vs ++ [v]) :: rest)
  | vs :: rest, S j => option_map (cons vs) (pushAt rest j v)
  end.

(** The [wellResults.forEach] loop.  Indexing the array at a negative
    [well.row] yields [undefined], whose [push] is a [TypeError]. *)
Fixpoint groupByRow (rowCount : Z) (wellResults : list WellResult.t)
    (viabilitiesByRow : list (list number))
  : Completion (list (list number)) :=
  match wellResults with
  | [] => Normal viabilitiesByRow
  | well :: rest =>
      if (WellResult.row well <? rowCount)%Z then
        if (WellResult.row well <? 0)%Z then Throw TypeError
        else
          match pushAt viabilitiesByRow (Z.to_nat (WellResult.row well))
                       (WellResult.viability well) with
          | Some rows => groupByRow rowCount rest rows
          | None => Throw TypeError
          end
      else groupByRow rowCount rest viabilitiesByRow
  end.

(** The callback of [rowConcentrations.map].  When
    [viabilitiesByRow[rowIndex]] is [undefined], the test
    [viabilitiesByRow[rowIndex]?.length === 0] is false and
    [viabilities.reduce] is a [TypeError]. *)
Definition rowPoint (viabilitiesByRow : list (list number))
    (concentration : number) (rowIndex : nat)
  : Completion (option DataPoint.t) :=
  match nth_error viabilitiesByRow rowIndex with
  | Some viabilities =>
      if (concentration <=? 0) || Nat.eqb (length viabilities) 0
      then Normal None
      else
        let avgViability :=
          fold_left (fun sum v => sum + v) viabilities (Fin 0)
          / of_nat (length viabilities) in
        Normal (Some (DataPoint.mk concentration avgViability))
  | None =>
      if concentration <=? 0 then Normal None else Throw TypeError
  end.

Fixpoint mapRows (viabilitiesByRow : list (list number)) (rowIndex : nat)
    (rowConcentrations : list number)
  : Completion (list (option DataPoint.t)) :=
  match rowConcentrations with
  | [] => Normal []
  | concentration :: rest =>
      p <-! rowPoint viabilitiesByRow concentration rowIndex ;;
      ps <-! mapRows viabilitiesByRow (S rowIndex) rest ;;
      Normal (p :: ps)
  end.

(** [.filter(p => p !== null)]. *)
Fixpoint nonNull {A} (arr : list (option A)) : list A :=
  match arr with
  | [] => []
  | Some p :: rest => p :: nonNull rest
  | None :: rest => nonNull rest
  end.

Definition crosses (currentPoint nextPoint : DataPoint.t) : bool :=
  ((DataPoint.viability currentPoint >=? 50)
     && (DataPoint.viability nextPoint <? 50))
  || ((DataPoint.viability currentPoint <? 50)
        && (DataPoint.viability nextPoint >=? 50)).

(** The assignment of [(p1, p2)] at a crossing: lower viability first. *)
Definition reorder (currentPoint nextPoint : DataPoint.t)
  : DataPoint.t * DataPoint.t :=
  if DataPoint.viability currentPoint <? DataPoint.viability nextPoint
  then (currentPoint, nextPoint)
  else (nextPoint, currentPoint).

(** The scan [for (let i = 0; i < dataPoints.length - 1; i++)] with its
    [break]: the pair [(p1, p2)], or [None] when both stay [null]. *)
Fixpoint findCrossing (dataPoints : list DataPoint.t)
  : option (DataPoint.t * DataPoint.t) :=
  match dataPoints with
  | currentPoint :: ((nextPoint :: _) as rest) =>
      if crosses currentPoint nextPoint
      then Some (reorder currentPoint nextPoint)
      else findCrossing rest
  | _ => None
  end.

(** The sorted [dataPoints] array. *)
Definition dataPointsOf (wellResults : list WellResult.t)
    (rowConcentrations : list number) (rowCount : Z)
  : Completion (list DataPoint.t) :=
  viabilitiesByRow <-! groupByRow rowCount wellResults (emptyRows rowCount) ;;
  points <-! mapRows viabilitiesByRow 0 rowConcentrations ;;
  Normal (sort (fun a b => DataPoint.concentration a
                           - DataPoint.concentration b)
               (nonNull points)).

(** The linear interpolation between the bracketing points. *)
Definition interpolate (p1 p2 : DataPoint.t) : number :=
  let conc1 := DataPoint.concentration p1 in
  let viability1 := DataPoint.viability p1 in
  let conc2 := DataPoint.concentration p2 in
  let viability2 := DataPoint.viability p2 in
  conc1 + (50 - viability1) * (conc2 - conc1) / (viability2 - viability1).

Definition calculateIC50 (wellResults : list WellResult.t)
    (rowConcentrations : list number) (rowCount : Z) (units : String.string)
  : Completion (option IC50.t) :=
  let positive := filter (fun c => c >? 0) rowConcentrations in
  if Nat.ltb (length positive) 2 then Normal None
  else
    dataPoints <-! dataPointsOf wellResults rowConcentrations rowCount ;;
    if Nat.ltb (length dataPoints) 2 then Normal None
    else
      match findCrossing dataPoints with
      | None => Normal None
      | Some (p1, p2) =>
          let viability1 := DataPoint.viability p1 in
          let viability2 := DataPoint.viability p2 in
          if Math_abs (viability2 - viability1) <? 1e-6 then Normal None
          else
            let ic50Value := interpolate p1 p2 in
            if isNaN ic50Value || negb (isFinite ic50Value) then Normal None
            else Normal (Some (IC50.mk ic50Value units))
      end.

(* ================================================================== *)
(** ** Plate analyzer *)
(* ================================================================== *)

(** What the returned promise is rejected with. *)
Inductive Rejection : Type :=
| ImageLoadFailure                 (* [image.onerror]: the error event *)
| Error (message : String.string). (* [new Error(message)] *)

Definition NO_CONTEXT : String.string := "Could not get canvas context"%string.
Definition BAD_RADIUS : String.string :=
  "Could not determine a valid well radius. Check grid selection and dimensions."%string.
Definition NO_REFERENCE : String.string :=
  "Could not sample reference colors. Please ensure calibration points are inside wells."%string.

(** The state in which the handler leaves the promise.  An exception that
    escapes [image.onload] reaches neither [resolve] nor [reject]: the
    promise stays pending. *)
Inductive Settlement : Type :=
| Resolved (output : AnalysisOutput.t)
| Rejected (reason : Rejection)
| Pending (uncaught : JSError).

(** The event the image element answers the load with, and for [onload]
    the 2D context of the canvas the image was drawn on ([None] when
    [getContext] returns [null]). *)
Inductive LoadEvent : Type :=
| onerror
| onload (ctx : option CanvasRenderingContext2D).

(** [String.fromCharCode(n)] for an integer [n]. *)
Definition fromCharCode (n : Z) : jsstring := [(n mod 65536)%Z].

Fixpoint digitCodes (d : Decimal.uint) : jsstring :=
  match d with
  | Decimal.Nil => []
  | Decimal.D0 d => 48%Z :: digitCodes d
  | Decimal.D1 d => 49%Z :: digitCodes d
  | Decimal.D2 d => 50%Z :: digitCodes d
  | Decimal.D3 d => 51%Z :: digitCodes d
  | Decimal.D4 d => 52%Z :: digitCodes d
  | Decimal.D5 d => 53%Z :: digitCodes d
  | Decimal.D6 d => 54%Z :: digitCodes d
  | Decimal.D7 d => 55%Z :: digitCodes d
  | Decimal.D8 d => 56%Z :: digitCodes d
  | Decimal.D9 d => 57%Z :: digitCodes d
  end.

(** The string of an integer in a template literal (decimal digits, which
    is what JavaScript prints below [10 ^ 21]). *)
Definition toString (n : Z) : jsstring :=
  match n with
  | Zneg p => 45%Z :: digitCodes (Pos.to_uint p)
  | _ => digitCodes (N.to_uint (Z.to_N n))
  end.

(** A [for (let i = 0; i < n; i++)] loop whose body pushes onto one
    array. *)
Fixpoint forEach {A} (indices : list Z) (body : Z -> Sampling (list A))
  : Sampling (list A) :=
  match indices with
  | [] => ret []
  | i :: rest =>
      pushed <- body i ;;
      later <- forEach rest body ;;
      ret (pushed ++ later)
  end.

Section Analyzer.
Context `{JSMath}.

(** The calibration, computed once before the loop. *)
Record Calibration : Type := {
  labMin : Lab.t;
  gradientVector : Lab.t;
  gradientMagSq : number
}.

Definition calibrate (minRefRgb maxRefRgb : RGB.t) : Calibration :=
  let labMin := rgbToLab minRefRgb in
  let labMax := rgbToLab maxRefRgb in
  let gradientVector :=
    Lab.mk (Lab.l labMax - Lab.l labMin)
           (Lab.a labMax - Lab.a labMin)
           (Lab.b labMax - Lab.b labMin) in
  {| labMin := labMin;
     gradientVector := gradientVector;
     gradientMagSq :=
       Math_pow (Lab.l gradientVector) 2 + Math_pow (Lab.a gradientVector) 2
       + Math_pow (Lab.b gradientVector) 2 |}.

(** The projection onto the calibration axis, before the clamp. *)
Definition project (cal : Calibration) (avgColor : RGB.t) : number :=
  let labWell := rgbToLab avgColor in
  let wellVector :=
    Lab.mk (Lab.l labWell - Lab.l (labMin cal))
           (Lab.a labWell - Lab.a (labMin cal))
           (Lab.b labWell - Lab.b (labMin cal)) in
  let dotProduct :=
    (Lab.l wellVector * Lab.l (gradientVector cal))
    + (Lab.a wellVector * Lab.a (gradientVector cal))
    + (Lab.b wellVector * Lab.b (gradientVector cal)) in
  dotProduct / gradientMagSq cal.

(** The intensity and viability of a well from its sample. *)
Definition measure (cal : Calibration) (pixels : list RGB.t)
    (avgColor : RGB.t) : number * number :=
  if Nat.ltb 0 (length pixels) && (gradientMagSq cal >? 1e-6) then
    let intensity := project cal avgColor in
    let intensity := Math_max 0 (Math_min 1 intensity) in
    (intensity, intensity * 100)
  else (Fin 0, Fin 0).

(** The body of the inner loop. *)
Definition analyzeWell (ctx : CanvasRenderingContext2D)
    (gridConfig : GridConfig.t) (radius : number) (cal : Calibration)
    (row col : Z) : Sampling WellResult.t :=
  let origin := GridConfig.origin gridConfig in
  let u := GridConfig.u gridConfig in
  let v := GridConfig.v gridConfig in
  let centerX := Point.x origin + of_Z col * Point.x u + of_Z row * Point.x v in
  let centerY := Point.y origin + of_Z col * Point.y u + of_Z row * Point.y v in
  pixels <- getPixelData ctx centerX centerY radius ;;
  let avgColor := getRobustAverageColor pixels in
  let '(intensity, viability) := measure cal pixels avgColor in
  ret {| WellResult.id := fromCharCode (65 + row) ++ toString (col + 1);
         WellResult.row := row;
         WellResult.col := col;
         WellResult.center := Point.mk centerX centerY;
         WellResult.avgColor := avgColor;
         WellResult.intensity := intensity;
         WellResult.viability := viability |}.

Definition processWellPlate (event : LoadEvent)
    (gridConfig : GridConfig.t) (rowCount colCount : Z)
    (controlNegativePoint controlPositivePoint : Point.t)
    (rowConcentrations : list number) (concentrationUnits : String.string)
  : Sampling Settlement :=
  match event with
  | onerror => ret (Rejected ImageLoadFailure)
  | onload None => ret (Rejected (Error NO_CONTEXT))
  | onload (Some ctx) =>
      let u := GridConfig.u gridConfig in
      let v := GridConfig.v gridConfig in
      let u_mag := Math_hypot (Point.x u) (Point.y u) in
      let v_mag := Math_hypot (Point.x v) (Point.y v) in
      let radius := Math_min u_mag v_mag * WELL_RADIUS_FACTOR in
      if (radius === 0) || negb (isFinite radius) then
        ret (Rejected (Error BAD_RADIUS))
      else
        minColorPixels <-
          getPixelData ctx (Point.x controlNegativePoint)
                       (Point.y controlNegativePoint) radius ;;
        maxColorPixels <-
          getPixelData ctx (Point.x controlPositivePoint)
                       (Point.y controlPositivePoint) radius ;;
        if Nat.eqb (length minColorPixels) 0
           || Nat.eqb (length maxColorPixels) 0
        then ret (Rejected (Error NO_REFERENCE))
        else
          let minRefRgb := getRobustAverageColor minColorPixels in
          let maxRefRgb := getRobustAverageColor maxColorPixels in
          let cal := calibrate minRefRgb maxRefRgb in
          results <-
            forEach (zrange rowCount) (fun row =>
              forEach (zrange colCount) (fun col =>
                well <- analyzeWell ctx gridConfig radius cal row col ;;
                ret [well])) ;;
          match calculateIC50 results rowConcentrations rowCount
                              concentrationUnits with
          | Normal ic50 => ret (Resolved (AnalysisOutput.mk results ic50))
          | Throw e => ret (Pending e)
          end
  end.
End Analyzer.

(* ================================================================== *)
(** ** Notions used by the properties *)
(* ================================================================== *)

(** A finite number with its rational value. *)
Definition finite (x : number) : Prop := exists q, x = Fin q.

Section Order.
Context {A : Type} (compareFn : A -> A -> number).

(** [a] may stand before [b]: the comparator does not ask to swap. *)
Definition inOrder (a b : A) : Prop := (compareFn a b >? 0) = false.

End Order.

(** The median of a channel in the words of the specification: the
    channel's values sorted ascending, then the middle one, or for an even
    count the average of the two central order statistics. *)
Definition isMedianOf (values : list number) (m : number) : Prop :=
  exists sorted,
    Permutation sorted values
    /\ Sorted (inOrder (fun a b => a - b)) sorted
    /\ let n := length values in
       (Nat.modulo n 2 = 0%nat ->
        m = (nth (n / 2 - 1) sorted NaN + nth (n / 2) sorted NaN) / 2)
       /\ (Nat.modulo n 2 <> 0%nat -> m = nth (n / 2) sorted NaN).

(** No adjacent pair of the sequence crosses 50. *)
Definition noCrossing (points : list DataPoint.t) : Prop :=
  forall before a b after,
    points = before ++ a :: b :: after -> crosses a b = false.

(** What [calculateIC50] returns once the data points are known. *)
Definition estimate (dataPoints : list DataPoint.t) (units : String.string)
  : option IC50.t :=
  match findCrossing dataPoints with
  | None => None
  | Some (p1, p2) =>
      if Math_abs (DataPoint.viability p2 - DataPoint.viability p1) <? 1e-6
      then None
      else if isNaN (interpolate p1 p2) || negb (isFinite (interpolate p1 p2))
      then None
      else Some (IC50.mk (interpolate p1 p2) units)
  end.

(** The viabilities of the wells of a row, in the order of the wells. *)
Definition rowViabilities (wells : list WellResult.t) (rowCount : Z)
    (rowIndex : nat) : list number :=
  map WellResult.viability
      (filter (fun w => (WellResult.row w <? rowCount)%Z
                        && (WellResult.row w =? Z.of_nat rowIndex)%Z)
              wells).

(** The mean the source computes with [reduce] and [length]. *)
Definition mean (viabilities : list number) : number :=
  fold_left (fun sum v => sum + v) viabilities (Fin 0)
  / of_nat (length viabilities).

(** A well result with a given row, column and viability. *)
Definition wellAt (row col : Z) (viability : Q) : WellResult.t :=
  {| WellResult.id := fromCharCode (65 + row) ++ toString (col + 1);
     WellResult.row := row;
     WellResult.col := col;
     WellResult.center := Point.mk 0 0;
     WellResult.avgColor := RGB.mk 0 0 0;
     WellResult.intensity := Fin (viability / 100);
     WellResult.viability := Fin viability |}.

(** The dose series [(1,90), (10,60), (100,40), (1000,10)], one well per
    row. *)
Definition doseWells : list WellResult.t :=
  [wellAt 0 0 90; wellAt 1 0 60; wellAt 2 0 40; wellAt 3 0 10].

Definition doseConcentrations : list number := [Fin 1; Fin 10; Fin 100; Fin 1000].

(** Two rows whose mean viabilities bracket 50 within less than [1e-6]. *)
Definition flatWells : list WellResult.t :=
  [wellAt 0 0 49.9999995; wellAt 1 0 50].

(** [Math.pow] is finite at a positive finite base and a positive finite
    exponent (the only arguments at which the converters use it with a
    fractional exponent). *)
Definition powf_finite (M : JSMath) : Prop :=
  forall x e : Q, (0 < x)%Q -> (0 < e)%Q -> finite (Math_powf (Fin x) (Fin e)).

Definition finiteRGB (c : RGB.t) : Prop :=
  finite (RGB.r c) /\ finite (RGB.g c) /\ finite (RGB.b c).

Definition finiteLab (c : Lab.t) : Prop :=
  finite (Lab.l c) /\ finite (Lab.a c) /\ finite (Lab.b c).

(** The cells of a [rows] by [cols] grid, row by row. *)
Definition cells (rows cols : Z) : list (Z * Z) :=
  flat_map (fun row => map (fun col => (row, col)) (zrange cols)) (zrange rows).

Section Notions.
Context `{JSMath}.

(** The sampling radius of a grid. *)
Definition wellRadius (gridConfig : GridConfig.t) : number :=
  Math_min (Math_hypot (Point.x (GridConfig.u gridConfig))
                       (Point.y (GridConfig.u gridConfig)))
           (Math_hypot (Point.x (GridConfig.v gridConfig))
                       (Point.y (GridConfig.v gridConfig)))
  * WELL_RADIUS_FACTOR.

(** The pixels sampled at a point. *)
Definition sampleAt (ctx : CanvasRenderingContext2D)
    (gridConfig : GridConfig.t) (p : Point.t) : list RGB.t :=
  result (getPixelData ctx (Point.x p) (Point.y p) (wellRadius gridConfig)).

(** The calibration built from the two reference points. *)
Definition referenceCalibration (ctx : CanvasRenderingContext2D)
    (gridConfig : GridConfig.t)
    (controlNegativePoint controlPositivePoint : Point.t) : Calibration :=
  calibrate (getRobustAverageColor (sampleAt ctx gridConfig controlNegativePoint))
            (getRobustAverageColor (sampleAt ctx gridConfig controlPositivePoint)).

(** The well results of a run that reaches the loop. *)
Definition wellsOf (ctx : CanvasRenderingContext2D)
    (gridConfig : GridConfig.t) (rowCount colCount : Z)
    (controlNegativePoint controlPositivePoint : Point.t)
  : list WellResult.t :=
  map (fun cell =>
         result (analyzeWell ctx gridConfig (wellRadius gridConfig)
                   (referenceCalibration ctx gridConfig controlNegativePoint
                                         controlPositivePoint)
                   (fst cell) (snd cell)))
      (cells rowCount colCount).

End Notions.

(** A 10 x 10 canvas whose pixel [(x, y)] is [(20 x, 20 y, 7)]. *)
Definition gradientCanvas : Canvas :=
  {| canvas_width := 10; canvas_height := 10;
     pixelAt := fun px py => (20 * px, 20 * py, 7, 255)%Z;
     originClean := true |}.

(** A plate of two rows and one column on [gradientCanvas], the first well
    on the negative reference and the second on the positive one. *)
Definition columnGrid : GridConfig.t :=
  GridConfig.mk (Point.mk 2 2) (Point.mk 4 0) (Point.mk 0 4).

Abbreviation columnRun rowConcentrations :=
  (processWellPlate (onload (Some (canvasContext gradientCanvas))) columnGrid
                    2 1 (Point.mk 2 2) (Point.mk 2 6) rowConcentrations "nM").

(** [Math.sqrt] compares exactly against an integer radius: the root of
    an integer [n] is at most [r] exactly when [n <= r * r]. *)
Definition sqrt_exact (M : JSMath) : Prop :=
  forall (s : Q) (n r : Z),
    (s == inject_Z n)%Q -> (0 <= n)%Z -> (0 <= r < 2 ^ 31)%Z ->
    (Math_sqrt (Fin s) <=? of_Z r) = (n <=? r * r)%Z.

Definition rgbOf (p : RGBA) : RGB.t :=
  let '(r, g, b, _) := p in RGB.mk (of_Z r) (of_Z g) (of_Z b).

(** The radius the sampler works with: rounded to the nearest integer
    (ties upwards), and at least 1. *)
Definition roundedRadius (radius : Q) : Z := Z.max 1 (Qfloor (radius + 0.5)).

(** The disk mask at window offset [(px, py)]. *)
Definition inDisk (r px py : Z) : bool :=
  ((px - r) * (px - r) + (py - r) * (py - r) <=? r * r)%Z.

Section LoopNotions.
Context `{JSMath}.

(** The test [dist <= radius] of the loop at pixel index [k]. *)
Definition loopTest (radius : number) (k : nat) : bool :=
  let i := of_nat (4 * k) in
  let px := (i / 4) %% (radius * 2) in
  let py := Math_floor ((i / 4) / (radius * 2)) in
  Math_sqrt (Math_pow (px - radius) 2 + Math_pow (py - radius) 2) <=? radius.

End LoopNotions.

(** The window of a sample: its rounded radius and its top-left pixel. *)
Definition windowLeft (x radius : Q) : Z :=
  Qfloor (x - inject_Z (roundedRadius radius) + 0.5).

(** The integers from [lo] to [hi], both included. *)
Definition zbetween (lo hi : Z) : list Z :=
  map (fun k => (lo + k)%Z) (zrange (hi - lo + 1)).

(** The sampler in the words of the specification: the radius floored to
    an integer at least 1; of the pixels of the bounding square
    [[center - radius, center + radius]], those inside the image whose
    Euclidean distance from the centre is at most the radius. *)
Definition specSample (c : Canvas) (x y radius : Q) : list RGB.t :=
  let r := inject_Z (Z.max 1 (Qfloor radius)) in
  map (fun cell => rgbOf (pixelAt c (snd cell) (fst cell)))
      (filter
         (fun cell =>
            inBounds c (snd cell) (fst cell)
            && Qle_bool ((inject_Z (snd cell) - x) * (inject_Z (snd cell) - x)
                         + (inject_Z (fst cell) - y) * (inject_Z (fst cell) - y))
                        (r * r))
         (flat_map
            (fun py => map (fun px => (py, px))
                           (zbetween (Qceiling (x - r)) (Qfloor (x + r))))
            (zbetween (Qceiling (y - r)) (Qfloor (y + r))))).

Definition black : RGB.t := RGB.mk 0 0 0.

(* ================================================================== *)
(** ** Further notions *)
(* ================================================================== *)

(** The request [getPixelData] sends to the canvas for a sample. *)
Definition sampleRequest (x y radius : number) : Call :=
  let radius := Math_max 1 (Math_round radius) in
  {| sx := Math_round (x - radius); sy := Math_round (y - radius);
     sw := radius * 2; sh := radius * 2 |}.

(** The centre of well [(row, col)], as the loop of [processWellPlate]
    computes it. *)
Definition wellCenter (gridConfig : GridConfig.t) (row col : Z) : Point.t :=
  let origin := GridConfig.origin gridConfig in
  let u := GridConfig.u gridConfig in
  let v := GridConfig.v gridConfig in
  Point.mk (Point.x origin + of_Z col * Point.x u + of_Z row * Point.x v)
           (Point.y origin + of_Z col * Point.y u + of_Z row * Point.y v).

(** A canvas whose [getImageData] always throws. *)
Definition taintedCanvas : Canvas :=
  {| canvas_width := 10; canvas_height := 10;
     pixelAt := fun px py => (20 * px, 20 * py, 7, 255)%Z;
     originClean := false |}.

(** The number of strictly positive concentrations. *)
Definition positiveCount (rowConcentrations : list number) : nat :=
  length (filter (fun c => c >? 0) rowConcentrations).

(** An integer between 0 and 255. *)
Definition isByte (x : number) : Prop :=
  exists z, (0 <= z <= 255)%Z /\ x = of_Z z.

Definition byteRGB (c : RGB.t) : Prop :=
  isByte (RGB.r c) /\ isByte (RGB.g c) /\ isByte (RGB.b c).

(* ================================================================== *)
(** ** Plate selection (the [PlateAnalyzer] component) *)
(* ================================================================== *)

(** The [gridConfig] memo: the grid through the three clicked well
    centres.  The counts are integers ([parseInt(...) || 2]). *)
Definition gridConfigOf
    (topLeftPoint topRightPoint bottomLeftPoint : option Point.t)
    (rowCount colCount : Z) : option GridConfig.t :=
  if (colCount <=? 1)%Z || (rowCount <=? 1)%Z then None
  else
    match topLeftPoint, topRightPoint, bottomLeftPoint with
    | Some topLeftPoint, Some topRightPoint, Some bottomLeftPoint =>
        let u_vector :=
          Point.mk ((Point.x topRightPoint - Point.x topLeftPoint)
                    / (of_Z colCount - 1))
                   ((Point.y topRightPoint - Point.y topLeftPoint)
                    / (of_Z colCount - 1)) in
        let v_vector :=
          Point.mk ((Point.x bottomLeftPoint - Point.x topLeftPoint)
                    / (of_Z rowCount - 1))
                   ((Point.y bottomLeftPoint - Point.y topLeftPoint)
                    / (of_Z rowCount - 1)) in
        Some (GridConfig.mk topLeftPoint u_vector v_vector)
    | _, _, _ => None
    end.

(** The sizes of the displayed image element. *)
Record HTMLImageElement : Type := {
  naturalWidth : number;
  offsetWidth : number;
  naturalHeight : number;
  offsetHeight : number
}.

(** From display coordinates to image pixels; [imageRef] is
    [imageRef.current]. *)
Definition getAbsoluteCoords (imageRef : option HTMLImageElement)
    (relativePoint : Point.t) : Point.t :=
  match imageRef with
  | None => relativePoint
  | Some image =>
      if (offsetWidth image === 0) || (offsetHeight image === 0)
      then relativePoint
      else
        let scaleX := naturalWidth image / offsetWidth image in
        let scaleY := naturalHeight image / offsetHeight image in
        Point.mk (Point.x relativePoint * scaleX)
                 (Point.y relativePoint * scaleY)
  end.

(** The grid [handleAnalyze] passes on, in image pixels. *)
Definition absoluteGridConfig (imageRef : option HTMLImageElement)
    (gridConfig : GridConfig.t) : GridConfig.t :=
  let abs := getAbsoluteCoords imageRef in
  let u := GridConfig.u gridConfig in
  let v := GridConfig.v gridConfig in
  GridConfig.mk
    (abs (GridConfig.origin gridConfig))
    (Point.mk
       (Point.x (abs (Point.mk (Point.x u) 0)) - Point.x (abs (Point.mk 0 0)))
       (Point.y (abs (Point.mk 0 (Point.y u))) - Point.y (abs (Point.mk 0 0))))
    (Point.mk
       (Point.x (abs (Point.mk (Point.x v) 0)) - Point.x (abs (Point.mk 0 0)))
       (Point.y (abs (Point.mk 0 (Point.y v))) - Point.y (abs (Point.mk 0 0)))).

(** [x || y] on numbers: [NaN] and zero are falsy. *)
Definition orElse (x y : number) : number :=
  if isNaN x || (x === 0) then y else x.

(** The arguments of [onAnalysisComplete]. *)
Module AnalysisRequest.
Record t : Type := mk {
  gridConfig : GridConfig.t;
  rowCount : Z;
  colCount : Z;
  controlNegative : Point.t;
  controlPositive : Point.t;
  rowConcentrations : list number;
  concentrationUnits : String.string;
  imageDataUrl : String.string
}.
End AnalysisRequest.

(** What a click on the Analyze button does. *)
Inductive AnalyzeOutcome : Type :=
| Nothing
| Alert (message : String.string)
| OnAnalysisComplete (request : AnalysisRequest.t).

Definition TOO_FEW_CONCENTRATIONS : String.string :=
  "Please enter at least two valid, positive concentrations to calculate IC50."%string.

Section Analyze.
(** The platform's [parseFloat]. *)
Variable parseFloat : String.string -> number.

Definition parsedConcentrations (rowConcentrations : list String.string)
  : list number :=
  filter (fun c => negb (isNaN c) && (c >? 0)) (map parseFloat rowConcentrations).

Definition numericConcentrations (rowConcentrations : list String.string)
  : list number :=
  map (fun c => orElse (parseFloat c) 0) rowConcentrations.

Definition handleAnalyze (imageRef : option HTMLImageElement)
    (gridConfig : option GridConfig.t)
    (controlNegative controlPositive : option Point.t)
    (rowCount colCount : Z) (rowConcentrations : list String.string)
    (concentrationUnits displayImageUrl : String.string) : AnalyzeOutcome :=
  match gridConfig, controlNegative, controlPositive with
  | Some gridConfig, Some controlNegative, Some controlPositive =>
      if Nat.ltb (length (parsedConcentrations rowConcentrations)) 2
      then Alert TOO_FEW_CONCENTRATIONS
      else
        OnAnalysisComplete
          {| AnalysisRequest.gridConfig :=
               absoluteGridConfig imageRef gridConfig;
             AnalysisRequest.rowCount := rowCount;
             AnalysisRequest.colCount := colCount;
             AnalysisRequest.controlNegative :=
               getAbsoluteCoords imageRef controlNegative;
             AnalysisRequest.controlPositive :=
               getAbsoluteCoords imageRef controlPositive;
             AnalysisRequest.rowConcentrations :=
               numericConcentrations rowConcentrations;
             AnalysisRequest.concentrationUnits := concentrationUnits;
             AnalysisRequest.imageDataUrl := displayImageUrl |}
  | _, _, _ => Nothing
  end.
End Analyze.

(** The crop rectangle and the drag that changes it. *)
Module CropRect.
Record t : Type := mk {
  x : number; y : number; width : number; height : number
}.
End CropRect.

Module CropInteraction.
Inductive t : Type :=
| move (startX startY : number)
| resize (handle : String.string) (startX startY : number)
| draw (startX startY : number).
End CropInteraction.

(** [s.includes(sub)]. *)
Definition includes (s sub : String.string) : bool :=
  match String.index 0 sub s with
  | Some _ => true
  | None => false
  end.

(** The rectangle a drag to [coords] asks for ([null] when a move or a
    resize has no initial rectangle). *)
Definition draggedRect (cropInteraction : CropInteraction.t)
    (initialRect : option CropRect.t) (coords : Point.t)
  : option CropRect.t :=
  match cropInteraction with
  | CropInteraction.draw startX startY =>
      Some (CropRect.mk (Math_min startX (Point.x coords))
                        (Math_min startY (Point.y coords))
                        (Math_abs (Point.x coords - startX))
                        (Math_abs (Point.y coords - startY)))
  | CropInteraction.move startX startY =>
      match initialRect with
      | Some initialRect =>
          let dx := Point.x coords - startX in
          let dy := Point.y coords - startY in
          Some (CropRect.mk (CropRect.x initialRect + dx)
                            (CropRect.y initialRect + dy)
                            (CropRect.width initialRect)
                            (CropRect.height initialRect))
      | None => None
      end
  | CropInteraction.resize handle startX startY =>
      match initialRect with
      | Some initialRect =>
          let newRect := initialRect in
          let dx := Point.x coords - startX in
          let dy := Point.y coords - startY in
          let newRect :=
            if includes handle "right"
            then CropRect.mk (CropRect.x newRect) (CropRect.y newRect)
                             (CropRect.width newRect + dx)
                             (CropRect.height newRect)
            else newRect in
          let newRect :=
            if includes handle "left"
            then CropRect.mk (CropRect.x newRect + dx) (CropRect.y newRect)
                             (CropRect.width newRect - dx)
                             (CropRect.height newRect)
            else newRect in
          let newRect :=
            if includes handle "bottom"
            then CropRect.mk (CropRect.x newRect) (CropRect.y newRect)
                             (CropRect.width newRect)
                             (CropRect.height newRect + dy)
            else newRect in
          let newRect :=
            if includes handle "top"
            then CropRect.mk (CropRect.x newRect) (CropRect.y newRect + dy)
                             (CropRect.width newRect)
                             (CropRect.height newRect - dy)
            else newRect in
          Some newRect
      | None => None
      end
  end.

(** The rectangle made positive and fitted into the displayed image. *)
Definition fittedRect (newRect : CropRect.t) (image : HTMLImageElement)
  : CropRect.t :=
  let newRect :=
    if CropRect.width newRect <? 0
    then CropRect.mk (CropRect.x newRect + CropRect.width newRect)
                     (CropRect.y newRect)
                     (Math_abs (CropRect.width newRect))
                     (CropRect.height newRect)
    else newRect in
  let newRect :=
    if CropRect.height newRect <? 0
    then CropRect.mk (CropRect.x newRect)
                     (CropRect.y newRect + CropRect.height newRect)
                     (CropRect.width newRect)
                     (Math_abs (CropRect.height newRect))
    else newRect in
  let x := Math_max 0 (Math_min (CropRect.x newRect)
                                (offsetWidth image - CropRect.width newRect)) in
  let y := Math_max 0 (Math_min (CropRect.y newRect)
                                (offsetHeight image - CropRect.height newRect)) in
  let width := Math_min (CropRect.width newRect) (offsetWidth image - x) in
  let height := Math_min (CropRect.height newRect) (offsetHeight image - y) in
  CropRect.mk x y width height.

(** The crop rectangle [handleInteractionMove] sets, if it sets one:
    [cropInteraction] is [cropInteractionRef] and [imageRef] is
    [imageRef.current]. *)
Definition handleInteractionMove (cropInteraction : option CropInteraction.t)
    (initialRect : option CropRect.t) (imageRef : option HTMLImageElement)
    (coords : Point.t) : option CropRect.t :=
  match cropInteraction, imageRef with
  | Some cropInteraction, Some image =>
      match draggedRect cropInteraction initialRect coords with
      | Some newRect => Some (fittedRect newRect image)
      | None => None
      end
  | _, _ => None
  end.

(** The source rectangle [handleConfirmCrop] passes to [drawImage]:
    the crop rectangle in image pixels. *)
Definition cropSource (image : HTMLImageElement) (cropRect : CropRect.t)
  : CropRect.t :=
  let scaleX := naturalWidth image / offsetWidth image in
  let scaleY := naturalHeight image / offsetHeight image in
  let sx := CropRect.x cropRect * scaleX in
  let sy := CropRect.y cropRect * scaleY in
  let sWidth := CropRect.width cropRect * scaleX in
  let sHeight := CropRect.height cropRect * scaleY in
  CropRect.mk sx sy sWidth sHeight.

(** Two points with numerically equal coordinates. *)
Definition point_eq (p q : Point.t) : Prop :=
  num_eq (Point.x p) (Point.x q) /\ num_eq (Point.y p) (Point.y q).

Definition finitePoint (p : Point.t) : Prop :=
  finite (Point.x p) /\ finite (Point.y p).

Definition finiteRect (rect : CropRect.t) : Prop :=
  finite (CropRect.x rect) /\ finite (CropRect.y rect)
  /\ finite (CropRect.width rect) /\ finite (CropRect.height rect).

(** [parseFloat] on the strings of the examples. *)
Definition exampleParseFloat (s : String.string) : number :=
  if String.eqb s "1" then Fin 1
  else if String.eqb s "10" then Fin 10
  else NaN.

(* ================================================================== *)
(** ** Results view (the [ResultsDisplay] component) *)
(* ================================================================== *)

Module Exception.
Inductive t : Type := TypeError | RangeError.
End Exception.

(** The completion of a call that may also throw a [RangeError]. *)
Inductive Evaluation (A : Type) : Type :=
| Value (a : A)
| Raise (e : Exception.t).
Arguments Value {A} a.
Arguments Raise {A} e.

(** [Array(length).fill(0)]: an array length is an integer from 0 to
    [2^32 - 1]. *)
Definition zeroArray (length : Z) : Evaluation (list number) :=
  if (length <? 0)%Z || (2 ^ 32 <=? length)%Z then Raise Exception.RangeError
  else Value (repeat (Fin 0) (Z.to_nat length)).

(** [Array(rowCount).fill(0).map(() => Array(colCount).fill(0))]: the
    callback runs once per row, so with no row [Array(colCount)] is never
    evaluated. *)
Definition zeroGrid (rowCount colCount : Z) : Evaluation (list (list number)) :=
  match zeroArray rowCount with
  | Raise e => Raise e
  | Value rows =>
      match rows with
      | [] => Value []
      | _ :: _ =>
          match zeroArray colCount with
          | Raise e => Raise e
          | Value row => Value (map (fun _ => row) rows)
          end
      end
  end.

(** [arr[i] = v] at an index below the length. *)
Fixpoint setAt {A} (arr : list A) (i : nat) (v : A) : list A :=
  match arr, i with
  | [], _ => []
  | _ :: rest, O => v :: rest
  | a :: rest, S j => a :: setAt rest j v
  end.

(** [grid[row][col] = v] at indices below the lengths. *)
Fixpoint setCell (grid : list (list number)) (row col : nat) (v : number)
  : list (list number) :=
  match grid, row with
  | [], _ => []
  | line :: rest, O => setAt line col v :: rest
  | line :: rest, S j => line :: setCell rest j col v
  end.

(** The [results.forEach] loop of [processResultsIntoGrid].  At a negative
    [well.row] the row [grid[well.row]] is [undefined] and the assignment
    is a [TypeError]; at a negative [well.col] the assignment sets the
    property [well.col] of the row and changes no element. *)
Fixpoint fillGrid (rowCount colCount : Z) (results : list WellResult.t)
    (grid : list (list number)) : Evaluation (list (list number)) :=
  match results with
  | [] => Value grid
  | well :: rest =>
      if (WellResult.row well <? rowCount)%Z
         && (WellResult.col well <? colCount)%Z
      then
        if (WellResult.row well <? 0)%Z then Raise Exception.TypeError
        else if (WellResult.col well <? 0)%Z
        then fillGrid rowCount colCount rest grid
        else
          fillGrid rowCount colCount rest
            (setCell grid (Z.to_nat (WellResult.row well))
                     (Z.to_nat (WellResult.col well))
                     (WellResult.viability well))
      else fillGrid rowCount colCount rest grid
  end.

Definition processResultsIntoGrid (results : list WellResult.t)
    (rowCount colCount : Z) : Evaluation (list (list number)) :=
  match zeroGrid rowCount colCount with
  | Raise e => Raise e
  | Value grid => fillGrid rowCount colCount results grid
  end.

(** The [results.forEach] loop of [doseResponseData]: no test on
    [well.row]. *)
Fixpoint groupEveryRow (results : list WellResult.t)
    (viabilitiesByRow : list (list number))
  : Completion (list (list number)) :=
  match results with
  | [] => Normal viabilitiesByRow
  | well :: rest =>
      if (WellResult.row well <? 0)%Z then Throw TypeError
      else
        match pushAt viabilitiesByRow (Z.to_nat (WellResult.row well))
                     (WellResult.viability well) with
        | Some rows => groupEveryRow rest rows
        | None => Throw TypeError
        end
  end.

(** The callback of [rowConcentrations.map] in [doseResponseData]: the
    length of a missing row is a [TypeError]. *)
Definition curvePoint (viabilitiesByRow : list (list number))
    (concentration : number) (rowIndex : nat)
  : Completion (option DataPoint.t) :=
  if concentration <=? 0 then Normal None
  else
    match nth_error viabilitiesByRow rowIndex with
    | None => Throw TypeError
    | Some viabilities =>
        if Nat.eqb (length viabilities) 0 then Normal None
        else
          let avgViability :=
            fold_left (fun sum v => sum + v) viabilities (Fin 0)
            / of_nat (length viabilities) in
          Normal (Some (DataPoint.mk concentration avgViability))
    end.

Fixpoint mapCurve (viabilitiesByRow : list (list number)) (rowIndex : nat)
    (rowConcentrations : list number)
  : Completion (list (option DataPoint.t)) :=
  match rowConcentrations with
  | [] => Normal []
  | concentration :: rest =>
      p <-! curvePoint viabilitiesByRow concentration rowIndex ;;
      ps <-! mapCurve viabilitiesByRow (S rowIndex) rest ;;
      Normal (p :: ps)
  end.

Definition doseResponseData (results : list WellResult.t)
    (rowConcentrations : list number) (rowCount : Z)
  : Completion (list DataPoint.t) :=
  viabilitiesByRow <-! groupEveryRow results (emptyRows rowCount) ;;
  points <-! mapCurve viabilitiesByRow 0 rowConcentrations ;;
  Normal (sort (fun a b => DataPoint.concentration a
                           - DataPoint.concentration b)
               (nonNull points)).

(** The dose-response plot: what [DoseResponseCurve] draws inside the plot
    area ([None]: the "Not enough data" message). *)
Module Curve.
Record t : Type := mk {
  innerWidth : number;
  innerHeight : number;
  linePath : list Point.t;
  xTicks : list number;
  ic50X : option number;      (* the red marker, when it is drawn *)
  fiftyY : number
}.
End Curve.

(** [Math.max(...values)]. *)
Definition maxOf (values : list number) : number :=
  fold_left Math_max values NegInf.

Definition DoseResponseCurve (data : list DataPoint.t) (ic50 : option IC50.t)
  : option Curve.t :=
  if Nat.ltb (length data) 2 then None
  else
    let width := Fin 500 in
    let height := Fin 400 in
    let margin_top := Fin 20 in
    let margin_right := Fin 20 in
    let margin_bottom := Fin 60 in
    let margin_left := Fin 60 in
    let innerWidth := width - margin_left - margin_right in
    let innerHeight := height - margin_top - margin_bottom in
    let xMax := maxOf (map DataPoint.concentration data) in
    let yMax := Fin 100 in
    let xScale := fun x => (x / xMax) * innerWidth in
    let yScale := fun y => innerHeight - (y / yMax) * innerHeight in
    let linePath :=
      map (fun d => Point.mk (xScale (DataPoint.concentration d))
                             (yScale (DataPoint.viability d))) data in
    let xTicks := map (fun i => (xMax / 4) * of_Z i) (zrange 5) in
    let ic50X := option_map (fun r => xScale (IC50.value r)) ic50 in
    let fiftyY := yScale 50 in
    Some {| Curve.innerWidth := innerWidth;
            Curve.innerHeight := innerHeight;
            Curve.linePath := linePath;
            Curve.xTicks := xTicks;
            Curve.ic50X :=
              match ic50X with
              | Some ic50X =>
                  if (ic50X >? 0) && (ic50X <? innerWidth) then Some ic50X
                  else None
              | None => None
              end;
            Curve.fiftyY := fiftyY |}.

(** What [draw] paints for one well: the circle, its stroke colour (at
    opacity 0.9) and the label, which is written at [(x, y + 4)]. *)
Module Arc.
Record t : Type := mk {
  x : number;
  y : number;
  radius : number;
  strokeStyle : RGB.t;
  text : jsstring
}.
End Arc.

(** The circles [draw] paints on the canvas over the displayed image, in
    order ([imageRef] is [imageRef.current]; the canvas and its context
    exist). *)
Definition draw (imageRef : option HTMLImageElement) (radius : number)
    (results : list WellResult.t) : list Arc.t :=
  match imageRef with
  | None => []
  | Some image =>
      let scaleX := naturalWidth image / offsetWidth image in
      let scaleY := naturalHeight image / offsetHeight image in
      map (fun well =>
             let displayX := Point.x (WellResult.center well) / scaleX in
             let displayY := Point.y (WellResult.center well) / scaleY in
             let displayRadius := radius / scaleX in
             Arc.mk displayX displayY displayRadius
                    (WellResult.avgColor well) (WellResult.id well))
          results
  end.

(** The value [processResultsIntoGrid] leaves in cell [(row, col)]: the
    viability of the last result at that position, 0 without one. *)
Definition lastViabilityAt (results : list WellResult.t) (row col : Z)
  : number :=
  fold_left
    (fun cell well =>
       if (WellResult.row well =? row)%Z && (WellResult.col well =? col)%Z
       then WellResult.viability well else cell)
    results (Fin 0).

(** [grid[row][col]]. *)
Definition cellAt (grid : list (list number)) (row col : nat)
  : option number :=
  match nth_error grid row with
  | Some line => nth_error line col
  | None => None
  end.

(** A data point with a positive finite concentration and a finite
    viability between 0 and 100. *)
Definition plottable (d : DataPoint.t) : Prop :=
  exists c v, d = DataPoint.mk (Fin c) (Fin v)
              /\ (0 < c)%Q /\ (0 <= v)%Q /\ (v <= 100)%Q.

(** A point of the plot area, which is 420 wide and 320 high; the left
    edge is excluded. *)
Definition inPlotArea (p : Point.t) : Prop :=
  exists x y, p = Point.mk (Fin x) (Fin y)
              /\ (0 < x)%Q /\ (x <= 420)%Q /\ (0 <= y)%Q /\ (y <= 320)%Q.

(** The dose series of [doseWells] as data points. *)
Definition doseData : list DataPoint.t :=
  [DataPoint.mk 1 90; DataPoint.mk 10 60; DataPoint.mk 100 40;
   DataPoint.mk 1000 10].

(* ================================================================== *)
(** ** The application (the [App] component) *)
(* ================================================================== *)

Module AppState.
Inductive t : Type :=
| welcome | uploading | analyzing | processing | results | error.
End AppState.

(** The state of [App] that [handleAnalysisComplete] reads or sets. *)
Module App.
Record t : Type := mk {
  appState : AppState.t;
  imageUrl : String.string;
  processedImageUrl : String.string;
  results : list WellResult.t;
  ic50 : option IC50.t;
  error : String.string;
  gridConfig : option GridConfig.t;
  gridDimensions : Z * Z;
  rowConcentrations : list number;
  concentrationUnits : String.string
}.
End App.

Definition ANALYSIS_FAILED : String.string :=
  "Analysis failed. Please try again."%string.

(** [e instanceof Error ? e.message : "Analysis failed. Please try again."]:
    the value [image.onerror] rejects with is an event, not an [Error]. *)
Definition errorMessage (e : Rejection) : String.string :=
  match e with
  | Error message => message
  | ImageLoadFailure => ANALYSIS_FAILED
  end.

Section Application.
Context `{JSMath}.

(** The state once [handleAnalysisComplete] has run as far as it gets;
    [event] is what the image element answers the load started by
    [processWellPlate] with.  While the promise is pending the [await]
    does not return. *)
Definition handleAnalysisComplete (app : App.t) (event : LoadEvent)
    (newGridConfig : GridConfig.t) (rowCount colCount : Z)
    (negP posP : Point.t) (newRowConcentrations : list number)
    (newConcentrationUnits : String.string)
    (imageDataUrl : option String.string) : App.t :=
  let sourceImageUrl :=
    match imageDataUrl with
    | Some url => if String.eqb url "" then App.imageUrl app else url
    | None => App.imageUrl app
    end in
  if String.eqb sourceImageUrl "" then app
  else
    let app :=
      {| App.appState := AppState.processing;
         App.imageUrl := App.imageUrl app;
         App.processedImageUrl := sourceImageUrl;
         App.results := App.results app;
         App.ic50 := App.ic50 app;
         App.error := App.error app;
         App.gridConfig := Some newGridConfig;
         App.gridDimensions := (rowCount, colCount);
         App.rowConcentrations := newRowConcentrations;
         App.concentrationUnits := newConcentrationUnits |} in
    match result (processWellPlate event newGridConfig rowCount colCount
                    negP posP newRowConcentrations newConcentrationUnits) with
    | Resolved output =>
        {| App.appState := AppState.results;
           App.imageUrl := App.imageUrl app;
           App.processedImageUrl := App.processedImageUrl app;
           App.results := AnalysisOutput.wellResults output;
           App.ic50 := AnalysisOutput.ic50 output;
           App.error := App.error app;
           App.gridConfig := App.gridConfig app;
           App.gridDimensions := App.gridDimensions app;
           App.rowConcentrations := App.rowConcentrations app;
           App.concentrationUnits := App.concentrationUnits app |}
    | Rejected e =>
        {| App.appState := AppState.error;
           App.imageUrl := App.imageUrl app;
           App.processedImageUrl := App.processedImageUrl app;
           App.results := App.results app;
           App.ic50 := App.ic50 app;
           App.error := errorMessage e;
           App.gridConfig := App.gridConfig app;
           App.gridDimensions := App.gridDimensions app;
           App.rowConcentrations := App.rowConcentrations app;
           App.concentrationUnits := App.concentrationUnits app |}
    | Pending _ => app
    end.
End Application.

(** The application while an image is being annotated. *)
Definition analyzingApp : App.t :=
  {| App.appState := AppState.analyzing;
     App.imageUrl := "blob:plate";
     App.processedImageUrl := "blob:plate";
     App.results := [];
     App.ic50 := None;
     App.error := "";
     App.gridConfig := None;
     App.gridDimensions := (0, 0)%Z;
     App.rowConcentrations := [];
     App.concentrationUnits := "nM" |}.

(** How many entries of a list of rationals equal [q]. *)
Definition occurrences (q : Q) (qs : list Q) : nat :=
  length (filter (fun x => Qeq_bool x q) qs).

(** An image of 800 x 600 pixels displayed at 400 x 200, and a well result
    at the image position of the display point [(10, 20)]. *)
Definition displayedImage : HTMLImageElement :=
  {| naturalWidth := 800; offsetWidth := 400;
     naturalHeight := 600; offsetHeight := 200 |}.

Definition displayedWell : WellResult.t :=
  {| WellResult.id := [65; 49]%Z;
     WellResult.row := 0;
     WellResult.col := 0;
     WellResult.center := getAbsoluteCoords (Some displayedImage) (Point.mk 10 20);
     WellResult.avgColor := RGB.mk 40 60 7;
     WellResult.intensity := 1;
     WellResult.viability := 100 |}.

(* ================================================================== *)
(** * Properties *)
(* ================================================================== *)

Arguments add : simpl nomatch.
Arguments neg : simpl nomatch.
Arguments sub : simpl nomatch.
Arguments mul : simpl nomatch.
Arguments div : simpl nomatch.
Arguments lt : simpl nomatch.
Arguments le : simpl nomatch.
Arguments gt : simpl nomatch.
Arguments ge : simpl nomatch.
Arguments strict_eq : simpl nomatch.
Arguments Math_max : simpl nomatch.
Arguments Math_min : simpl nomatch.
Arguments Math_round : simpl nomatch.
Arguments Math_floor : simpl nomatch.
Arguments Math_abs : simpl nomatch.
Arguments rem : simpl nomatch.

(** ** Comparisons and finiteness *)

Lemma Qlt_bool_iff (x y : Q) : Qlt_bool x y = true <-> (x < y)%Q.
Proof.
  unfold Qlt_bool. rewrite negb_true_iff.
  split; intro Hlt.
  - apply Qnot_le_lt. intro Hle. apply Qle_bool_iff in Hle. congruence.
  - destruct (Qle_bool y x) eqn:E; [|reflexivity].
    apply Qle_bool_iff in E. exfalso. exact (Qlt_not_le _ _ Hlt E).
Qed.

Lemma Qlt_bool_false (x y : Q) : Qlt_bool x y = false <-> (y <= x)%Q.
Proof.
  unfold Qlt_bool. rewrite negb_false_iff. apply Qle_bool_iff.
Qed.

Lemma Qeq_bool_false (x y : Q) : Qeq_bool x y = false <-> ~ (x == y)%Q.
Proof.
  split.
  - intros E Heq. apply Qeq_bool_iff in Heq. congruence.
  - intro Hne. destruct (Qeq_bool x y) eqn:E; [|reflexivity].
    apply Qeq_bool_iff in E. contradiction.
Qed.

(** Turn the boolean tests on rationals in the context and the goal into
    propositions. *)
Ltac qbool :=
  repeat match goal with
  | H : Qlt_bool _ _ = true |- _ => apply Qlt_bool_iff in H
  | H : Qlt_bool _ _ = false |- _ => apply Qlt_bool_false in H
  | H : Qle_bool _ _ = true |- _ => apply Qle_bool_iff in H
  | H : Qle_bool _ _ = false |- _ =>
      apply not_true_iff_false in H; rewrite Qle_bool_iff in H
  | H : Qeq_bool _ _ = true |- _ => apply Qeq_bool_iff in H
  | H : Qeq_bool _ _ = false |- _ => apply Qeq_bool_false in H
  | |- Qlt_bool _ _ = true => apply Qlt_bool_iff
  | |- Qlt_bool _ _ = false => apply Qlt_bool_false
  | |- Qle_bool _ _ = true => apply Qle_bool_iff
  | |- Qeq_bool _ _ = false => apply Qeq_bool_false
  end.

Lemma isFinite_finite (x : number) : isFinite x = true <-> finite x.
Proof.
  split.
  - destruct x; simpl; try discriminate. intros _. now exists q.
  - intros [q ->]. reflexivity.
Qed.

Lemma finite_Fin (q : Q) : finite (Fin q).
Proof. now exists q. Qed.

Lemma finite_of_Z (z : Z) : finite (of_Z z).
Proof. apply finite_Fin. Qed.

Lemma finite_add (x y : number) : finite x -> finite y -> finite (x + y).
Proof. intros [a ->] [b ->]. apply finite_Fin. Qed.

Lemma finite_sub (x y : number) : finite x -> finite y -> finite (x - y).
Proof. intros [a ->] [b ->]. apply finite_Fin. Qed.

Lemma finite_mul (x y : number) : finite x -> finite y -> finite (x * y).
Proof. intros [a ->] [b ->]. apply finite_Fin. Qed.

Lemma finite_div (x : number) (b : Q) :
  finite x -> ~ (b == 0)%Q -> finite (x / Fin b).
Proof.
  intros [a ->] Hb. unfold div.
  apply Qeq_bool_false in Hb. rewrite Hb. apply finite_Fin.
Qed.

Create HintDb finite.
#[local] Hint Resolve finite_Fin finite_of_Z finite_add finite_sub finite_mul
  : finite.

(** ** The sort *)

Section SortFacts.
Context {A : Type} (compareFn : A -> A -> number).

Hypothesis compare_antisym :
  forall a b, (compareFn a b >? 0) = true -> (compareFn b a >? 0) = false.

Lemma insert_perm (e : A) (arr : list A) :
  Permutation (insert compareFn e arr) (e :: arr).
Proof.
  induction arr as [|e' rest IH]; simpl; [reflexivity|].
  destruct (compareFn e e' >? 0); [|reflexivity].
  rewrite IH. apply perm_swap.
Qed.

Lemma sort_perm (arr : list A) : Permutation (sort compareFn arr) arr.
Proof.
  induction arr as [|e rest IH]; simpl; [reflexivity|].
  rewrite insert_perm. now constructor.
Qed.

Lemma sort_length (arr : list A) :
  length (sort compareFn arr) = length arr.
Proof. apply Permutation_length, sort_perm. Qed.

Lemma insert_HdRel (a e : A) (arr : list A) :
  inOrder compareFn a e -> HdRel (inOrder compareFn) a arr -> HdRel (inOrder compareFn) a (insert compareFn e arr).
Proof.
  intros Hae Harr. destruct arr as [|e' rest]; simpl.
  - now constructor.
  - destruct (compareFn e e' >? 0); constructor; [|assumption].
    now inversion Harr.
Qed.

Lemma insert_sorted (e : A) (arr : list A) :
  Sorted (inOrder compareFn) arr -> Sorted (inOrder compareFn) (insert compareFn e arr).
Proof.
  induction arr as [|e' rest IH]; intros Hs; simpl.
  - repeat constructor.
  - inversion Hs as [|? ? Hrest Hhd]; subst.
    destruct (compareFn e e' >? 0) eqn:E.
    + constructor; [now apply IH|].
      apply insert_HdRel; [|assumption].
      now apply compare_antisym.
    + constructor; [assumption|]. now constructor.
Qed.

Lemma sort_sorted (arr : list A) : Sorted (inOrder compareFn) (sort compareFn arr).
Proof.
  induction arr as [|e rest IH]; simpl; [constructor|].
  now apply insert_sorted.
Qed.
End SortFacts.

(** The numeric comparator [(a, b) => a - b]. *)
Lemma sub_antisym (a b : number) :
  (a - b >? 0) = true -> (b - a >? 0) = false.
Proof.
  destruct a as [p| | |], b as [q| | |]; cbn; try discriminate; try reflexivity.
  intros Hlt. qbool. lra.
Qed.

(** On finite numbers, being in order for [a - b] is [a <= b]. *)
Lemma inOrder_sub_Fin (p q : Q) :
  inOrder (fun a b => a - b) (Fin p) (Fin q) <-> (p <= q)%Q.
Proof.
  unfold inOrder; cbn. rewrite Qlt_bool_false. split; intro; lra.
Qed.

(** ** Robust colour estimator *)

Lemma median_of_sort (values : list number) :
  isMedianOf values (median_of_sorted (sort (fun a b => a - b) values)).
Proof.
  exists (sort (fun a b => a - b) values).
  split; [apply sort_perm|].
  split; [apply sort_sorted; intros a b; apply sub_antisym|].
  unfold median_of_sorted, at_index. rewrite sort_length. cbv zeta.
  destruct (Nat.eqb_spec (length values mod 2) 0) as [E|E]; split; intro E';
    solve [reflexivity | contradiction].
Qed.

(** C5.  The robust colour estimator returns black on the empty sequence,
    the pixel itself on a one-pixel sequence, and on two or more pixels the
    RGB conversion of the Lab triple made of the three per-channel medians
    of the pixels' Lab values (each channel sorted on its own; middle value,
    or the average of the two central values for an even count). *)
Theorem getRobustAverageColor_spec `{JSMath} :
  getRobustAverageColor [] = RGB.mk 0 0 0
  /\ (forall p, getRobustAverageColor [p] = p)
  /\ (forall p q rest,
        let labPixels := map rgbToLab (p :: q :: rest) in
        exists medianL medianA medianB,
          isMedianOf (map Lab.l labPixels) medianL
          /\ isMedianOf (map Lab.a labPixels) medianA
          /\ isMedianOf (map Lab.b labPixels) medianB
          /\ getRobustAverageColor (p :: q :: rest)
             = labToRgb (Lab.mk medianL medianA medianB)).
Proof.
  split; [reflexivity|]. split; [reflexivity|].
  intros p q rest labPixels.
  exists (median_of_sorted (sort (fun a b => a - b) (map Lab.l labPixels))),
         (median_of_sorted (sort (fun a b => a - b) (map Lab.a labPixels))),
         (median_of_sorted (sort (fun a b => a - b) (map Lab.b labPixels))).
  repeat split; try apply median_of_sort.
Qed.

(** ** IC50 estimator: the bracketing pair *)

Lemma noCrossing_short (points : list DataPoint.t) :
  (length points < 2)%nat -> noCrossing points.
Proof.
  intros Hlen before a b after ->.
  rewrite length_app in Hlen. simpl in Hlen. lia.
Qed.

Lemma noCrossing_cons (a b : DataPoint.t) (rest : list DataPoint.t) :
  crosses a b = false -> noCrossing (b :: rest) -> noCrossing (a :: b :: rest).
Proof.
  intros Hab Hrest before a' b' after Heq.
  destruct before as [|x before]; simpl in Heq.
  - now injection Heq as -> ->.
  - injection Heq as -> Heq. now apply (Hrest before a' b' after).
Qed.

Lemma noCrossing_tail (a : DataPoint.t) (rest : list DataPoint.t) :
  noCrossing (a :: rest) -> noCrossing rest.
Proof.
  intros Hn before a' b' after ->.
  now apply (Hn (a :: before) a' b' after).
Qed.

Lemma findCrossing_None (points : list DataPoint.t) :
  findCrossing points = None <-> noCrossing points.
Proof.
  induction points as [|a rest IH]; [|destruct rest as [|b rest]].
  - split; [intros _; apply noCrossing_short; simpl; lia|reflexivity].
  - split; [intros _; apply noCrossing_short; simpl; lia|reflexivity].
  - change (findCrossing (a :: b :: rest))
      with (if crosses a b then Some (reorder a b)
            else findCrossing (b :: rest)).
    destruct (crosses a b) eqn:E.
    + split.
      * discriminate.
      * intros Hn. specialize (Hn [] a b rest eq_refl). congruence.
    + rewrite IH. split.
      * now apply noCrossing_cons.
      * apply noCrossing_tail.
Qed.

(** [findCrossing] returns the first adjacent pair that crosses 50,
    reordered. *)
Lemma findCrossing_Some (points : list DataPoint.t) (p1 p2 : DataPoint.t) :
  findCrossing points = Some (p1, p2) <->
  exists before currentPoint nextPoint after,
    points = before ++ currentPoint :: nextPoint :: after
    /\ noCrossing (before ++ [currentPoint])
    /\ crosses currentPoint nextPoint = true
    /\ (p1, p2) = reorder currentPoint nextPoint.
Proof.
  induction points as [|a rest IH]; [|destruct rest as [|b rest]].
  - split; [discriminate|].
    intros (before & c & n & after & Heq & _). now destruct before.
  - split; [discriminate|].
    intros (before & c & n & after & Heq & _).
    destruct before as [|? [|? ?]]; discriminate.
  - change (findCrossing (a :: b :: rest))
      with (if crosses a b then Some (reorder a b)
            else findCrossing (b :: rest)).
    destruct (crosses a b) eqn:E.
    + split.
      * intros [= Hr]. exists [], a, b, rest.
        repeat split; [apply noCrossing_short; simpl; lia|assumption|auto].
      * intros (before & c & n & after & Heq & Hno & Hc & Hr).
        destruct before as [|x before]; simpl in Heq.
        -- injection Heq as Ha Hb _. subst c n. now rewrite Hr.
        -- exfalso. injection Heq as Ha Heq. subst x.
           destruct before as [|y before]; simpl in Heq, Hno;
             injection Heq as Hb _; subst;
             pose proof (Hno [] _ _ _ eq_refl) as Hx; congruence.
    + rewrite IH. split.
      * intros (before & c & n & after & Heq & Hno & Hc & Hr).
        exists (a :: before), c, n, after.
        repeat split; try assumption.
        -- simpl. now rewrite Heq.
        -- destruct before as [|y before]; simpl in Heq |- *;
             injection Heq as Hb _; subst.
           ++ apply noCrossing_cons; [assumption|].
              apply noCrossing_short; simpl; lia.
           ++ now apply noCrossing_cons.
      * intros (before & c & n & after & Heq & Hno & Hc & Hr).
        destruct before as [|x before]; simpl in Heq.
        -- injection Heq as Ha Hb _. subst. congruence.
        -- injection Heq as Ha Heq. subst x.
           exists before, c, n, after.
           repeat split; try assumption.
           now apply noCrossing_tail in Hno.
Qed.

(** Unfold the arithmetic and the comparisons of numbers. *)
Ltac unfold_num :=
  cbv [add sub neg mul div lt le gt ge strict_eq inf_times signed_inf
       Math_abs Math_max Math_min isNaN isFinite negb] in *.

(** Case analysis on the rational tests left after [unfold_num]. *)
Ltac qcases :=
  repeat match goal with
  | H : context [if Qlt_bool ?x ?y then _ else _] |- _ =>
      destruct (Qlt_bool x y) eqn:?
  | H : context [if Qle_bool ?x ?y then _ else _] |- _ =>
      destruct (Qle_bool x y) eqn:?
  | H : context [if Qeq_bool ?x ?y then _ else _] |- _ =>
      destruct (Qeq_bool x y) eqn:?
  | |- context [if Qlt_bool ?x ?y then _ else _] =>
      destruct (Qlt_bool x y) eqn:?
  | |- context [if Qle_bool ?x ?y then _ else _] =>
      destruct (Qle_bool x y) eqn:?
  | |- context [if Qeq_bool ?x ?y then _ else _] =>
      destruct (Qeq_bool x y) eqn:?
  end.

Lemma below_above (x y : number) :
  (x <? 50) = true -> (y >=? 50) = true ->
  (x <? y) = true /\ (y <? x) = false.
Proof.
  destruct x as [a| | |], y as [b| | |]; unfold_num;
    try discriminate; intros Hx Hy; split; try reflexivity; qbool; lra.
Qed.

(** After the reordering the pair brackets 50 from below and above. *)
Lemma reorder_brackets (currentPoint nextPoint p1 p2 : DataPoint.t) :
  crosses currentPoint nextPoint = true ->
  (p1, p2) = reorder currentPoint nextPoint ->
  (DataPoint.viability p1 <? DataPoint.viability p2) = true
  /\ (DataPoint.viability p1 <? 50) = true
  /\ (DataPoint.viability p2 >=? 50) = true.
Proof.
  unfold crosses, reorder. intros Hc Hr.
  apply orb_true_iff in Hc as [Hc|Hc];
    apply andb_true_iff in Hc as [H1 H2].
  - destruct (below_above _ _ H2 H1) as [Hlt Hnlt].
    rewrite Hnlt in Hr. injection Hr as -> ->. auto.
  - destruct (below_above _ _ H1 H2) as [Hlt Hnlt].
    rewrite Hlt in Hr. injection Hr as -> ->. auto.
Qed.

(** ** IC50 estimator: the interpolation *)

(** Between a point below 50 and a point at or above 50 the interpolated
    concentration stays between the two concentrations. *)
Lemma Q_interpolation_between (c1 c2 v1 v2 : Q) :
  (v1 < 50)%Q -> (50 <= v2)%Q ->
  let x := (c1 + (50 - v1) * (c2 - c1) / (v2 - v1))%Q in
  ((c1 <= x)%Q /\ (x <= c2)%Q) \/ ((c2 <= x)%Q /\ (x <= c1)%Q).
Proof.
  intros H1 H2 x.
  assert (Hd : (0 < v2 - v1)%Q) by lra.
  set (t := ((50 - v1) / (v2 - v1))%Q).
  assert (Ht0 : (0 < t)%Q).
  { unfold t. apply Qlt_shift_div_l; [assumption|lra]. }
  assert (Ht1 : (t <= 1)%Q).
  { unfold t. apply Qle_shift_div_r; [assumption|lra]. }
  assert (Hx : (x == c1 + t * (c2 - c1))%Q).
  { unfold x, t. field. lra. }
  destruct (Qlt_le_dec c1 c2) as [Hlt|Hle]; [left|right]; rewrite Hx; nra.
Qed.

Lemma add_Fin_inv (x y : number) (q : Q) :
  x + y = Fin q -> exists a b, x = Fin a /\ y = Fin b /\ q = (a + b)%Q.
Proof.
  destruct x as [a| | |], y as [b| | |]; unfold_num; try discriminate.
  intros [= <-]. now exists a, b.
Qed.

Lemma sub_Fin_inv (x y : number) (q : Q) :
  x - y = Fin q -> exists a b, x = Fin a /\ y = Fin b /\ q = (a - b)%Q.
Proof.
  destruct x as [a| | |], y as [b| | |]; unfold_num; try discriminate.
  intros [= <-]. now exists a, b.
Qed.

Lemma mul_Fin_inv (x y : number) (q : Q) :
  x * y = Fin q -> exists a b, x = Fin a /\ y = Fin b /\ q = (a * b)%Q.
Proof.
  destruct x as [a| | |], y as [b| | |]; unfold_num; try discriminate;
    qcases; try discriminate.
  intros [= <-]. now exists a, b.
Qed.

Lemma div_Fin_inv (x y : number) (q : Q) :
  x / y = Fin q ->
  exists a, x = Fin a
    /\ ((exists b, y = Fin b /\ ~ (b == 0)%Q /\ q = (a / b)%Q)
        \/ ((y = PosInf \/ y = NegInf) /\ q = 0%Q)).
Proof.
  destruct x as [a| | |], y as [b| | |]; unfold_num; try discriminate;
    qcases; try discriminate; intros [= <-]; exists a; auto.
  all: split; [reflexivity|]; left; exists b; qbool; auto.
Qed.

Lemma interpolate_between (p1 p2 : DataPoint.t) (x : Q) :
  (DataPoint.viability p1 <? 50) = true ->
  (DataPoint.viability p2 >=? 50) = true ->
  interpolate p1 p2 = Fin x ->
  exists c1 c2,
    DataPoint.concentration p1 = Fin c1
    /\ DataPoint.concentration p2 = Fin c2
    /\ (((c1 <= x)%Q /\ (x <= c2)%Q) \/ ((c2 <= x)%Q /\ (x <= c1)%Q)).
Proof.
  destruct p1 as [conc1 viability1], p2 as [conc2 viability2].
  unfold interpolate; simpl.
  intros H1 H2 Hx.
  apply add_Fin_inv in Hx as (c1 & y & -> & Hy & ->).
  apply div_Fin_inv in Hy as (n & Hn & Hy).
  apply mul_Fin_inv in Hn as (a & d & Ha & Hd & ->).
  apply sub_Fin_inv in Hd as (c2 & c1' & -> & [= <-] & ->).
  apply sub_Fin_inv in Ha as (fifty & v1 & [= <-] & -> & ->).
  exists c1, c2. split; [reflexivity|]. split; [reflexivity|].
  destruct Hy as [(dv & Hdv & Hnz & ->)|[Hinf ->]].
  - apply sub_Fin_inv in Hdv as (v2 & v1' & -> & [= <-] & ->).
    unfold_num. qbool.
    apply (Q_interpolation_between c1 c2 v1 v2); assumption.
  - destruct (Qlt_le_dec c1 c2); [left|right]; lra.
Qed.

(** ** IC50 estimator: the data points *)

Lemma nonNull_In {A} (p : A) (arr : list (option A)) :
  In p (nonNull arr) <-> In (Some p) arr.
Proof.
  induction arr as [|[q|] rest IH]; simpl.
  - tauto.
  - rewrite IH. split; intros [E|E]; auto; left; congruence.
  - rewrite IH. split; [auto|]. intros [E|E]; [discriminate|assumption].
Qed.

Lemma rowPoint_Some (rows : list (list number)) (c : number) (i : nat)
    (p : DataPoint.t) :
  rowPoint rows c i = Normal (Some p) ->
  DataPoint.concentration p = c /\ (c <=? 0) = false.
Proof.
  unfold rowPoint.
  destruct (nth_error rows i) as [vs|]; destruct (c <=? 0); simpl;
    try discriminate.
  destruct (Nat.eqb (length vs) 0); [discriminate|].
  intros [= <-]. auto.
Qed.

Lemma mapRows_In (rows : list (list number)) (concs : list number) :
  forall (i : nat) (points : list (option DataPoint.t)) (p : DataPoint.t),
    mapRows rows i concs = Normal points ->
    In (Some p) points ->
    In (DataPoint.concentration p) concs
    /\ (DataPoint.concentration p <=? 0) = false.
Proof.
  induction concs as [|c rest IH]; simpl; intros i points p Hm Hin.
  - injection Hm as <-. contradiction.
  - destruct (rowPoint rows c i) as [o|] eqn:Ho; [|discriminate].
    simpl in Hm.
    destruct (mapRows rows (S i) rest) as [ps|] eqn:Hps; [|discriminate].
    simpl in Hm. injection Hm as <-.
    destruct Hin as [->|Hin].
    + apply rowPoint_Some in Ho as [<- Hpos]. auto.
    + destruct (IH _ _ _ Hps Hin). auto.
Qed.

(** Every data point carries a row concentration that passed the
    [concentration <= 0] test. *)
Lemma dataPointsOf_In (wells : list WellResult.t) (concs : list number)
    (rowCount : Z) (points : list DataPoint.t) (p : DataPoint.t) :
  dataPointsOf wells concs rowCount = Normal points ->
  In p points ->
  In (DataPoint.concentration p) concs
  /\ (DataPoint.concentration p <=? 0) = false.
Proof.
  unfold dataPointsOf.
  destruct (groupByRow rowCount wells (emptyRows rowCount)) as [rows|];
    [|discriminate]; simpl.
  destruct (mapRows rows 0 concs) as [opts|] eqn:Hm; [|discriminate]; simpl.
  intros [= <-] Hin.
  apply (Permutation_in _ (sort_perm _ _)) in Hin.
  apply nonNull_In in Hin.
  exact (mapRows_In _ _ _ _ _ Hm Hin).
Qed.

(** The data points are in ascending order of concentration. *)
Lemma dataPointsOf_sorted (wells : list WellResult.t) (concs : list number)
    (rowCount : Z) (points : list DataPoint.t) :
  dataPointsOf wells concs rowCount = Normal points ->
  Sorted (inOrder (fun a b => DataPoint.concentration a
                              - DataPoint.concentration b)) points.
Proof.
  unfold dataPointsOf.
  destruct (groupByRow rowCount wells (emptyRows rowCount)) as [rows|];
    [|discriminate]; simpl.
  destruct (mapRows rows 0 concs) as [opts|]; [|discriminate]; simpl.
  intros [= <-]. apply sort_sorted.
  intros a b. apply sub_antisym.
Qed.

Lemma pushAt_nth_error (rows : list (list number)) (v : number) :
  forall i rows', pushAt rows i v = Some rows' ->
    forall j, nth_error rows' j
              = if Nat.eqb j i
                then option_map (fun vs => vs ++ [v]) (nth_error rows j)
                else nth_error rows j.
Proof.
  induction rows as [|vs rest IH]; intros i rows' Hp j; [discriminate|].
  destruct i as [|i]; simpl in Hp.
  - injection Hp as <-. now destruct j.
  - destruct (pushAt rest i v) as [rest'|] eqn:E; [|discriminate].
    injection Hp as <-. destruct j as [|j]; [reflexivity|].
    simpl. now apply IH.
Qed.

Lemma groupByRow_nth_error (rowCount : Z) (wells : list WellResult.t) :
  forall rows rows', groupByRow rowCount wells rows = Normal rows' ->
    forall j, nth_error rows' j
              = option_map (fun vs => vs ++ rowViabilities wells rowCount j)
                           (nth_error rows j).
Proof.
  unfold rowViabilities.
  induction wells as [|w rest IH]; intros rows rows' Hg j; simpl in Hg |- *.
  - injection Hg as <-. destruct (nth_error rows j); simpl; [|reflexivity].
    now rewrite app_nil_r.
  - destruct (Z.ltb_spec (WellResult.row w) rowCount) as [Hlt|Hge].
    + destruct (Z.ltb_spec (WellResult.row w) 0) as [|Hpos]; [discriminate|].
      destruct (pushAt rows _ _) as [rows1|] eqn:Hp; [|discriminate].
      rewrite (IH _ _ Hg j), (pushAt_nth_error _ _ _ _ Hp j).
      cbn [andb].
      destruct (Nat.eqb_spec j (Z.to_nat (WellResult.row w))) as [->|Hne].
      * rewrite Z2Nat.id, Z.eqb_refl by assumption. cbn [map].
        destruct (nth_error rows _); simpl; [|reflexivity].
        now rewrite <- app_assoc.
      * destruct (Z.eqb_spec (WellResult.row w) (Z.of_nat j)) as [E|_];
          [|reflexivity].
        exfalso. apply Hne. rewrite E. now rewrite Nat2Z.id.
    + cbn [andb]. now apply IH.
Qed.

Lemma rowPoint_mean (rows : list (list number)) (c : number) (i : nat)
    (p : DataPoint.t) :
  rowPoint rows c i = Normal (Some p) ->
  exists vs, nth_error rows i = Some vs /\ DataPoint.viability p = mean vs.
Proof.
  unfold rowPoint.
  destruct (nth_error rows i) as [vs|]; destruct (c <=? 0); simpl;
    try discriminate.
  destruct (Nat.eqb (length vs) 0); [discriminate|].
  intros [= <-]. now exists vs.
Qed.

Lemma mapRows_mean (rows : list (list number)) (concs : list number) :
  forall (i : nat) (points : list (option DataPoint.t)) (p : DataPoint.t),
    mapRows rows i concs = Normal points ->
    In (Some p) points ->
    exists k vs,
      nth_error concs k = Some (DataPoint.concentration p)
      /\ nth_error rows (i + k) = Some vs
      /\ DataPoint.viability p = mean vs.
Proof.
  induction concs as [|c rest IH]; simpl; intros i points p Hm Hin.
  - injection Hm as <-. contradiction.
  - destruct (rowPoint rows c i) as [o|] eqn:Ho; [|discriminate].
    simpl in Hm.
    destruct (mapRows rows (S i) rest) as [ps|] eqn:Hps; [|discriminate].
    simpl in Hm. injection Hm as <-.
    destruct Hin as [->|Hin].
    + destruct (rowPoint_mean _ _ _ _ Ho) as (vs & Hvs & Hmean).
      apply rowPoint_Some in Ho as [<- _].
      exists 0%nat, vs. now rewrite Nat.add_0_r.
    + destruct (IH _ _ _ Hps Hin) as (k & vs & Hk & Hvs & Hmean).
      exists (S k), vs. now rewrite Nat.add_succ_r.
Qed.

(** Every data point pairs the concentration of a row with the mean
    viability of the wells of that row. *)
Lemma dataPointsOf_mean (wells : list WellResult.t) (concs : list number)
    (rowCount : Z) (points : list DataPoint.t) (p : DataPoint.t) :
  dataPointsOf wells concs rowCount = Normal points ->
  In p points ->
  exists rowIndex,
    nth_error concs rowIndex = Some (DataPoint.concentration p)
    /\ DataPoint.viability p = mean (rowViabilities wells rowCount rowIndex).
Proof.
  unfold dataPointsOf.
  destruct (groupByRow rowCount wells (emptyRows rowCount)) as [rows|] eqn:Hg;
    [|discriminate]; simpl.
  destruct (mapRows rows 0 concs) as [opts|] eqn:Hm; [|discriminate]; simpl.
  intros [= <-] Hin.
  apply (Permutation_in _ (sort_perm _ _)) in Hin.
  apply nonNull_In in Hin.
  destruct (mapRows_mean _ _ _ _ _ Hm Hin) as (k & vs & Hk & Hvs & Hmean).
  exists k. split; [assumption|].
  rewrite (groupByRow_nth_error _ _ _ _ Hg) in Hvs. simpl in Hvs.
  unfold emptyRows in Hvs.
  destruct (nth_error (repeat [] (Z.to_nat rowCount)) k) as [e|] eqn:He;
    [|discriminate].
  apply nth_error_In, repeat_spec in He. subst e.
  simpl in Hvs. injection Hvs as <-. exact Hmean.
Qed.

Lemma positive_entry (c : Q) (concs : list number) :
  In (Fin c) concs -> (Fin c <=? 0) = false ->
  In (Fin c) (filter (fun c => c >? 0) concs).
Proof.
  intros Hin Hpos. apply filter_In. split; [assumption|].
  unfold_num. qbool. lra.
Qed.

Lemma calculateIC50_estimate (wells : list WellResult.t)
    (concs : list number) (rowCount : Z) (units : String.string)
    (points : list DataPoint.t) :
  Nat.ltb (length (filter (fun c => c >? 0) concs)) 2 = false ->
  dataPointsOf wells concs rowCount = Normal points ->
  calculateIC50 wells concs rowCount units = Normal (estimate points units).
Proof.
  intros Hpos Hpts. unfold calculateIC50, estimate.
  cbv zeta. rewrite Hpos, Hpts. simpl.
  destruct (Nat.ltb (length points) 2) eqn:Hlen.
  - apply Nat.ltb_lt in Hlen.
    apply noCrossing_short, findCrossing_None in Hlen. now rewrite Hlen.
  - destruct (findCrossing points) as [[p1 p2]|]; [|reflexivity].
    destruct (Math_abs _ <? 1e-6); [reflexivity|].
    destruct (isNaN _ || negb _); reflexivity.
Qed.

Lemma calculateIC50_Some (wells : list WellResult.t)
    (concs : list number) (rowCount : Z) (units : String.string)
    (r : IC50.t) :
  calculateIC50 wells concs rowCount units = Normal (Some r) ->
  Nat.ltb (length (filter (fun c => c >? 0) concs)) 2 = false
  /\ exists points,
       dataPointsOf wells concs rowCount = Normal points
       /\ estimate points units = Some r.
Proof.
  intros Hr.
  destruct (Nat.ltb (length (filter (fun c => c >? 0) concs)) 2) eqn:Hpos.
  - unfold calculateIC50 in Hr. cbv zeta in Hr. rewrite Hpos in Hr.
    discriminate.
  - split; [reflexivity|].
    destruct (dataPointsOf wells concs rowCount) as [points|e] eqn:Hpts.
    + exists points. split; [reflexivity|].
      rewrite (calculateIC50_estimate _ _ _ _ _ Hpos Hpts) in Hr.
      congruence.
    + unfold calculateIC50 in Hr. cbv zeta in Hr.
      rewrite Hpos, Hpts in Hr. discriminate.
Qed.


(** ** IC50 estimator: worked inputs *)

(** [calculateIC50] reaches the scan, finds the crossing between the two
    rows of [flatWells], and returns no value. *)
Lemma calculateIC50_flat_crossing_absent :
  Nat.ltb (length (filter (fun c => c >? 0) [Fin 1; Fin 10])) 2 = false
  /\ dataPointsOf flatWells [Fin 1; Fin 10] 2
     = Normal [DataPoint.mk 1 49.9999995; DataPoint.mk 10 50]
  /\ findCrossing [DataPoint.mk 1 49.9999995; DataPoint.mk 10 50]
     = Some (DataPoint.mk 1 49.9999995, DataPoint.mk 10 50)
  /\ calculateIC50 flatWells [Fin 1; Fin 10] 2 "nM" = Normal None.
Proof. repeat split; vm_compute; reflexivity. Qed.

(** C2 (amended).  The data points are in ascending order of
    concentration and pair a row's concentration with the mean viability of
    its wells.  When the estimator reaches the scan and the first adjacent
    pair of data points that crosses 50 is [(currentPoint, nextPoint)],
    reordered into [(p1, p2)] with
    [p1.viability < p2.viability], then [calculateIC50] returns
    [p1.concentration + (50 - p1.viability) * (p2.concentration -
    p1.concentration) / (p2.viability - p1.viability)], unless the
    viabilities differ by less than [1e-6] or that value is not finite, in
    which cases it returns no value.  On the dose series [(1,90), (10,60),
    (100,40), (1000,10)] the returned value is 55. *)
Theorem calculateIC50_first_crossing :
  (forall (wells : list WellResult.t) (concs : list number) (rowCount : Z)
          (units : String.string) (points before after : list DataPoint.t)
          (currentPoint nextPoint p1 p2 : DataPoint.t),
      Nat.ltb (length (filter (fun c => c >? 0) concs)) 2 = false ->
      dataPointsOf wells concs rowCount = Normal points ->
      points = before ++ currentPoint :: nextPoint :: after ->
      noCrossing (before ++ [currentPoint]) ->
      crosses currentPoint nextPoint = true ->
      (p1, p2) = reorder currentPoint nextPoint ->
      let conc1 := DataPoint.concentration p1 in
      let viability1 := DataPoint.viability p1 in
      let conc2 := DataPoint.concentration p2 in
      let viability2 := DataPoint.viability p2 in
      let ic50Value :=
        conc1 + (50 - viability1) * (conc2 - conc1)
                / (viability2 - viability1) in
      Sorted (inOrder (fun a b => DataPoint.concentration a
                                  - DataPoint.concentration b)) points
      /\ Forall
           (fun p =>
              exists rowIndex,
                nth_error concs rowIndex = Some (DataPoint.concentration p)
                /\ DataPoint.viability p
                   = mean (rowViabilities wells rowCount rowIndex))
           points
      /\ (viability1 <? viability2) = true
      /\ calculateIC50 wells concs rowCount units
         = Normal (if (Math_abs (viability2 - viability1) <? 1e-6)
                      || negb (isFinite ic50Value)
                   then None
                   else Some (IC50.mk ic50Value units)))
  /\ (exists r,
        calculateIC50 doseWells doseConcentrations 4 "nM" = Normal (Some r)
        /\ num_eq (IC50.value r) 55).
Proof.
  split.
  - intros wells concs rowCount units points before after cur next p1 p2
      Hpos Hpts Heq Hno Hc Hre; cbv zeta.
    split; [exact (dataPointsOf_sorted _ _ _ _ Hpts)|].
    split.
    { apply Forall_forall. intros p Hin.
      exact (dataPointsOf_mean _ _ _ _ _ Hpts Hin). }
    split; [exact (proj1 (reorder_brackets _ _ _ _ Hc Hre))|].
    rewrite (calculateIC50_estimate _ _ _ _ _ Hpos Hpts).
    unfold estimate.
    replace (findCrossing points) with (Some (p1, p2)).
    + fold (interpolate p1 p2).
      destruct (Math_abs _ <? 1e-6); [reflexivity|].
      destruct (interpolate p1 p2); reflexivity.
    + symmetry. apply findCrossing_Some.
      now exists before, cur, next, after.
  - eexists. split; [vm_compute; reflexivity|].
    vm_compute. reflexivity.
Qed.

Lemma calculateIC50_first_crossing_witness :
  calculateIC50 doseWells doseConcentrations 4 "nM"
  = Normal (Some (IC50.mk (Fin 100 + (50 - Fin 40) * (Fin 10 - Fin 100)
                           / (Fin 60 - Fin 40)) "nM")).
Proof.
  refine (proj2 (proj2 (proj2
    (proj1 calculateIC50_first_crossing
       doseWells doseConcentrations 4%Z "nM"%string
       [DataPoint.mk 1 90; DataPoint.mk 10 60;
        DataPoint.mk 100 40; DataPoint.mk 1000 10]
       [DataPoint.mk 1 90] [DataPoint.mk 1000 10]
       (DataPoint.mk 10 60) (DataPoint.mk 100 40)
       (DataPoint.mk 100 40) (DataPoint.mk 10 60)
       _ _ _ _ _ _)))).
  - reflexivity.
  - reflexivity.
  - reflexivity.
  - apply findCrossing_None. reflexivity.
  - reflexivity.
  - reflexivity.
Defined.


(** ** Finiteness of the colour pipeline *)

Section FiniteColours.
Context `{M : JSMath}.
Hypothesis Hpow : powf_finite M.

Lemma linearize_finite (c : number) : finite c -> finite (linearize c).
Proof.
  intros [q ->]. unfold linearize.
  destruct (Fin q >? 0.04045) eqn:E.
  - change (Math_pow ((Fin q + 0.055) / 1.055) 2.4)
      with (Math_powf (Fin ((q + 0.055) / 1.055)) (Fin 2.4)).
    apply Hpow; [|reflexivity].
    unfold_num. qbool. apply Qlt_shift_div_l; lra.
  - apply finite_div; [apply finite_Fin|discriminate].
Qed.

Lemma lab_f_finite (t : number) : finite t -> finite (lab_f t).
Proof.
  intros [q ->]. unfold lab_f.
  destruct (Fin q >? 0.008856) eqn:E.
  - change (Math_pow (Fin q) (1 / 3))
      with (Math_powf (Fin q) (Fin (1 / 3))).
    apply Hpow; [|reflexivity].
    unfold_num. qbool. lra.
  - apply finite_Fin.
Qed.

Lemma rgbToLab_finite (rgb : RGB.t) : finiteRGB rgb -> finiteLab (rgbToLab rgb).
Proof.
  intros (Hr & Hg & Hb). unfold rgbToLab, finiteLab; cbv zeta; simpl.
  assert (Hlin : forall c, finite c -> finite (linearize (c / 255))).
  { intros c Hc. apply linearize_finite, finite_div; [assumption|discriminate]. }
  pose proof (Hlin _ Hr) as [r ->].
  pose proof (Hlin _ Hg) as [g ->].
  pose proof (Hlin _ Hb) as [b ->].
  assert (Hf : forall x d, ~ (d == 0)%Q -> finite (lab_f (Fin x / Fin d))).
  { intros x d Hd. apply lab_f_finite, finite_div; [apply finite_Fin|assumption]. }
  repeat split;
    repeat first [apply finite_sub | apply finite_mul | apply finite_Fin
                 | apply Hf; discriminate].
Qed.

Lemma f_inv_finite (t : number) : finite t -> finite (f_inv t).
Proof.
  intros [q ->]. unfold f_inv.
  destruct (Fin q >? 0.206897); apply finite_Fin.
Qed.

Lemma toSrgb_finite (c : number) : finite c -> finite (toSrgb c).
Proof.
  intros [q ->]. unfold toSrgb.
  destruct (Fin q >? 0.0031308) eqn:E.
  - change (Math_pow (Fin q) (1 / 2.4))
      with (Math_powf (Fin q) (Fin (1 / 2.4))).
    apply finite_sub; [|apply finite_Fin].
    apply finite_mul; [apply finite_Fin|].
    apply Hpow; [|reflexivity].
    unfold_num. qbool. lra.
  - apply finite_Fin.
Qed.

Lemma clamp_finite (val : number) : finite val -> finite (clamp val).
Proof.
  intros [q ->]. unfold clamp.
  change (Math_round (Fin q * 255)) with (Fin (inject_Z (Qfloor (q * 255 + 0.5)))).
  unfold_num. qcases; apply finite_Fin.
Qed.

Lemma labToRgb_finite (lab : Lab.t) : finiteLab lab -> finiteRGB (labToRgb lab).
Proof.
  destruct lab as [l a b]. intros ([l' Hl] & [a' Ha] & [b' Hb]).
  simpl in Hl, Ha, Hb. subst.
  unfold labToRgb, finiteRGB; cbv zeta; simpl.
  assert (Hf : forall x, finite (f_inv (Fin x))).
  { intros x. apply f_inv_finite, finite_Fin. }
  repeat split; apply clamp_finite, toSrgb_finite;
    repeat first [apply finite_add | apply finite_mul | apply finite_Fin
                 | apply f_inv_finite].
Qed.

End FiniteColours.

Lemma sort_Forall {A} (P : A -> Prop) (compareFn : A -> A -> number)
    (arr : list A) :
  Forall P arr -> Forall P (sort compareFn arr).
Proof.
  apply Permutation_Forall. symmetry. apply sort_perm.
Qed.

Lemma at_index_finite (values : list number) (i : nat) :
  Forall finite values -> (i < length values)%nat ->
  finite (at_index values i).
Proof.
  intros Hall Hi. unfold at_index.
  rewrite Forall_forall in Hall. apply Hall. now apply nth_In.
Qed.

Lemma median_of_sorted_finite (values : list number) :
  Forall finite values -> (0 < length values)%nat ->
  finite (median_of_sorted values).
Proof.
  intros Hall Hlen. unfold median_of_sorted.
  assert (Hmid : (length values / 2 < length values)%nat)
    by (apply Nat.div_lt; lia).
  destruct (Nat.eqb (length values mod 2) 0).
  - apply finite_div; [|discriminate].
    apply finite_add; apply at_index_finite; try assumption; lia.
  - now apply at_index_finite.
Qed.

Section FiniteEstimator.
Context `{M : JSMath}.
Hypothesis Hpow : powf_finite M.

Lemma getRobustAverageColor_finite (pixels : list RGB.t) :
  Forall finiteRGB pixels -> finiteRGB (getRobustAverageColor pixels).
Proof.
  intros Hall.
  destruct pixels as [|p [|q rest]].
  - repeat split; apply finite_Fin.
  - now inversion Hall.
  - set (pixels := p :: q :: rest) in *.
    change (getRobustAverageColor pixels)
      with (labToRgb
              (Lab.mk
                 (median_of_sorted
                    (sort (fun a b => a - b) (map Lab.l (map rgbToLab pixels))))
                 (median_of_sorted
                    (sort (fun a b => a - b) (map Lab.a (map rgbToLab pixels))))
                 (median_of_sorted
                    (sort (fun a b => a - b) (map Lab.b (map rgbToLab pixels)))))).
    assert (Hlab : Forall finiteLab (map rgbToLab pixels)).
    { apply Forall_map. eapply Forall_impl; [|exact Hall].
      intros c Hc. now apply rgbToLab_finite. }
    assert (Hlen : forall (f : Lab.t -> number) compareFn,
               (0 < length (sort compareFn (map f (map rgbToLab pixels))))%nat).
    { intros f compareFn. rewrite sort_length, !length_map. simpl. lia. }
    apply (labToRgb_finite Hpow).
    unfold finiteLab; cbn [Lab.l Lab.a Lab.b].
    repeat split; apply median_of_sorted_finite; try apply Hlen;
      apply sort_Forall, Forall_map;
      (eapply Forall_impl; [|exact Hlab]); intros c Hc; apply Hc.
Qed.

Lemma scanPixels_finite (radius : number) (data : list RGBA) :
  forall k, Forall finiteRGB (scanPixels radius k data).
Proof.
  induction data as [|[[[r g] b] alpha] rest IH]; intros k; simpl.
  - constructor.
  - destruct (_ <=? radius); [constructor|]; try apply IH.
    repeat split; apply finite_of_Z.
Qed.

Lemma getPixelData_finite (ctx : CanvasRenderingContext2D)
    (x y radius : number) :
  Forall finiteRGB (result (getPixelData ctx x y radius)).
Proof.
  unfold getPixelData; cbv zeta.
  destruct (getImageData ctx _ _ _ _); simpl.
  - apply scanPixels_finite.
  - constructor.
Qed.

Lemma calibrate_finite (minRefRgb maxRefRgb : RGB.t) :
  finiteRGB minRefRgb -> finiteRGB maxRefRgb ->
  let cal := calibrate minRefRgb maxRefRgb in
  finiteLab (labMin cal) /\ finiteLab (gradientVector cal)
  /\ finite (gradientMagSq cal).
Proof.
  intros Hmin Hmax.
  destruct (rgbToLab_finite Hpow _ Hmin) as ([l0 Hl0] & [a0 Ha0] & [b0 Hb0]).
  destruct (rgbToLab_finite Hpow _ Hmax) as ([l1 Hl1] & [a1 Ha1] & [b1 Hb1]).
  unfold calibrate, finiteLab; cbv zeta.
  cbn [labMin gradientVector gradientMagSq Lab.l Lab.a Lab.b].
  rewrite Hl0, Ha0, Hb0, Hl1, Ha1, Hb1.
  repeat split; apply finite_Fin.
Qed.

Lemma project_finite (cal : Calibration) (avgColor : RGB.t) :
  finiteLab (labMin cal) -> finiteLab (gradientVector cal) ->
  finite (gradientMagSq cal) -> (gradientMagSq cal >? 1e-6) = true ->
  finiteRGB avgColor ->
  finite (project cal avgColor).
Proof.
  intros ([l0 Hl0] & [a0 Ha0] & [b0 Hb0]) ([gl Hgl] & [ga Hga] & [gb Hgb])
    [m Hm] Hbig Havg.
  destruct (rgbToLab_finite Hpow _ Havg) as ([l1 Hl1] & [a1 Ha1] & [b1 Hb1]).
  unfold project; cbv zeta. cbn [Lab.l Lab.a Lab.b].
  rewrite Hl0, Ha0, Hb0, Hgl, Hga, Hgb, Hl1, Ha1, Hb1, Hm in *.
  apply finite_div; [apply finite_Fin|].
  unfold_num. qbool. intros Hz. rewrite Hz in Hbig. discriminate.
Qed.

End FiniteEstimator.

(** The clamp [Math.max(0, Math.min(1, x))] of a finite number. *)
Lemma clamp_unit (x : number) :
  finite x ->
  exists q, Math_max 0 (Math_min 1 x) = Fin q /\ (0 <= q)%Q /\ (q <= 1)%Q.
Proof.
  intros [q ->]. unfold_num.
  destruct (Qlt_bool q 1) eqn:E1.
  - destruct (Qlt_bool 0 q) eqn:E0; qbool.
    + exists q. repeat split; lra.
    + exists 0%Q. repeat split; lra.
  - change (Qlt_bool 0 1) with true. cbv iota. exists 1%Q.
    repeat split; lra.
Qed.

(** ** Plate analyzer: the structure of a run *)

Lemma result_bind {A B} (m : Sampling A) (k : A -> Sampling B) :
  result (bind m k) = result (k (result m)).
Proof.
  unfold bind, result. destruct m as [a t1]; simpl. now destruct (k a).
Qed.

Lemma calls_bind {A B} (m : Sampling A) (k : A -> Sampling B) :
  calls (bind m k) = calls m ++ calls (k (result m)).
Proof.
  unfold bind, result, calls. destruct m as [a t1]; simpl. now destruct (k a).
Qed.

Lemma result_forEach {A} (indices : list Z) (body : Z -> Sampling (list A)) :
  result (forEach indices body) = flat_map (fun i => result (body i)) indices.
Proof.
  induction indices as [|i rest IH]; simpl; [reflexivity|].
  rewrite !result_bind. simpl. now rewrite IH.
Qed.

Lemma flat_map_single {A B} (g : A -> B) (arr : list A) :
  flat_map (fun x => [g x]) arr = map g arr.
Proof.
  induction arr as [|x rest IH]; simpl; [reflexivity|]. now rewrite IH.
Qed.

Lemma flat_map_cells {A} (f : Z -> Z -> A) (rows cols : Z) :
  flat_map (fun row => flat_map (fun col => [f row col]) (zrange cols))
           (zrange rows)
  = map (fun cell => f (fst cell) (snd cell)) (cells rows cols).
Proof.
  unfold cells. induction (zrange rows) as [|row rest IH]; simpl; [reflexivity|].
  rewrite map_app, IH. f_equal.
  rewrite map_map. simpl. apply flat_map_single.
Qed.

Section Run.
Context `{M : JSMath}.

(** The promise after [image.onload], case by case. *)
Lemma processWellPlate_onload (ctx : CanvasRenderingContext2D)
    (gridConfig : GridConfig.t) (rowCount colCount : Z)
    (controlNegativePoint controlPositivePoint : Point.t)
    (rowConcentrations : list number) (concentrationUnits : String.string) :
  result (processWellPlate (onload (Some ctx)) gridConfig rowCount colCount
            controlNegativePoint controlPositivePoint rowConcentrations
            concentrationUnits)
  = if (wellRadius gridConfig === 0) || negb (isFinite (wellRadius gridConfig))
    then Rejected (Error BAD_RADIUS)
    else if Nat.eqb (length (sampleAt ctx gridConfig controlNegativePoint)) 0
            || Nat.eqb (length (sampleAt ctx gridConfig controlPositivePoint)) 0
    then Rejected (Error NO_REFERENCE)
    else
      let results := wellsOf ctx gridConfig rowCount colCount
                             controlNegativePoint controlPositivePoint in
      match calculateIC50 results rowConcentrations rowCount
                          concentrationUnits with
      | Normal ic50 => Resolved (AnalysisOutput.mk results ic50)
      | Throw e => Pending e
      end.
Proof.
  unfold processWellPlate; cbv zeta. fold (wellRadius gridConfig).
  destruct ((wellRadius gridConfig === 0)
            || negb (isFinite (wellRadius gridConfig))); [reflexivity|].
  rewrite !result_bind.
  fold (sampleAt ctx gridConfig controlNegativePoint).
  fold (sampleAt ctx gridConfig controlPositivePoint).
  destruct (Nat.eqb (length (sampleAt ctx gridConfig controlNegativePoint)) 0
            || Nat.eqb (length (sampleAt ctx gridConfig controlPositivePoint)) 0);
    [reflexivity|].
  rewrite result_bind, result_forEach.
  fold (referenceCalibration ctx gridConfig controlNegativePoint
          controlPositivePoint).
  replace (flat_map _ (zrange rowCount))
    with (wellsOf ctx gridConfig rowCount colCount controlNegativePoint
            controlPositivePoint).
  - cbv zeta. now destruct (calculateIC50 _ _ _ _).
  - unfold wellsOf.
    etransitivity;
      [symmetry;
       apply (flat_map_cells
                (fun row col =>
                   result (analyzeWell ctx gridConfig (wellRadius gridConfig)
                             (referenceCalibration ctx gridConfig
                                controlNegativePoint controlPositivePoint)
                             row col)))|].
    apply flat_map_ext. intros row. rewrite result_forEach.
    apply flat_map_ext. intros col. now rewrite result_bind.
Qed.

End Run.

Section RunFacts.
Context `{M : JSMath}.

Lemma analyzeWell_result (ctx : CanvasRenderingContext2D)
    (gridConfig : GridConfig.t) (radius : number) (cal : Calibration)
    (row col : Z) :
  let origin := GridConfig.origin gridConfig in
  let u := GridConfig.u gridConfig in
  let v := GridConfig.v gridConfig in
  let centerX := Point.x origin + of_Z col * Point.x u + of_Z row * Point.x v in
  let centerY := Point.y origin + of_Z col * Point.y u + of_Z row * Point.y v in
  let pixels := result (getPixelData ctx centerX centerY radius) in
  let avgColor := getRobustAverageColor pixels in
  result (analyzeWell ctx gridConfig radius cal row col)
  = {| WellResult.id := fromCharCode (65 + row) ++ toString (col + 1);
       WellResult.row := row;
       WellResult.col := col;
       WellResult.center := Point.mk centerX centerY;
       WellResult.avgColor := avgColor;
       WellResult.intensity := fst (measure cal pixels avgColor);
       WellResult.viability := snd (measure cal pixels avgColor) |}.
Proof.
  cbv zeta. unfold analyzeWell; cbv zeta. rewrite result_bind.
  now destruct (measure cal _ _).
Qed.

(** A resolved promise comes from a loaded image with a valid radius and
    two non-empty reference samples, and carries the wells of the loop and
    the returned IC50. *)
Lemma processWellPlate_Resolved (event : LoadEvent)
    (gridConfig : GridConfig.t) (rowCount colCount : Z)
    (controlNegativePoint controlPositivePoint : Point.t)
    (rowConcentrations : list number) (concentrationUnits : String.string)
    (output : AnalysisOutput.t) :
  result (processWellPlate event gridConfig rowCount colCount
            controlNegativePoint controlPositivePoint rowConcentrations
            concentrationUnits) = Resolved output ->
  exists ctx,
    event = onload (Some ctx)
    /\ AnalysisOutput.wellResults output
       = wellsOf ctx gridConfig rowCount colCount controlNegativePoint
                 controlPositivePoint
    /\ calculateIC50 (AnalysisOutput.wellResults output) rowConcentrations
                     rowCount concentrationUnits
       = Normal (AnalysisOutput.ic50 output).
Proof.
  destruct event as [|[ctx|]]; try discriminate.
  rewrite processWellPlate_onload.
  destruct (_ || _); [discriminate|].
  destruct (_ || _); [discriminate|].
  cbv zeta.
  destruct (calculateIC50 _ _ _ _) as [ic50|e] eqn:E; [|discriminate].
  intros [= <-]. exists ctx. simpl. auto.
Qed.

End RunFacts.

(** ** Grid order *)

Lemma zrange_length (n : Z) : length (zrange n) = Z.to_nat n.
Proof. unfold zrange. now rewrite length_map, length_seq. Qed.

Lemma zrange_nth_error (n : Z) (i : nat) :
  (i < Z.to_nat n)%nat -> nth_error (zrange n) i = Some (Z.of_nat i).
Proof.
  intros Hi. unfold zrange.
  rewrite nth_error_map, (nth_error_nth' _ 0%nat);
    [|now rewrite length_seq].
  now rewrite seq_nth.
Qed.

Lemma zrange_In (n i : Z) : In i (zrange n) <-> (0 <= i < n)%Z.
Proof.
  unfold zrange. rewrite in_map_iff. split.
  - intros (k & <- & Hk). apply in_seq in Hk. lia.
  - intros Hi. exists (Z.to_nat i). split; [lia|]. apply in_seq. lia.
Qed.

Lemma flat_map_nth_error {A B} (f : A -> list B) (width : nat) (arr : list A) :
  (forall a, length (f a) = width) ->
  forall (i j : nat) (a : A),
    nth_error arr i = Some a -> (j < width)%nat ->
    nth_error (flat_map f arr) (i * width + j) = nth_error (f a) j.
Proof.
  intros Hw. induction arr as [|a0 rest IH]; intros i j a Hi Hj.
  - now destruct i.
  - destruct i as [|i]; simpl in Hi |- *.
    + injection Hi as ->. rewrite nth_error_app1; [reflexivity|].
      now rewrite Hw.
    + rewrite nth_error_app2; rewrite Hw; [|lia].
      replace (width + i * width + j - width)%nat with (i * width + j)%nat
        by lia.
      now apply IH.
Qed.

Lemma cells_length (rows cols : Z) :
  length (cells rows cols) = (Z.to_nat rows * Z.to_nat cols)%nat.
Proof.
  unfold cells. rewrite <- (zrange_length rows).
  induction (zrange rows) as [|row rest IH]; simpl; [reflexivity|].
  now rewrite length_app, length_map, zrange_length, IH.
Qed.

(** Cell [(row, col)] stands at index [row * cols + col]. *)
Lemma cells_nth_error (rows cols row col : Z) :
  (0 <= row < rows)%Z -> (0 <= col < cols)%Z ->
  nth_error (cells rows cols) (Z.to_nat (row * cols + col)) = Some (row, col).
Proof.
  intros Hrow Hcol. unfold cells.
  replace (Z.to_nat (row * cols + col))
    with (Z.to_nat row * Z.to_nat cols + Z.to_nat col)%nat by nia.
  rewrite (flat_map_nth_error _ (Z.to_nat cols) _
             (fun a => eq_trans (length_map _ _) (zrange_length cols))
             _ _ row).
  - rewrite nth_error_map, zrange_nth_error by lia.
    simpl. do 2 f_equal. lia.
  - rewrite zrange_nth_error by lia. f_equal. lia.
  - lia.
Qed.

Lemma cells_In (rows cols row col : Z) :
  In (row, col) (cells rows cols) <->
  (0 <= row < rows)%Z /\ (0 <= col < cols)%Z.
Proof.
  unfold cells. rewrite in_flat_map. split.
  - intros (r & Hr & Hin). apply in_map_iff in Hin as (c & [= <- <-] & Hc).
    now rewrite <- !zrange_In.
  - intros [Hr Hc]. exists row. rewrite zrange_In. split; [assumption|].
    apply in_map_iff. exists col. now rewrite zrange_In.
Qed.

(** ** Plate analyzer: the well results *)

Section WellResults.
Context `{M : JSMath}.


End WellResults.

Lemma rational_powf_finite : powf_finite rationalMath.
Proof.
  intros x e Hx He. simpl. unfold rational_powf.
  assert (Hnum : (0 < Qnum (Qred e))%Z).
  { assert (Hr : (0 < Qred e)%Q) by now rewrite Qred_correct.
    unfold Qlt in Hr. simpl in Hr. lia. }
  replace (Qlt_bool x 0) with false by (symmetry; qbool; lra).
  destruct (Qnum (Qred e)); try lia.
  destruct (Qeq_bool x 0); apply finite_Fin.
Qed.


Section Intensity.
Context `{M : JSMath}.
Hypothesis Hpow : powf_finite M.

Lemma measure_spec (cal : Calibration) (pixels : list RGB.t) (avgColor : RGB.t) :
  finiteLab (labMin cal) -> finiteLab (gradientVector cal) ->
  finite (gradientMagSq cal) -> finiteRGB avgColor ->
  let intensity := fst (measure cal pixels avgColor) in
  let viability := snd (measure cal pixels avgColor) in
  (exists q, intensity = Fin q /\ (0 <= q)%Q /\ (q <= 1)%Q)
  /\ viability = intensity * 100
  /\ (pixels = [] \/ (gradientMagSq cal >? 1e-6) = false ->
      intensity = Fin 0).
Proof.
  intros Hmin Hgrad Hmag Havg. unfold measure.
  destruct (Nat.ltb 0 (length pixels)) eqn:Hlen;
    destruct (gradientMagSq cal >? 1e-6) eqn:Hbig; cbn [andb fst snd].
  - destruct (clamp_unit (project cal avgColor)) as (q & Hq & Hq0 & Hq1).
    { now apply (project_finite Hpow). }
    split; [now exists q|]. split; [reflexivity|].
    intros [->|Hfalse]; [discriminate Hlen|discriminate Hfalse].
  - split; [exists 0%Q; repeat split; lra|]. split; reflexivity.
  - split; [exists 0%Q; repeat split; lra|]. split; reflexivity.
  - split; [exists 0%Q; repeat split; lra|]. split; reflexivity.
Qed.

(** C4.  Every well result of a resolved analysis has an intensity in
    [0, 1] and a viability equal to [intensity * 100]; and when the well's
    pixel sample is empty, or the squared magnitude of the calibration
    gradient is not above [1e-6], the intensity is 0. *)
Theorem processWellPlate_intensity (event : LoadEvent)
    (gridConfig : GridConfig.t) (rowCount colCount : Z)
    (controlNegativePoint controlPositivePoint : Point.t)
    (rowConcentrations : list number) (concentrationUnits : String.string)
    (output : AnalysisOutput.t) :
  result (processWellPlate event gridConfig rowCount colCount
            controlNegativePoint controlPositivePoint rowConcentrations
            concentrationUnits) = Resolved output ->
  exists ctx,
    event = onload (Some ctx)
    /\ Forall
         (fun w =>
            (exists q, WellResult.intensity w = Fin q
                       /\ (0 <= q)%Q /\ (q <= 1)%Q)
            /\ WellResult.viability w = WellResult.intensity w * 100
            /\ (sampleAt ctx gridConfig (WellResult.center w) = []
                \/ (gradientMagSq
                      (referenceCalibration ctx gridConfig
                         controlNegativePoint controlPositivePoint)
                    >? 1e-6) = false ->
                WellResult.intensity w = Fin 0))
         (AnalysisOutput.wellResults output).
Proof.
  intros Hres.
  apply processWellPlate_Resolved in Hres as (ctx & -> & Hwells & _).
  exists ctx. split; [reflexivity|].
  rewrite Hwells. unfold wellsOf.
  apply Forall_map, Forall_forall. intros [row col] _.
  rewrite analyzeWell_result.
  cbn [WellResult.intensity WellResult.viability WellResult.center fst snd].
  unfold sampleAt at 1. cbn [Point.x Point.y].
  destruct (calibrate_finite Hpow
              (getRobustAverageColor
                 (sampleAt ctx gridConfig controlNegativePoint))
              (getRobustAverageColor
                 (sampleAt ctx gridConfig controlPositivePoint)))
    as (Hmin & Hgrad & Hmag);
    try (apply (getRobustAverageColor_finite Hpow), getPixelData_finite).
  apply measure_spec; try assumption.
  apply (getRobustAverageColor_finite Hpow), getPixelData_finite.
Qed.

End Intensity.

Lemma processWellPlate_intensity_witness :
  exists output,
    result (columnRun [Fin 1; Fin 10]) = Resolved output
    /\ Forall
         (fun w =>
            exists q, WellResult.intensity w = Fin q
                      /\ (0 <= q)%Q /\ (q <= 1)%Q)
         (AnalysisOutput.wellResults output).
Proof.
  assert (E : exists output, result (columnRun [Fin 1; Fin 10]) = Resolved output)
    by (vm_compute; eexists; reflexivity).
  destruct E as [output E]. exists output. split; [exact E|].
  destruct (processWellPlate_intensity rational_powf_finite
              _ _ _ _ _ _ _ _ _ E) as (ctx & _ & Hall).
  eapply Forall_impl; [|exact Hall].
  intros w Hw. exact (proj1 Hw).
Defined.

(** ** Plate analyzer: error propagation *)

Section Propagation.
Context `{M : JSMath}.

(** A zero or non-finite radius rejects the promise before any call of
    [getImageData]. *)
Lemma processWellPlate_bad_radius (ctx : CanvasRenderingContext2D)
    (gridConfig : GridConfig.t) (rowCount colCount : Z)
    (controlNegativePoint controlPositivePoint : Point.t)
    (rowConcentrations : list number) (concentrationUnits : String.string) :
  (wellRadius gridConfig === 0) = true
  \/ isFinite (wellRadius gridConfig) = false ->
  processWellPlate (onload (Some ctx)) gridConfig rowCount colCount
    controlNegativePoint controlPositivePoint rowConcentrations
    concentrationUnits
  = (Rejected (Error BAD_RADIUS), []).
Proof.
  intros Hbad. unfold processWellPlate; cbv zeta.
  fold (wellRadius gridConfig).
  replace ((wellRadius gridConfig === 0)
           || negb (isFinite (wellRadius gridConfig))) with true;
    [reflexivity|].
  symmetry. apply orb_true_iff.
  destruct Hbad as [-> | ->]; auto.
Qed.

(** With a valid radius, an empty sample at either reference point rejects
    the promise. *)
Lemma processWellPlate_no_reference (ctx : CanvasRenderingContext2D)
    (gridConfig : GridConfig.t) (rowCount colCount : Z)
    (controlNegativePoint controlPositivePoint : Point.t)
    (rowConcentrations : list number) (concentrationUnits : String.string) :
  (wellRadius gridConfig === 0) = false ->
  isFinite (wellRadius gridConfig) = true ->
  sampleAt ctx gridConfig controlNegativePoint = []
  \/ sampleAt ctx gridConfig controlPositivePoint = [] ->
  result (processWellPlate (onload (Some ctx)) gridConfig rowCount colCount
            controlNegativePoint controlPositivePoint rowConcentrations
            concentrationUnits)
  = Rejected (Error NO_REFERENCE).
Proof.
  intros Hnz Hfin Hempty. rewrite processWellPlate_onload, Hnz, Hfin.
  cbn [orb negb].
  replace (Nat.eqb (length (sampleAt ctx gridConfig controlNegativePoint)) 0
           || Nat.eqb (length (sampleAt ctx gridConfig controlPositivePoint)) 0)
    with true; [reflexivity|].
  symmetry. apply orb_true_iff.
  destruct Hempty as [-> | ->]; auto.
Qed.

(** With a valid radius and two non-empty reference samples, an IC50 step
    that returns (a value or none) resolves the promise with every well
    result; an IC50 step that throws leaves the promise pending. *)
Lemma processWellPlate_after_sampling (ctx : CanvasRenderingContext2D)
    (gridConfig : GridConfig.t) (rowCount colCount : Z)
    (controlNegativePoint controlPositivePoint : Point.t)
    (rowConcentrations : list number) (concentrationUnits : String.string) :
  (wellRadius gridConfig === 0) = false ->
  isFinite (wellRadius gridConfig) = true ->
  sampleAt ctx gridConfig controlNegativePoint <> [] ->
  sampleAt ctx gridConfig controlPositivePoint <> [] ->
  let wells := wellsOf ctx gridConfig rowCount colCount controlNegativePoint
                       controlPositivePoint in
  result (processWellPlate (onload (Some ctx)) gridConfig rowCount colCount
            controlNegativePoint controlPositivePoint rowConcentrations
            concentrationUnits)
  = match calculateIC50 wells rowConcentrations rowCount concentrationUnits
    with
    | Normal ic50 => Resolved (AnalysisOutput.mk wells ic50)
    | Throw e => Pending e
    end.
Proof.
  intros Hnz Hfin Hneg Hpos. rewrite processWellPlate_onload, Hnz, Hfin.
  cbn [orb negb].
  destruct (sampleAt ctx gridConfig controlNegativePoint); [contradiction|].
  destruct (sampleAt ctx gridConfig controlPositivePoint); [contradiction|].
  reflexivity.
Qed.

End Propagation.

(** C3 (failing input).  With three positive concentrations and
    [rowCount = 2], [viabilitiesByRow[2]] is [undefined]: the guard
    [viabilitiesByRow[rowIndex]?.length === 0] is false and
    [viabilities.reduce] throws a [TypeError]. *)
Theorem calculateIC50_extra_concentration_throws :
  calculateIC50 [] [Fin 1; Fin 2; Fin 3] 2 "nM" = Throw TypeError.
Proof. reflexivity. Qed.

(** A well whose row is negative passes the guard [well.row < rowCount]
    and throws as well. *)
Lemma calculateIC50_negative_row_throws :
  calculateIC50 [wellAt (-1) 0 50] [Fin 1; Fin 2] 2 "nM" = Throw TypeError.
Proof. reflexivity. Qed.

(** C7 (failing input).  On a plate of two rows with three positive
    concentrations, the radius is valid and both references are sampled,
    but [calculateIC50] throws inside [image.onload]: the promise is neither
    resolved nor rejected, and no well result is returned. *)
Theorem processWellPlate_extra_concentration_pending :
  result (columnRun [Fin 1; Fin 10; Fin 100]) = Pending TypeError.
Proof. vm_compute. reflexivity. Qed.

(** ** IC50 estimator: inputs on which it returns *)

Lemma pushAt_Some (rows : list (list number)) (v : number) :
  forall i, (i < length rows)%nat ->
    exists rows', pushAt rows i v = Some rows' /\ length rows' = length rows.
Proof.
  induction rows as [|vs rest IH]; intros i Hi; simpl in Hi; [lia|].
  destruct i as [|i]; simpl.
  - eexists. split; reflexivity.
  - destruct (IH i) as (rows' & -> & Hlen); [lia|].
    eexists. split; [reflexivity|]. simpl. now rewrite Hlen.
Qed.

Lemma groupByRow_Normal (rowCount : Z) (wells : list WellResult.t) :
  Forall (fun w => (0 <= WellResult.row w)%Z) wells ->
  forall rows, length rows = Z.to_nat rowCount ->
    exists rows', groupByRow rowCount wells rows = Normal rows'
                  /\ length rows' = Z.to_nat rowCount.
Proof.
  induction 1 as [|w rest Hw _ IH]; intros rows Hlen; simpl.
  - now exists rows.
  - destruct (Z.ltb_spec (WellResult.row w) rowCount) as [Hlt|_];
      [|now apply IH].
    destruct (Z.ltb_spec (WellResult.row w) 0) as [Hneg|_]; [lia|].
    destruct (pushAt_Some rows (WellResult.viability w)
                (Z.to_nat (WellResult.row w))) as (rows' & -> & Hlen');
      [lia|].
    apply IH. congruence.
Qed.

Lemma mapRows_Normal (rows : list (list number)) (concs : list number) :
  forall i, (i + length concs <= length rows)%nat ->
    exists points, mapRows rows i concs = Normal points.
Proof.
  induction concs as [|c rest IH]; intros i Hi; simpl in Hi |- *.
  - now eexists.
  - destruct (IH (S i)) as (ps & ->); [lia|].
    unfold rowPoint.
    destruct (nth_error rows i) as [vs|] eqn:Hn.
    + destruct (_ || _); simpl; now eexists.
    + apply nth_error_None in Hn. lia.
Qed.

(** On inputs with one concentration per row at most and no negative row,
    [calculateIC50] returns: no value below two positive concentrations,
    and otherwise the estimate over the sorted data points. *)
Lemma calculateIC50_returns (wells : list WellResult.t)
    (concs : list number) (rowCount : Z) (units : String.string) :
  Forall (fun w => (0 <= WellResult.row w)%Z) wells ->
  (length concs <= Z.to_nat rowCount)%nat ->
  exists points,
    dataPointsOf wells concs rowCount = Normal points
    /\ calculateIC50 wells concs rowCount units
       = Normal (if Nat.ltb (length (filter (fun c => c >? 0) concs)) 2
                 then None else estimate points units).
Proof.
  intros Hrows Hlen.
  destruct (groupByRow_Normal rowCount wells Hrows (emptyRows rowCount))
    as (rows & Hg & Hrl); [apply repeat_length|].
  destruct (mapRows_Normal rows concs 0) as (opts & Hm); [simpl; lia|].
  assert (Hpts : dataPointsOf wells concs rowCount
                 = Normal (sort (fun a b => DataPoint.concentration a
                                            - DataPoint.concentration b)
                                (nonNull opts))).
  { unfold dataPointsOf. rewrite Hg. simpl. rewrite Hm. reflexivity. }
  eexists. split; [exact Hpts|].
  destruct (Nat.ltb (length (filter (fun c => c >? 0) concs)) 2) eqn:Hpos.
  - unfold calculateIC50; cbv zeta. now rewrite Hpos.
  - now apply calculateIC50_estimate.
Qed.

(** The estimate is absent exactly when no adjacent pair crosses 50 (which
    covers fewer than two data points), or the bracketing viabilities
    differ by less than [1e-6], or the interpolated value is not finite. *)
Lemma estimate_None_iff (points : list DataPoint.t) (units : String.string) :
  estimate points units = None <->
  noCrossing points
  \/ exists p1 p2,
       findCrossing points = Some (p1, p2)
       /\ ((Math_abs (DataPoint.viability p2 - DataPoint.viability p1) <? 1e-6)
           = true
           \/ isFinite (interpolate p1 p2) = false).
Proof.
  unfold estimate.
  destruct (findCrossing points) as [[p1 p2]|] eqn:Hf.
  - split.
    + intros He. right. exists p1, p2. split; [reflexivity|].
      destruct (Math_abs _ <? 1e-6); [now left|right].
      destruct (interpolate p1 p2); simpl in *; congruence.
    + intros [Hno|(q1 & q2 & [= <- <-] & [-> | Hnf])].
      * apply findCrossing_None in Hno. congruence.
      * reflexivity.
      * destruct (Math_abs _ <? 1e-6); [reflexivity|].
        destruct (interpolate p1 p2); simpl in *; congruence.
  - split; [intros _; left; now apply findCrossing_None|reflexivity].
Qed.

(** ** Pixel sampler *)

Lemma rational_sqrt_exact : sqrt_exact rationalMath.
Proof.
  intros s n r Hs Hn Hr. simpl. unfold rational_sqrt.
  replace (Qlt_bool s 0) with false
    by (symmetry; qbool; rewrite Hs; change 0%Q with (inject_Z 0);
        now rewrite <- Zle_Qle).
  unfold le, of_Z, Qsqrt.
  assert (Hfloor : Qfloor (s * inject_Z (4 ^ precision)) = (n * 4 ^ precision)%Z).
  { rewrite Hs, <- inject_Z_mult. apply Qfloor_Z. }
  rewrite Hfloor. change (4 ^ precision)%Z with (4294967296 * 4294967296)%Z.
  change (Z.to_pos (2 ^ precision)) with 4294967296%positive.
  change (2 ^ 31)%Z with 2147483648%Z in Hr.
  set (m := Z.sqrt (n * (4294967296 * 4294967296))).
  destruct (Z.leb_spec n (r * r)) as [Hle|Hgt].
  - apply Qle_bool_iff. unfold Qle; simpl.
    assert (m <= r * 4294967296)%Z; [|lia].
    unfold m. rewrite <- (Z.sqrt_square (r * 4294967296)) by lia.
    apply Z.sqrt_le_mono. nia.
  - apply not_true_iff_false. rewrite Qle_bool_iff. unfold Qle; simpl.
    assert (r * 4294967296 + 1 <= m)%Z; [|lia].
    unfold m. apply Z.sqrt_le_square; nia.
Qed.

Lemma Math_max_round (radius : Q) :
  Math_max 1 (Math_round (Fin radius)) = of_Z (roundedRadius radius).
Proof.
  unfold Math_round, roundedRadius.
  set (n := Qfloor (radius + 0.5)).
  unfold Math_max, of_Z, lt.
  destruct (Qlt_bool 1 (inject_Z n)) eqn:E; qbool.
  - change 1%Q with (inject_Z 1) in E. rewrite <- Zlt_Qlt in E.
    now rewrite Z.max_r by lia.
  - change 1%Q with (inject_Z 1) in E. rewrite <- Zle_Qle in E.
    now rewrite Z.max_l by lia.
Qed.

Lemma Qtrunc_Qeq (q : Q) (z : Z) : (q == inject_Z z)%Q -> Qtrunc q = z.
Proof.
  intros Hq. unfold Qtrunc.
  destruct (Qlt_bool q 0); rewrite Hq; [apply Qceiling_Z|apply Qfloor_Z].
Qed.

Lemma toLong_Qeq (q : Q) (z : Z) :
  (q == inject_Z z)%Q -> (- 2 ^ 31 <= z < 2 ^ 31)%Z -> toLong (Fin q) = z.
Proof.
  intros Hq Hz. unfold toLong. rewrite (Qtrunc_Qeq _ _ Hq).
  change (2 ^ 32)%Z with 4294967296%Z.
  change (2 ^ 31)%Z with 2147483648%Z in *.
  destruct (Z.geb_spec (z mod 4294967296) 2147483648) as [Hge|Hlt].
  - assert (z < 0)%Z.
    { destruct (Z.lt_ge_cases z 0) as [|Hpos]; [assumption|].
      rewrite Z.mod_small in Hge; lia. }
    rewrite <- (Z.mod_unique z 4294967296 (-1) (z + 4294967296)); lia.
  - destruct (Z.lt_ge_cases z 0) as [Hneg|Hpos].
    + rewrite <- (Z.mod_unique z 4294967296 (-1) (z + 4294967296)) in Hlt; lia.
    + apply Z.mod_small. lia.
Qed.

(** What the canvas returns for the sampler's request. *)
Lemma canvas_window (c : Canvas) (left top r : Z) :
  originClean c = true ->
  (1 <= r < 2 ^ 30)%Z ->
  (- 2 ^ 31 <= left < 2 ^ 31)%Z -> (- 2 ^ 31 <= top < 2 ^ 31)%Z ->
  canvas_getImageData c (of_Z left) (of_Z top) (of_Z r * 2) (of_Z r * 2)
  = Some {| data :=
              flat_map
                (fun dy => map (fun dx => readPixel c (left + dx) (top + dy))
                               (zrange (2 * r)))
                (zrange (2 * r)) |}.
Proof.
  intros Hclean Hr Hleft Htop. unfold canvas_getImageData.
  change (of_Z r * 2) with (Fin (inject_Z r * 2)). unfold of_Z.
  change (2 ^ 30)%Z with 1073741824%Z in Hr.
  rewrite (toLong_Qeq (inject_Z left) left),
          (toLong_Qeq (inject_Z top) top); try reflexivity; try assumption.
  rewrite (toLong_Qeq (inject_Z r * 2) (2 * r)).
  - rewrite Hclean. cbv zeta.
    destruct (Z.eqb_spec (2 * r) 0) as [Hz|_]; [lia|].
    destruct (Z.ltb_spec (2 * r) 0) as [Hz|_]; [lia|].
    reflexivity.
  - rewrite inject_Z_mult. simpl. ring.
  - change (2 ^ 31)%Z with 2147483648%Z. lia.
Qed.

Lemma div_Fin (a b : Q) : ~ (b == 0)%Q -> Fin a / Fin b = Fin (a / b).
Proof.
  intros Hb. unfold div. apply Qeq_bool_false in Hb. now rewrite Hb.
Qed.

Lemma Qfloor_quotient (a b : Q) (K W : Z) :
  (a == inject_Z K)%Q -> (b == inject_Z W)%Q -> (0 < W)%Z ->
  Qfloor (a / b) = (K / W)%Z.
Proof.
  intros Ha Hb HW.
  assert (Hq : (a / b == K # Z.to_pos W)%Q).
  { rewrite Ha, Hb, Qmake_Qdiv. now rewrite Z2Pos.id. }
  rewrite Hq. simpl. now rewrite Z2Pos.id.
Qed.

Lemma rem_Fin (a b : Q) (K W : Z) :
  (a == inject_Z K)%Q -> (b == inject_Z W)%Q -> (0 <= K)%Z -> (0 < W)%Z ->
  exists q, (Fin a %% Fin b) = Fin q /\ (q == inject_Z (K mod W))%Q.
Proof.
  intros Ha Hb HK HW. unfold rem.
  assert (Hbz : ~ (b == 0)%Q).
  { rewrite Hb. change 0%Q with (inject_Z 0). rewrite inject_Z_injective. lia. }
  apply Qeq_bool_false in Hbz. rewrite Hbz. cbv zeta.
  assert (Hpos : Qlt_bool (a / b) 0 = false).
  { qbool. rewrite Ha, Hb. apply Qle_shift_div_l.
    - change 0%Q with (inject_Z 0). rewrite <- Zlt_Qlt. lia.
    - rewrite Qmult_0_l. change 0%Q with (inject_Z 0). rewrite <- Zle_Qle. lia. }
  rewrite Hpos, (Qfloor_quotient a b K W Ha Hb HW).
  eexists. split; [reflexivity|].
  rewrite Ha, Hb, (Z.mod_eq K W) by lia.
  unfold Z.sub. rewrite inject_Z_plus, inject_Z_opp, inject_Z_mult. ring.
Qed.

Section ScanTest.
Context `{M : JSMath}.
Hypothesis Hsqrt : sqrt_exact M.

(** The test of the loop at pixel index [k] is the disk mask at the
    window offset [(k mod 2r, k / 2r)]. *)
Lemma scan_test (r : Z) (k : nat) :
  (1 <= r < 2 ^ 31)%Z ->
  let i := of_nat (4 * k) in
  let px := (i / 4) %% (of_Z r * 2) in
  let py := Math_floor ((i / 4) / (of_Z r * 2)) in
  (Math_sqrt (Math_pow (px - of_Z r) 2 + Math_pow (py - of_Z r) 2)
   <=? of_Z r)
  = inDisk r (Z.of_nat k mod (2 * r)) (Z.of_nat k / (2 * r)).
Proof.
  intros Hr. cbv zeta.
  set (K := Z.of_nat k). set (W := (2 * r)%Z).
  set (a := (inject_Z (Z.of_nat (4 * k)) / 4)%Q).
  set (b := (inject_Z r * 2)%Q).
  change (of_nat (4 * k) / 4) with (Fin a).
  change (of_Z r * 2) with (Fin b).
  assert (Ha : (a == inject_Z K)%Q).
  { unfold a, K. rewrite Nat2Z.inj_mul, inject_Z_mult. simpl. field. }
  assert (Hb : (b == inject_Z W)%Q).
  { unfold b, W. rewrite inject_Z_mult. simpl. ring. }
  assert (HW : (0 < W)%Z) by (unfold W; lia).
  assert (HK : (0 <= K)%Z) by (unfold K; lia).
  destruct (rem_Fin a b K W Ha Hb HK HW) as (pxq & -> & Hpx).
  rewrite div_Fin.
  2:{ rewrite Hb. change 0%Q with (inject_Z 0).
      rewrite inject_Z_injective. lia. }
  unfold Math_floor. rewrite (Qfloor_quotient a b K W Ha Hb HW).
  set (px := (K mod W)%Z) in *. set (py := (K / W)%Z).
  change (Math_pow (Fin pxq - of_Z r) 2 + Math_pow (of_Z py - of_Z r) 2)
    with (Fin ((pxq + - inject_Z r) * (pxq + - inject_Z r)
               + (inject_Z py + - inject_Z r) * (inject_Z py + - inject_Z r))).
  unfold inDisk. clearbody px py.
  apply Hsqrt;
    [|apply Z.add_nonneg_nonneg; apply Z.square_nonneg|lia].
  rewrite Hpx. unfold Z.sub.
  rewrite !inject_Z_plus, !inject_Z_mult, !inject_Z_plus, !inject_Z_opp.
  ring.
Qed.

End ScanTest.

Section Scan.
Context `{M : JSMath}.

Lemma scanPixels_cons (radius : number) (k : nat) (p : RGBA)
    (rest : list RGBA) :
  scanPixels radius k (p :: rest)
  = if loopTest radius k then rgbOf p :: scanPixels radius (S k) rest
    else scanPixels radius (S k) rest.
Proof. destruct p as [[[r g] b] alpha]. reflexivity. Qed.

Lemma scanPixels_app (radius : number) (d1 d2 : list RGBA) :
  forall k,
    scanPixels radius k (d1 ++ d2)
    = scanPixels radius k d1 ++ scanPixels radius (k + length d1) d2.
Proof.
  induction d1 as [|p rest IH]; intros k.
  - simpl. now rewrite Nat.add_0_r.
  - rewrite <- app_comm_cons, !scanPixels_cons, IH.
    replace (S k + length rest)%nat with (k + length (p :: rest))%nat
      by (simpl; lia).
    now destruct (loopTest radius k).
Qed.

Hypothesis Hsqrt : sqrt_exact M.

Lemma scanPixels_row (r : Z) (h : Z -> RGBA) (j : nat) :
  (1 <= r < 2 ^ 31)%Z ->
  forall n s, (s + n <= Z.to_nat (2 * r))%nat ->
    scanPixels (of_Z r) (j * Z.to_nat (2 * r) + s)
               (map h (map Z.of_nat (seq s n)))
    = map (fun dx => rgbOf (h dx))
          (filter (fun dx => inDisk r dx (Z.of_nat j))
                  (map Z.of_nat (seq s n))).
Proof.
  intros Hr. induction n as [|n IH]; intros s Hs; [reflexivity|].
  cbn [seq map filter]. rewrite scanPixels_cons.
  replace (S (j * Z.to_nat (2 * r) + s))%nat
    with (j * Z.to_nat (2 * r) + S s)%nat by lia.
  rewrite IH by lia.
  unfold loopTest. rewrite (scan_test Hsqrt r _ Hr).
  replace (Z.of_nat (j * Z.to_nat (2 * r) + s))
    with (Z.of_nat s + Z.of_nat j * (2 * r))%Z by lia.
  rewrite Z.mod_add, Z.div_add by lia.
  rewrite Z.mod_small, Z.div_small, Z.add_0_l by lia.
  now destruct (inDisk r (Z.of_nat s) (Z.of_nat j)).
Qed.

Lemma scanPixels_rows (r : Z) (h : Z -> Z -> RGBA) :
  (1 <= r < 2 ^ 31)%Z ->
  forall m j,
    scanPixels (of_Z r) (j * Z.to_nat (2 * r))
               (flat_map (fun dy => map (h dy) (zrange (2 * r)))
                         (map Z.of_nat (seq j m)))
    = flat_map (fun dy => map (fun dx => rgbOf (h dy dx))
                              (filter (fun dx => inDisk r dx dy)
                                      (zrange (2 * r))))
               (map Z.of_nat (seq j m)).
Proof.
  intros Hr. induction m as [|m IH]; intros j; [reflexivity|].
  cbn [seq map flat_map]. rewrite scanPixels_app.
  rewrite length_map, zrange_length.
  replace (j * Z.to_nat (2 * r) + Z.to_nat (2 * r))%nat
    with (S j * Z.to_nat (2 * r))%nat by lia.
  rewrite IH. f_equal.
  rewrite <- (Nat.add_0_r (j * Z.to_nat (2 * r))). unfold zrange.
  now apply scanPixels_row.
Qed.

End Scan.

Lemma filter_map_swap {A B} (f : A -> B) (p : B -> bool) (arr : list A) :
  filter p (map f arr) = map f (filter (fun x => p (f x)) arr).
Proof.
  induction arr as [|x rest IH]; simpl; [reflexivity|].
  rewrite IH. now destruct (p (f x)).
Qed.

Lemma cells_filter_map {A} (f : Z * Z -> A) (p : Z * Z -> bool)
    (rows cols : Z) :
  map f (filter p (cells rows cols))
  = flat_map (fun row => map (fun col => f (row, col))
                             (filter (fun col => p (row, col)) (zrange cols)))
             (zrange rows).
Proof.
  unfold cells. induction (zrange rows) as [|row rest IH]; [reflexivity|].
  cbn [flat_map]. rewrite filter_app, map_app, IH. f_equal.
  now rewrite filter_map_swap, map_map.
Qed.

Section SamplerOnCanvas.
Context `{M : JSMath}.
Hypothesis Hsqrt : sqrt_exact M.

(** The sampler on a readable canvas: the pixels of the [2r] x [2r] window
    at the offsets inside the mask, row by row. *)
Lemma getPixelData_canvas (c : Canvas) (x y radius : Q) :
  originClean c = true ->
  let r := roundedRadius radius in
  let left := windowLeft x radius in
  let top := windowLeft y radius in
  (r < 2 ^ 30)%Z ->
  (- 2 ^ 31 <= left < 2 ^ 31)%Z -> (- 2 ^ 31 <= top < 2 ^ 31)%Z ->
  getPixelData (canvasContext c) (Fin x) (Fin y) (Fin radius)
  = (map (fun cell => rgbOf (readPixel c (left + snd cell) (top + fst cell)))
         (filter (fun cell => inDisk r (snd cell) (fst cell))
                 (cells (2 * r) (2 * r))),
     [{| sx := of_Z left; sy := of_Z top;
         sw := of_Z r * 2; sh := of_Z r * 2 |}]).
Proof.
  intros Hclean r left top Hr Hleft Htop.
  assert (Hr1 : (1 <= r)%Z) by (unfold r, roundedRadius; lia).
  unfold getPixelData. rewrite Math_max_round. fold r. cbv zeta.
  cbn [sx sy sw sh].
  change (Math_round (Fin x - of_Z r)) with (of_Z left).
  change (Math_round (Fin y - of_Z r)) with (of_Z top).
  cbn [getImageData canvasContext].
  rewrite canvas_window by (try assumption; lia).
  cbn [data]. f_equal.
  rewrite cells_filter_map. cbn [fst snd].
  assert (Hr31 : (1 <= r < 2 ^ 31)%Z).
  { split; [assumption|]. eapply Z.lt_trans; [exact Hr|reflexivity]. }
  exact (scanPixels_rows Hsqrt r
           (fun dy dx => readPixel c (left + dx) (top + dy)) Hr31
           (Z.to_nat (2 * r)) 0%nat).
Qed.

End SamplerOnCanvas.

(** *** The sampler against the specification *)



Section SamplerTheorems.
Context `{M : JSMath}.
Hypothesis Hsqrt : sqrt_exact M.



End SamplerTheorems.




(* ================================================================== *)
(** * Further properties *)
(* ================================================================== *)

(** ** IC50 estimator on well-formed input *)



(** ** When the IC50 estimator throws *)

Lemma groupByRow_outcome (rowCount : Z) (wells : list WellResult.t) :
  forall rows, length rows = Z.to_nat rowCount ->
    (Exists (fun w => (WellResult.row w < 0)%Z
                      /\ (WellResult.row w < rowCount)%Z) wells
     /\ groupByRow rowCount wells rows = Throw TypeError)
    \/ (~ Exists (fun w => (WellResult.row w < 0)%Z
                           /\ (WellResult.row w < rowCount)%Z) wells
        /\ exists rows', groupByRow rowCount wells rows = Normal rows'
                         /\ length rows' = Z.to_nat rowCount).
Proof.
  induction wells as [|well rest IH]; intros rows Hlen.
  - right. split; [intros Hex; inversion Hex|]. now exists rows.
  - cbn [groupByRow].
    destruct (Z.ltb_spec (WellResult.row well) rowCount) as [Hr|Hr].
    + destruct (Z.ltb_spec (WellResult.row well) 0) as [Hneg|Hpos].
      * left. split; [now apply Exists_cons_hd|reflexivity].
      * destruct (pushAt_Some rows (WellResult.viability well)
                    (Z.to_nat (WellResult.row well)))
          as (rows' & -> & Hlen'); [lia|].
        destruct (IH rows') as [[Hex ->]|[Hno Hnormal]]; [lia| |].
        -- left. split; [now apply Exists_cons_tl|reflexivity].
        -- right. split; [|exact Hnormal].
           intros Hex. inversion Hex; subst; [lia|contradiction].
    + destruct (IH rows Hlen) as [[Hex ->]|[Hno Hnormal]].
      * left. split; [now apply Exists_cons_tl|reflexivity].
      * right. split; [|exact Hnormal].
        intros Hex. inversion Hex; subst; [lia|contradiction].
Qed.

Lemma mapRows_outcome (rows : list (list number)) (concs : list number) :
  forall i,
    (Exists (fun c => (c <=? 0) = false) (skipn (length rows - i) concs)
     /\ mapRows rows i concs = Throw TypeError)
    \/ (~ Exists (fun c => (c <=? 0) = false) (skipn (length rows - i) concs)
        /\ exists points, mapRows rows i concs = Normal points).
Proof.
  induction concs as [|c rest IH]; intros i.
  - right. rewrite skipn_nil. split; [intros Hex; inversion Hex|].
    now exists [].
  - cbn [mapRows]. unfold rowPoint.
    destruct (Nat.ltb_spec i (length rows)) as [Hin|Hout].
    + destruct (nth_error rows i) as [viabilities|] eqn:Hnth.
      2:{ apply nth_error_None in Hnth. lia. }
      replace (length rows - i)%nat with (S (length rows - S i)) by lia.
      cbn [skipn].
      destruct (IH (S i)) as [[Hex Hthrow]|[Hno (points & Hnormal)]].
      * left. split; [exact Hex|].
        destruct ((c <=? 0) || Nat.eqb (length viabilities) 0);
          cbn [bindC]; now rewrite Hthrow.
      * right. split; [exact Hno|].
        destruct ((c <=? 0) || Nat.eqb (length viabilities) 0);
          cbn [bindC]; rewrite Hnormal; eexists; reflexivity.
    + destruct (nth_error rows i) as [viabilities|] eqn:Hnth.
      1:{ assert (i < length rows)%nat; [|lia].
          apply nth_error_Some. congruence. }
      replace (length rows - i)%nat with 0%nat by lia. cbn [skipn].
      specialize (IH (S i)).
      replace (length rows - S i)%nat with 0%nat in IH by lia.
      cbn [skipn] in IH.
      destruct (c <=? 0) eqn:Hc.
      * destruct IH as [[Hex Hthrow]|[Hno (points & Hnormal)]].
        -- left. split; [now apply Exists_cons_tl|].
           cbn [bindC]. now rewrite Hthrow.
        -- right. split.
           ++ intros Hex. inversion Hex; subst; [congruence|contradiction].
           ++ cbn [bindC]. rewrite Hnormal. eexists; reflexivity.
      * left. split; [now apply Exists_cons_hd|reflexivity].
Qed.


(** ** Plate analyzer: settling and sampling calls *)

Section Settling.
Context `{M : JSMath}.

Lemma wellsOf_rows (ctx : CanvasRenderingContext2D)
    (gridConfig : GridConfig.t) (rowCount colCount : Z)
    (controlNegativePoint controlPositivePoint : Point.t) :
  Forall (fun w => (0 <= WellResult.row w < rowCount)%Z
                   /\ (0 <= WellResult.col w < colCount)%Z)
         (wellsOf ctx gridConfig rowCount colCount controlNegativePoint
                  controlPositivePoint).
Proof.
  unfold wellsOf. apply Forall_map, Forall_forall. intros [row col] Hin.
  rewrite analyzeWell_result. cbn [WellResult.row WellResult.col fst snd].
  now apply cells_In.
Qed.


End Settling.


Section Calls.
Context `{M : JSMath}.

Lemma calls_getPixelData (ctx : CanvasRenderingContext2D) (x y radius : number) :
  calls (getPixelData ctx x y radius) = [sampleRequest x y radius].
Proof.
  unfold getPixelData, sampleRequest; cbv zeta.
  now destruct (getImageData ctx _ _ _ _).
Qed.

Lemma calls_forEach {A} (indices : list Z) (body : Z -> Sampling (list A)) :
  calls (forEach indices body) = flat_map (fun i => calls (body i)) indices.
Proof.
  induction indices as [|i rest IH]; simpl; [reflexivity|].
  rewrite !calls_bind. simpl. now rewrite IH, app_nil_r.
Qed.

Lemma calls_analyzeWell (ctx : CanvasRenderingContext2D)
    (gridConfig : GridConfig.t) (radius : number) (cal : Calibration)
    (row col : Z) :
  calls (analyzeWell ctx gridConfig radius cal row col)
  = [sampleRequest (Point.x (wellCenter gridConfig row col))
                   (Point.y (wellCenter gridConfig row col)) radius].
Proof.
  unfold analyzeWell; cbv zeta. rewrite calls_bind, calls_getPixelData.
  destruct (measure cal _ _). reflexivity.
Qed.

Lemma calls_wells (ctx : CanvasRenderingContext2D)
    (gridConfig : GridConfig.t) (radius : number) (cal : Calibration)
    (rowCount colCount : Z) :
  calls (forEach (zrange rowCount) (fun row =>
           forEach (zrange colCount) (fun col =>
             well <- analyzeWell ctx gridConfig radius cal row col ;;
             ret [well])))
  = map (fun cell =>
           sampleRequest (Point.x (wellCenter gridConfig (fst cell) (snd cell)))
                         (Point.y (wellCenter gridConfig (fst cell) (snd cell)))
                         radius)
        (cells rowCount colCount).
Proof.
  rewrite calls_forEach.
  etransitivity;
    [|apply (flat_map_cells
               (fun row col =>
                  sampleRequest (Point.x (wellCenter gridConfig row col))
                                (Point.y (wellCenter gridConfig row col))
                                radius))].
  apply flat_map_ext. intros row. rewrite calls_forEach.
  apply flat_map_ext. intros col.
  rewrite calls_bind, calls_analyzeWell. reflexivity.
Qed.

(** X4.  With a valid radius the analyzer calls [getImageData] once for each
    reference point and then, unless a reference sample is empty, once for
    each well in row-major order, each time with the request of
    [getPixelData] at the same radius. *)
Theorem processWellPlate_calls (ctx : CanvasRenderingContext2D)
    (gridConfig : GridConfig.t) (rowCount colCount : Z)
    (controlNegativePoint controlPositivePoint : Point.t)
    (rowConcentrations : list number) (concentrationUnits : String.string) :
  (wellRadius gridConfig === 0) = false ->
  isFinite (wellRadius gridConfig) = true ->
  let radius := wellRadius gridConfig in
  let requestAt p := sampleRequest (Point.x p) (Point.y p) radius in
  calls (processWellPlate (onload (Some ctx)) gridConfig rowCount colCount
           controlNegativePoint controlPositivePoint rowConcentrations
           concentrationUnits)
  = requestAt controlNegativePoint :: requestAt controlPositivePoint
    :: (if Nat.eqb (length (sampleAt ctx gridConfig controlNegativePoint)) 0
           || Nat.eqb (length (sampleAt ctx gridConfig controlPositivePoint)) 0
        then []
        else map (fun cell => requestAt (wellCenter gridConfig (fst cell)
                                                    (snd cell)))
                 (cells rowCount colCount)).
Proof.
  intros Hnz Hfin radius requestAt.
  unfold processWellPlate; cbv zeta. fold (wellRadius gridConfig).
  rewrite Hnz, Hfin. cbn [orb negb].
  rewrite !calls_bind, !calls_getPixelData.
  fold (sampleAt ctx gridConfig controlNegativePoint).
  fold (sampleAt ctx gridConfig controlPositivePoint).
  cbn [app]. do 2 f_equal.
  destruct (Nat.eqb (length (sampleAt ctx gridConfig controlNegativePoint)) 0
            || Nat.eqb (length (sampleAt ctx gridConfig controlPositivePoint)) 0);
    [reflexivity|].
  rewrite calls_bind, calls_wells.
  match goal with
  | |- _ ++ calls ?m = _ => replace (calls m) with (@nil Call)
  end.
  2:{ now destruct (calculateIC50 _ _ _ _). }
  apply app_nil_r.
Qed.

(** X5.  On a canvas that cannot be read, an analysis with a valid radius is
    rejected for missing reference colours after two [getImageData] calls.
    *)
Theorem processWellPlate_unreadable_canvas (c : Canvas)
    (gridConfig : GridConfig.t) (rowCount colCount : Z)
    (controlNegativePoint controlPositivePoint : Point.t)
    (rowConcentrations : list number) (concentrationUnits : String.string) :
  originClean c = false ->
  (wellRadius gridConfig === 0) = false ->
  isFinite (wellRadius gridConfig) = true ->
  let run :=
    processWellPlate (onload (Some (canvasContext c))) gridConfig rowCount
      colCount controlNegativePoint controlPositivePoint rowConcentrations
      concentrationUnits in
  result run = Rejected (Error NO_REFERENCE) /\ length (calls run) = 2%nat.
Proof.
  intros Htainted Hnz Hfin run.
  assert (Hempty : forall p, sampleAt (canvasContext c) gridConfig p = []).
  { intros p. unfold sampleAt, getPixelData; cbv zeta.
    cbn [getImageData canvasContext sx sy sw sh].
    unfold canvas_getImageData. rewrite Htainted.
    now destruct (_ || _). }
  split.
  - apply processWellPlate_no_reference; auto.
  - unfold run, processWellPlate; cbv zeta. fold (wellRadius gridConfig).
    rewrite Hnz, Hfin. cbn [orb negb].
    rewrite !calls_bind, !calls_getPixelData.
    fold (sampleAt (canvasContext c) gridConfig controlNegativePoint).
    fold (sampleAt (canvasContext c) gridConfig controlPositivePoint).
    now rewrite !Hempty.
Qed.

End Calls.

Section RadiusRejection.
Context `{M : JSMath}.

(** X6.  Once the image has loaded and a context exists, the analysis is
    rejected with the radius error exactly when the radius computed from the
    grid is zero or not finite, and then no [getImageData] call has been
    made. *)
Theorem processWellPlate_radius_rejection (ctx : CanvasRenderingContext2D)
    (gridConfig : GridConfig.t) (rowCount colCount : Z)
    (controlNegativePoint controlPositivePoint : Point.t)
    (rowConcentrations : list number) (concentrationUnits : String.string) :
  let run :=
    processWellPlate (onload (Some ctx)) gridConfig rowCount colCount
      controlNegativePoint controlPositivePoint rowConcentrations
      concentrationUnits in
  (result run = Rejected (Error BAD_RADIUS)
   <-> (wellRadius gridConfig === 0) = true
       \/ isFinite (wellRadius gridConfig) = false)
  /\ (result run = Rejected (Error BAD_RADIUS) -> calls run = []).
Proof.
  intros run.
  assert (Hiff : result run = Rejected (Error BAD_RADIUS)
                 <-> (wellRadius gridConfig === 0) = true
                     \/ isFinite (wellRadius gridConfig) = false).
  { split.
    - unfold run. rewrite processWellPlate_onload.
      destruct (wellRadius gridConfig === 0); [now left|].
      destruct (isFinite (wellRadius gridConfig)); [|now right].
      cbn [orb negb].
      destruct (_ || _); [discriminate|].
      cbv zeta. destruct (calculateIC50 _ _ _ _); discriminate.
    - intros Hbad. unfold run.
      now rewrite (processWellPlate_bad_radius _ _ _ _ _ _ _ _ Hbad). }
  split; [exact Hiff|].
  intros Hrej. apply Hiff in Hrej. unfold run.
  now rewrite (processWellPlate_bad_radius _ _ _ _ _ _ _ _ Hrej).
Qed.

End RadiusRejection.

Lemma processWellPlate_calls_witness :
  calls (columnRun [Fin 1; Fin 10])
  = [sampleRequest 2 2 (wellRadius columnGrid);
     sampleRequest 2 6 (wellRadius columnGrid);
     sampleRequest 2 2 (wellRadius columnGrid);
     sampleRequest 2 6 (wellRadius columnGrid)].
Proof.
  pose proof (processWellPlate_calls (M := rationalMath)
                (canvasContext gradientCanvas) columnGrid 2 1
                (Point.mk 2 2) (Point.mk 2 6) [Fin 1; Fin 10] "nM"
                ltac:(vm_compute; reflexivity) ltac:(vm_compute; reflexivity))
    as Hcalls.
  rewrite Hcalls. vm_compute. reflexivity.
Defined.

Lemma processWellPlate_unreadable_canvas_witness :
  result (processWellPlate (onload (Some (canvasContext taintedCanvas)))
            columnGrid 2 1 (Point.mk 2 2) (Point.mk 2 6) [Fin 1; Fin 10] "nM")
  = Rejected (Error NO_REFERENCE).
Proof.
  refine (proj1 (processWellPlate_unreadable_canvas (M := rationalMath)
                   taintedCanvas columnGrid 2 1 (Point.mk 2 2) (Point.mk 2 6)
                   [Fin 1; Fin 10] "nM" _ _ _)).
  - reflexivity.
  - vm_compute. reflexivity.
  - vm_compute. reflexivity.
Defined.

(** ** Plate analyzer on a readable canvas *)

Section Readable.
Context `{M : JSMath}.
Hypothesis Hsqrt : sqrt_exact M.

Lemma getPixelData_canvas_nonempty (c : Canvas) (x y radius : Q) :
  originClean c = true ->
  (roundedRadius radius < 2 ^ 30)%Z ->
  (- 2 ^ 31 <= windowLeft x radius < 2 ^ 31)%Z ->
  (- 2 ^ 31 <= windowLeft y radius < 2 ^ 31)%Z ->
  result (getPixelData (canvasContext c) (Fin x) (Fin y) (Fin radius)) <> [].
Proof.
  intros Hclean Hr Hleft Htop.
  rewrite (getPixelData_canvas Hsqrt c x y radius Hclean Hr Hleft Htop).
  cbn [result fst].
  set (r := roundedRadius radius).
  assert (Hr1 : (1 <= r)%Z) by (unfold r, roundedRadius; lia).
  assert (Hin : In (r, r)
                   (filter (fun cell => inDisk r (snd cell) (fst cell))
                           (cells (2 * r) (2 * r)))).
  { apply filter_In. split; [apply cells_In; lia|].
    unfold inDisk; cbn [fst snd]. apply Z.leb_le. nia. }
  intros Hnil.
  apply (in_map (fun cell =>
           rgbOf (readPixel c (windowLeft x radius + snd cell)
                              (windowLeft y radius + fst cell)))) in Hin.
  rewrite Hnil in Hin. contradiction.
Qed.


End Readable.


(** ** Colours *)

Lemma clamp_byte `{JSMath} (val : number) :
  finite (clamp val) -> isByte (clamp val).
Proof.
  unfold clamp. destruct val as [q| | |].
  - intros _.
    change (Math_round (Fin q * 255))
      with (of_Z (Qfloor (q * 255 + 0.5))).
    set (k := Qfloor (q * 255 + 0.5)).
    change (Fin 255) with (of_Z 255). change (Fin 0) with (of_Z 0).
    unfold Math_min, Math_max, of_Z, lt.
    destruct (Qlt_bool (inject_Z k) (inject_Z 255)) eqn:E255.
    + destruct (Qlt_bool (inject_Z 0) (inject_Z k)) eqn:E0; qbool.
      * exists k. rewrite <- Zlt_Qlt in E255, E0. split; [lia|reflexivity].
      * exists 0%Z. split; [lia|reflexivity].
    + change (Qlt_bool (inject_Z 0) (inject_Z 255)) with true. cbv iota.
      exists 255%Z. split; [lia|reflexivity].
  - intros [q Hq]. discriminate Hq.
  - intros _. exists 255%Z. split; [lia|reflexivity].
  - intros _. exists 0%Z. split; [lia|reflexivity].
Qed.

Lemma isByte_finite (x : number) : isByte x -> finite x.
Proof. intros (z & _ & ->). apply finite_of_Z. Qed.

Section Bytes.
Context `{M : JSMath}.
Hypothesis Hpow : powf_finite M.

(** X8.  The representative colour of a sample of byte-valued pixels is
    byte-valued: each channel is an integer between 0 and 255. *)
Theorem getRobustAverageColor_bytes (pixels : list RGB.t) :
  Forall byteRGB pixels -> byteRGB (getRobustAverageColor pixels).
Proof.
  intros Hall.
  assert (Hfin : finiteRGB (getRobustAverageColor pixels)).
  { apply (getRobustAverageColor_finite Hpow).
    eapply Forall_impl; [|exact Hall].
    intros c (Hr & Hg & Hb). repeat split; now apply isByte_finite. }
  destruct pixels as [|p [|q rest]].
  - repeat split; exists 0%Z; (split; [lia|reflexivity]).
  - now inversion Hall.
  - revert Hfin.
    set (pixels := p :: q :: rest).
    change (getRobustAverageColor pixels)
      with (labToRgb
              (Lab.mk
                 (median_of_sorted
                    (sort (fun a b => a - b) (map Lab.l (map rgbToLab pixels))))
                 (median_of_sorted
                    (sort (fun a b => a - b) (map Lab.a (map rgbToLab pixels))))
                 (median_of_sorted
                    (sort (fun a b => a - b) (map Lab.b (map rgbToLab pixels)))))).
    unfold labToRgb; cbv zeta. unfold finiteRGB, byteRGB.
    cbn [RGB.r RGB.g RGB.b].
    intros (Hr & Hg & Hb). repeat split; now apply clamp_byte.
Qed.

End Bytes.

Lemma getRobustAverageColor_bytes_witness :
  byteRGB (getRobustAverageColor (H := rationalMath)
             [RGB.mk 0 20 7; RGB.mk 40 60 7; RGB.mk 250 255 0]).
Proof.
  apply (getRobustAverageColor_bytes rational_powf_finite).
  repeat constructor;
    (eexists; split; [|unfold of_Z; cbn [RGB.r RGB.g RGB.b]; reflexivity]; lia).
Defined.

(** ** Robustness of the median *)

Lemma finite_list (values : list number) :
  Forall finite values -> exists qs, values = map Fin qs.
Proof.
  induction 1 as [|x rest [q ->] _ [qs ->]].
  - now exists [].
  - now exists (q :: qs).
Qed.

Lemma Sorted_Fin (qs : list Q) :
  Sorted (inOrder (fun a b => a - b)) (map Fin qs) -> StronglySorted Qle qs.
Proof.
  intros Hs. apply Sorted_StronglySorted.
  { intros a b c. apply Qle_trans. }
  induction qs as [|a rest IH]; [constructor|].
  cbn [map] in Hs. apply Sorted_inv in Hs as [Hrest Hhd].
  constructor; [now apply IH|].
  destruct rest as [|b rest']; [constructor|].
  constructor. apply HdRel_inv in Hhd. now apply inOrder_sub_Fin.
Qed.

Lemma StronglySorted_split (l1 l2 : list Q) (x : Q) :
  StronglySorted Qle (l1 ++ x :: l2) ->
  Forall (fun y => (y <= x)%Q) l1 /\ Forall (fun y => (x <= y)%Q) l2.
Proof.
  induction l1 as [|a rest IH]; cbn [app]; intros Hs;
    apply StronglySorted_inv in Hs as [Hrest Hall].
  - split; [constructor|assumption].
  - destruct (IH Hrest) as [Hl Hr]. split; [|assumption].
    constructor; [|assumption].
    rewrite Forall_forall in Hall. apply Hall.
    apply in_or_app. right. now left.
Qed.

Lemma occurrences_none (q : Q) (qs : list Q) :
  Forall (fun y => ~ (y == q)%Q) qs -> occurrences q qs = 0%nat.
Proof.
  unfold occurrences. induction 1 as [|y rest Hy _ IH]; [reflexivity|].
  cbn [filter]. apply Qeq_bool_false in Hy. now rewrite Hy.
Qed.

Lemma occurrences_app (q : Q) (l1 l2 : list Q) :
  occurrences q (l1 ++ l2) = (occurrences q l1 + occurrences q l2)%nat.
Proof. unfold occurrences. now rewrite filter_app, length_app. Qed.

Lemma occurrences_le (q : Q) (qs : list Q) :
  (occurrences q qs <= length qs)%nat.
Proof. apply filter_length_le. Qed.

Lemma occurrences_middle (q : Q) (qs : list Q) (k : nat) :
  StronglySorted Qle qs -> (k < length qs)%nat ->
  (length qs - occurrences q qs <= k)%nat -> (k < occurrences q qs)%nat ->
  (nth k qs 0 == q)%Q.
Proof.
  intros Hs Hk Hlow Hhigh.
  destruct (nth_split qs 0%Q Hk) as (l1 & l2 & Hqs & Hl1).
  set (x := nth k qs 0%Q) in *.
  assert (Hlen : length qs = (k + S (length l2))%nat).
  { rewrite Hqs at 1. rewrite length_app. cbn [length]. lia. }
  rewrite Hqs in Hs. apply StronglySorted_split in Hs as [Hbefore Hafter].
  assert (Hcount : occurrences q qs
                   = (occurrences q l1 + occurrences q (x :: l2))%nat).
  { rewrite Hqs at 1. apply occurrences_app. }
  destruct (Q_dec x q) as [[Hlt|Hgt]|Heq]; [| |exact Heq]; exfalso.
  - assert (H1 : occurrences q l1 = 0%nat).
    { apply occurrences_none. eapply Forall_impl; [|exact Hbefore].
      intros y Hy Hyq. cbv beta in Hy. lra. }
    assert (H2 : occurrences q (x :: l2) = occurrences q l2).
    { unfold occurrences. cbn [filter].
      replace (Qeq_bool x q) with false; [reflexivity|].
      symmetry. apply Qeq_bool_false. lra. }
    pose proof (occurrences_le q l2). lia.
  - assert (H2 : occurrences q (x :: l2) = 0%nat).
    { apply occurrences_none. constructor; [lra|].
      eapply Forall_impl; [|exact Hafter].
      intros y Hy Hyq. cbv beta in Hy. lra. }
    pose proof (occurrences_le q l1). lia.
Qed.

Lemma Permutation_filter_length {A} (f : A -> bool) (l l' : list A) :
  Permutation l l' -> length (filter f l) = length (filter f l').
Proof.
  induction 1 as [|a l l' _ IH|a b l|l l' l'' _ IH1 _ IH2].
  - reflexivity.
  - cbn [filter]. destruct (f a); cbn [length]; now rewrite IH.
  - cbn [filter]. destruct (f a), (f b); reflexivity.
  - now rewrite IH1.
Qed.

Lemma occurrences_majority (q : Q) (qs : list Q) (others : list number)
    (m : nat) :
  Permutation (map Fin qs) (repeat (Fin q) m ++ others) ->
  (m <= occurrences q qs)%nat /\ length qs = (m + length others)%nat.
Proof.
  intros Hperm. split.
  - apply (Permutation_filter_length (fun x => x === Fin q)) in Hperm.
    rewrite filter_app, length_app in Hperm.
    assert (Hrep : length (filter (fun x => x === Fin q) (repeat (Fin q) m)) = m).
    { clear. induction m as [|m IH]; [reflexivity|].
      cbn [repeat filter strict_eq]. rewrite Qeq_bool_refl.
      cbn [length]. now rewrite IH. }
    assert (Hqs : length (filter (fun x => x === Fin q) (map Fin qs))
                  = occurrences q qs).
    { unfold occurrences. clear. induction qs as [|x rest IH]; [reflexivity|].
      cbn [map filter strict_eq].
      destruct (Qeq_bool x q); cbn [length]; now rewrite IH. }
    lia.
  - apply Permutation_length in Hperm.
    now rewrite length_map, length_app, repeat_length in Hperm.
Qed.

(** When more than half of the values are the same number, the median of
    the sorted values is that number. *)
Lemma median_majority (values others : list number) (q : Q) (m : nat) :
  Permutation values (repeat (Fin q) m ++ others) ->
  Forall finite others -> (length others < m)%nat ->
  num_eq (median_of_sorted (sort (fun a b => a - b) values)) (Fin q).
Proof.
  intros Hperm Hothers Hm.
  set (sorted := sort (fun a b => a - b) values).
  assert (Hsp : Permutation sorted (repeat (Fin q) m ++ others)).
  { transitivity values; [apply sort_perm|exact Hperm]. }
  assert (Hfin : Forall finite sorted).
  { eapply Permutation_Forall; [symmetry; exact Hsp|].
    apply Forall_app. split; [|exact Hothers].
    apply Forall_forall. intros x Hx. apply repeat_spec in Hx. subst.
    apply finite_Fin. }
  destruct (finite_list sorted Hfin) as (qs & Hqs).
  assert (Hsorted : StronglySorted Qle qs).
  { apply Sorted_Fin. rewrite <- Hqs. apply sort_sorted.
    intros a b. apply sub_antisym. }
  rewrite Hqs in Hsp. destruct (occurrences_majority q qs others m Hsp)
    as [Hocc Hlen].
  assert (Hnth : forall k, (k < length qs)%nat ->
                           at_index sorted k = Fin (nth k qs 0%Q)).
  { intros k Hk. unfold at_index. rewrite Hqs.
    rewrite (nth_indep _ NaN (Fin 0%Q)) by now rewrite length_map.
    apply map_nth. }
  assert (Hdiv : (length qs / 2 < length qs)%nat)
    by (apply Nat.div_lt; lia).
  pose proof (Nat.div_mod_eq (length qs) 2) as Hdm.
  assert (Hmod : (length qs mod 2 < 2)%nat) by (apply Nat.mod_upper_bound; lia).
  unfold median_of_sorted. fold sorted.
  replace (length sorted) with (length qs) by now rewrite Hqs, length_map.
  destruct (Nat.eqb_spec (length qs mod 2) 0) as [Heven|Hodd].
  - rewrite !Hnth by lia.
    assert (H1 : (nth (length qs / 2 - 1) qs 0 == q)%Q)
      by (apply occurrences_middle; try assumption; lia).
    assert (H2 : (nth (length qs / 2) qs 0 == q)%Q)
      by (apply occurrences_middle; try assumption; lia).
    unfold add, div. change (Qeq_bool 2 0) with false. cbv iota.
    unfold num_eq. rewrite H1, H2. field.
  - rewrite Hnth by lia. unfold num_eq.
    apply occurrences_middle; try assumption; lia.
Qed.

Section Majority.
Context `{M : JSMath}.
Hypothesis Hpow : powf_finite M.

(** X9.  When more than half of the pixels of a sample have one and the same
    colour, whatever the other pixels are (glare, shadow), the Lab colour
    that [getRobustAverageColor] converts back to RGB is numerically the Lab
    colour of that majority colour. *)
Theorem getRobustAverageColor_majority (pixels others : list RGB.t)
    (p : RGB.t) (m : nat) :
  finiteRGB p -> Forall finiteRGB others ->
  Permutation pixels (repeat p m ++ others) ->
  (length others < m)%nat -> (2 <= length pixels)%nat ->
  exists lab,
    getRobustAverageColor pixels = labToRgb lab
    /\ num_eq (Lab.l lab) (Lab.l (rgbToLab p))
    /\ num_eq (Lab.a lab) (Lab.a (rgbToLab p))
    /\ num_eq (Lab.b lab) (Lab.b (rgbToLab p)).
Proof.
  intros Hp Hothers Hperm Hm Hlen.
  destruct (rgbToLab_finite Hpow _ Hp) as ([l0 Hl0] & [a0 Ha0] & [b0 Hb0]).
  assert (Hlab : Forall finiteLab (map rgbToLab others)).
  { apply Forall_map. eapply Forall_impl; [|exact Hothers].
    intros c Hc. now apply rgbToLab_finite. }
  assert (Hchannel : forall (f : Lab.t -> number) (q : Q),
             f (rgbToLab p) = Fin q ->
             (forall c, finiteLab c -> finite (f c)) ->
             num_eq (median_of_sorted
                       (sort (fun a b => a - b) (map f (map rgbToLab pixels))))
                    (Fin q)).
  { intros f q Hq Hf.
    apply (median_majority _ (map f (map rgbToLab others)) q m).
    - apply (Permutation_map rgbToLab), (Permutation_map f) in Hperm.
      rewrite !map_app, !map_repeat, Hq in Hperm. exact Hperm.
    - apply Forall_map. eapply Forall_impl; [|exact Hlab].
      intros c Hc. now apply Hf.
    - now rewrite !length_map. }
  destruct pixels as [|p1 [|p2 rest]]; cbn [length] in Hlen; try lia.
  eexists. split; [reflexivity|]. cbn [Lab.l Lab.a Lab.b].
  rewrite Hl0, Ha0, Hb0. repeat split.
  - apply Hchannel; [assumption|]. intros c Hc. apply Hc.
  - apply Hchannel; [assumption|]. intros c Hc. apply Hc.
  - apply Hchannel; [assumption|]. intros c Hc. apply Hc.
Qed.

End Majority.

(** Three pixels of one colour and two outliers. *)
Lemma getRobustAverageColor_majority_witness :
  exists lab,
    getRobustAverageColor (H := rationalMath)
      [RGB.mk 255 255 255; RGB.mk 40 60 7; RGB.mk 40 60 7; RGB.mk 0 0 0;
       RGB.mk 40 60 7]
    = labToRgb lab
    /\ num_eq (Lab.l lab) (Lab.l (rgbToLab (RGB.mk 40 60 7)))
    /\ num_eq (Lab.a lab) (Lab.a (rgbToLab (RGB.mk 40 60 7)))
    /\ num_eq (Lab.b lab) (Lab.b (rgbToLab (RGB.mk 40 60 7))).
Proof.
  apply (getRobustAverageColor_majority rational_powf_finite _
           [RGB.mk 255 255 255; RGB.mk 0 0 0] (RGB.mk 40 60 7) 3).
  - repeat split; apply finite_Fin.
  - repeat constructor; apply finite_Fin.
  - cbn [repeat app].
    apply Permutation_trans
      with (RGB.mk 40 60 7 :: RGB.mk 255 255 255 :: RGB.mk 40 60 7
            :: RGB.mk 0 0 0 :: [RGB.mk 40 60 7]); [apply perm_swap|].
    apply perm_skip.
    apply Permutation_trans
      with (RGB.mk 40 60 7 :: RGB.mk 255 255 255 :: RGB.mk 0 0 0
            :: [RGB.mk 40 60 7]); [apply perm_swap|].
    apply perm_skip.
    apply Permutation_trans
      with (RGB.mk 255 255 255 :: RGB.mk 40 60 7 :: [RGB.mk 0 0 0]);
      [apply perm_skip, perm_swap|]. 
    apply Permutation_trans
      with (RGB.mk 40 60 7 :: RGB.mk 255 255 255 :: [RGB.mk 0 0 0]);
      [apply perm_swap|]. apply Permutation_refl.
  - simpl. lia.
  - simpl. lia.
Defined.

(** ** Calibration endpoints *)

Lemma Math_pow_2 `{JSMath} (x : number) : Math_pow x 2 = x * x.
Proof. reflexivity. Qed.

Section References.
Context `{M : JSMath}.
Hypothesis Hpow : powf_finite M.

(** X10.  A well whose representative colour is the negative reference
    colour has intensity 0 and viability 0, and one whose colour is the
    positive reference colour has intensity 1 and viability 100, whenever
    the two reference colours are far enough apart for the projection to be
    used. *)
Theorem measure_references (minRefRgb maxRefRgb : RGB.t)
    (pixels : list RGB.t) :
  finiteRGB minRefRgb -> finiteRGB maxRefRgb -> pixels <> [] ->
  let cal := calibrate minRefRgb maxRefRgb in
  (gradientMagSq cal >? 1e-6) = true ->
  measure cal pixels minRefRgb = (Fin 0, Fin 0)
  /\ measure cal pixels maxRefRgb = (Fin 1, Fin 100).
Proof.
  intros Hmin Hmax Hpixels cal Hbig.
  destruct (rgbToLab_finite Hpow _ Hmin) as ([l0 Hl0] & [a0 Ha0] & [b0 Hb0]).
  destruct (rgbToLab_finite Hpow _ Hmax) as ([l1 Hl1] & [a1 Ha1] & [b1 Hb1]).
  assert (Hlen : Nat.ltb 0 (length pixels) = true).
  { destruct pixels; [contradiction|reflexivity]. }
  unfold measure. rewrite Hlen, Hbig. cbn [andb].
  revert Hbig. unfold cal, project, calibrate; cbv zeta.
  cbn [labMin gradientVector gradientMagSq Lab.l Lab.a Lab.b].
  rewrite !Math_pow_2, Hl0, Ha0, Hb0, Hl1, Ha1, Hb1.
  unfold gt, sub, neg, add, mul, lt. intros Hbig. qbool.
  set (m := ((l1 + - l0) * (l1 + - l0) + (a1 + - a0) * (a1 + - a0)
             + (b1 + - b0) * (b1 + - b0))%Q) in *.
  assert (Hpos : (0 < m)%Q).
  { apply Qlt_trans with (2 := Hbig). reflexivity. }
  clearbody m.
  assert (Hm : Qeq_bool m 0 = false) by (qbool; lra).
  unfold div. rewrite Hm. split.
  - set (d := ((l0 + - l0) * (l1 + - l0) + (a0 + - a0) * (a1 + - a0)
               + (b0 + - b0) * (b1 + - b0))%Q).
    assert (Hd : (d / m == 0)%Q).
    { unfold d. field. lra. }
    unfold Math_min, Math_max, lt.
    replace (Qlt_bool (d / m) 1) with true by (symmetry; qbool; lra).
    replace (Qlt_bool 0 (d / m)) with false by (symmetry; qbool; lra).
    reflexivity.
  - assert (Hd : (m / m == 1)%Q) by (field; lra).
    unfold Math_min, Math_max, lt.
    replace (Qlt_bool (m / m) 1) with false by (symmetry; qbool; lra).
    reflexivity.
Qed.

End References.

Lemma measure_references_witness :
  let cal := calibrate (H := rationalMath) (RGB.mk 0 0 0) (RGB.mk 255 255 255) in
  measure cal [RGB.mk 0 0 0] (RGB.mk 0 0 0) = (Fin 0, Fin 0)
  /\ measure cal [RGB.mk 0 0 0] (RGB.mk 255 255 255) = (Fin 1, Fin 100).
Proof.
  apply (measure_references rational_powf_finite).
  - repeat split; apply finite_Fin.
  - repeat split; apply finite_Fin.
  - discriminate.
  - vm_compute. reflexivity.
Defined.

(** ** Plate selection *)

Lemma inject_Z_pred (n : Z) : (inject_Z (n - 1) == inject_Z n + Qopp 1)%Q.
Proof.
  unfold Z.sub. rewrite inject_Z_plus. reflexivity.
Qed.





Section AnalyzeFacts.
Variable parseFloat : String.string -> number.

Lemma orElse_positive (p : number) :
  (orElse p 0 >? 0) = negb (isNaN p) && (p >? 0).
Proof.
  unfold orElse, strict_eq, gt, lt. destruct p as [q| | |]; cbn [isNaN orb negb andb];
    try reflexivity.
  destruct (Qeq_bool q 0) eqn:E; [|reflexivity].
  qbool. symmetry. change (Qlt_bool 0 0) with false.
  apply Qlt_bool_false. lra.
Qed.

Lemma positiveCount_numeric (rowConcentrations : list String.string) :
  positiveCount (numericConcentrations parseFloat rowConcentrations)
  = length (parsedConcentrations parseFloat rowConcentrations).
Proof.
  unfold positiveCount, numericConcentrations, parsedConcentrations.
  induction rowConcentrations as [|c rest IH]; [reflexivity|].
  cbn [map filter]. rewrite orElse_positive.
  destruct (negb (isNaN (parseFloat c)) && (parseFloat c >? 0));
    cbn [length]; now rewrite IH.
Qed.

(** X13.  Whenever the Analyze button starts an analysis, the concentrations
    it passes on are one number per entered string, none of them [NaN], at
    least two of them positive, and the counts are passed unchanged: the
    first test of [calculateIC50] cannot fail on them. *)
Theorem handleAnalyze_request (imageRef : option HTMLImageElement)
    (gridConfig : option GridConfig.t)
    (controlNegative controlPositive : option Point.t)
    (rowCount colCount : Z) (rowConcentrations : list String.string)
    (concentrationUnits displayImageUrl : String.string)
    (request : AnalysisRequest.t) :
  handleAnalyze parseFloat imageRef gridConfig controlNegative controlPositive
    rowCount colCount rowConcentrations concentrationUnits displayImageUrl
  = OnAnalysisComplete request ->
  length (AnalysisRequest.rowConcentrations request) = length rowConcentrations
  /\ Forall (fun c => isNaN c = false)
            (AnalysisRequest.rowConcentrations request)
  /\ (2 <= positiveCount (AnalysisRequest.rowConcentrations request))%nat
  /\ AnalysisRequest.rowCount request = rowCount
  /\ AnalysisRequest.colCount request = colCount.
Proof.
  unfold handleAnalyze.
  destruct gridConfig as [g|]; [|discriminate].
  destruct controlNegative as [n|]; [|discriminate].
  destruct controlPositive as [p|]; [|discriminate].
  destruct (Nat.ltb_spec (length (parsedConcentrations parseFloat
                                    rowConcentrations)) 2) as [|Hmany];
    [discriminate|].
  intros [= <-]. cbn [AnalysisRequest.rowConcentrations AnalysisRequest.rowCount
                      AnalysisRequest.colCount].
  repeat split.
  - apply length_map.
  - unfold numericConcentrations. apply Forall_map, Forall_forall.
    intros c _. unfold orElse.
    destruct (parseFloat c) as [q| | |]; try reflexivity.
    cbn [isNaN orb]. now destruct (Fin q === 0).
  - now rewrite positiveCount_numeric.
Qed.

End AnalyzeFacts.

Lemma handleAnalyze_request_witness :
  (2 <= positiveCount
          (numericConcentrations exampleParseFloat ["1"; ""; "10"]%string))%nat.
Proof.
  refine (proj1 (proj2 (proj2
            (handleAnalyze_request exampleParseFloat None (Some columnGrid)
               (Some (Point.mk 2 2)) (Some (Point.mk 2 6)) 3 1
               ["1"; ""; "10"]%string "nM"%string ""%string _ eq_refl)))).
Defined.

(** ** Crop rectangle *)

(** One axis of [fittedRect], after the size has been made positive. *)
Lemma fit_axis (x w W : Q) :
  (0 <= w)%Q -> (0 <= W)%Q ->
  exists a b,
    Math_max 0 (Math_min (Fin x) (Fin W - Fin w)) = Fin a
    /\ Math_min (Fin w) (Fin W - Fin a) = Fin b
    /\ (0 <= a)%Q /\ (0 <= b)%Q /\ (a + b <= W)%Q
    /\ ((w <= W)%Q -> b = w).
Proof.
  intros Hw HW. unfold Math_max, Math_min, sub, neg, add, lt.
  destruct (Qlt_bool (W + - w) x) eqn:E1.
  - destruct (Qlt_bool 0 (W + - w)) eqn:E2.
    + exists (W + - w)%Q.
      destruct (Qlt_bool (W + - (W + - w)) w) eqn:E3; qbool.
      * exfalso. lra.
      * exists w. repeat split; try reflexivity; lra.
    + exists 0%Q.
      destruct (Qlt_bool (W + - 0) w) eqn:E3; qbool.
      * exists (W + - 0)%Q. repeat split; try reflexivity; lra.
      * exists w. repeat split; try reflexivity; lra.
  - destruct (Qlt_bool 0 x) eqn:E2.
    + exists x.
      destruct (Qlt_bool (W + - x) w) eqn:E3; qbool.
      * exfalso. lra.
      * exists w. repeat split; try reflexivity; lra.
    + exists 0%Q.
      destruct (Qlt_bool (W + - 0) w) eqn:E3; qbool.
      * exists (W + - 0)%Q. repeat split; try reflexivity; lra.
      * exists w. repeat split; try reflexivity; lra.
Qed.

Lemma fittedRect_inside (x y w h : Q) (image : HTMLImageElement) (W H : Q) :
  offsetWidth image = Fin W -> offsetHeight image = Fin H ->
  (0 <= W)%Q -> (0 <= H)%Q ->
  exists a b c d,
    fittedRect (CropRect.mk (Fin x) (Fin y) (Fin w) (Fin h)) image
    = CropRect.mk (Fin a) (Fin b) (Fin c) (Fin d)
    /\ (0 <= a)%Q /\ (0 <= c)%Q /\ (a + c <= W)%Q
    /\ (0 <= b)%Q /\ (0 <= d)%Q /\ (b + d <= H)%Q
    /\ ((0 <= w)%Q -> (w <= W)%Q -> c = w)
    /\ ((0 <= h)%Q -> (h <= H)%Q -> d = h).
Proof.
  intros HoW HoH HW HH. unfold fittedRect; cbv zeta. rewrite HoW, HoH.
  cbn [CropRect.x CropRect.y CropRect.width CropRect.height].
  change (Fin w <? 0) with (Qlt_bool w 0).
  destruct (Qlt_bool w 0) eqn:Ew;
    cbn [CropRect.x CropRect.y CropRect.width CropRect.height];
    change (Fin h <? 0) with (Qlt_bool h 0);
    (destruct (Qlt_bool h 0) eqn:Eh;
     cbn [CropRect.x CropRect.y CropRect.width CropRect.height]);
    qbool; cbn [Math_abs add].
  - destruct (fit_axis (x + w) (Qabs w) W) as (a & c & -> & -> & Ha);
      [apply Qabs_nonneg|assumption|].
    destruct (fit_axis (y + h) (Qabs h) H) as (b & d & -> & -> & Hb);
      [apply Qabs_nonneg|assumption|].
    exists a, b, c, d. repeat split; try tauto; intros; exfalso; lra.
  - destruct (fit_axis (x + w) (Qabs w) W) as (a & c & -> & -> & Ha);
      [apply Qabs_nonneg|assumption|].
    destruct (fit_axis y h H) as (b & d & -> & -> & Hb);
      [assumption|assumption|].
    exists a, b, c, d. repeat split; try tauto; intros; exfalso; lra.
  - destruct (fit_axis x w W) as (a & c & -> & -> & Ha);
      [assumption|assumption|].
    destruct (fit_axis (y + h) (Qabs h) H) as (b & d & -> & -> & Hb);
      [apply Qabs_nonneg|assumption|].
    exists a, b, c, d. repeat split; try tauto; intros; exfalso; lra.
  - destruct (fit_axis x w W) as (a & c & -> & -> & Ha);
      [assumption|assumption|].
    destruct (fit_axis y h H) as (b & d & -> & -> & Hb);
      [assumption|assumption|].
    exists a, b, c, d. repeat split; tauto.
Qed.

Lemma draggedRect_finite (cropInteraction : CropInteraction.t)
    (initialRect : option CropRect.t) (coords : Point.t)
    (newRect : CropRect.t) :
  match cropInteraction with
  | CropInteraction.move startX startY
  | CropInteraction.resize _ startX startY
  | CropInteraction.draw startX startY =>
      finite startX /\ finite startY
  end ->
  match initialRect with Some rect => finiteRect rect | None => True end ->
  finitePoint coords ->
  draggedRect cropInteraction initialRect coords = Some newRect ->
  finiteRect newRect.
Proof.
  destruct coords as [cx cy]. intros Hstart Hinit [[cx' Hcx] [cy' Hcy]].
  cbn [Point.x Point.y] in *. subst.
  destruct cropInteraction as [sx sy|handle sx sy|sx sy];
    destruct Hstart as [[sx' ->] [sy' ->]]; cbn [draggedRect].
  - destruct initialRect as [[x y w h]|]; [|discriminate].
    destruct Hinit as ([x' Hx] & [y' Hy] & [w' Hw] & [h' Hh]).
    cbn [CropRect.x CropRect.y CropRect.width CropRect.height] in *. subst.
    intros [= <-]. repeat split; apply finite_Fin.
  - destruct initialRect as [[x y w h]|]; [|discriminate].
    destruct Hinit as ([x' Hx] & [y' Hy] & [w' Hw] & [h' Hh]).
    cbn [CropRect.x CropRect.y CropRect.width CropRect.height] in *. subst.
    cbv zeta. intros [= <-].
    destruct (includes handle "right"), (includes handle "left"),
      (includes handle "bottom"), (includes handle "top");
      repeat split; apply finite_Fin.
  - intros [= <-]. unfold Math_min, lt.
    repeat split; cbn [CropRect.x CropRect.y CropRect.width CropRect.height];
      try apply finite_Fin.
    + destruct (Qlt_bool cx' sx'); apply finite_Fin.
    + destruct (Qlt_bool cy' sy'); apply finite_Fin.
Qed.





(** ** Results view: the viability grid *)

Lemma setAt_length {A} (arr : list A) (i : nat) (v : A) :
  length (setAt arr i v) = length arr.
Proof.
  revert i. induction arr as [|a rest IH]; intros [|i]; simpl; auto.
Qed.

Lemma setAt_nth_error {A} (arr : list A) (i j : nat) (v : A) :
  nth_error (setAt arr i v) j
  = match nth_error arr j with
    | Some a => Some (if Nat.eqb i j then v else a)
    | None => None
    end.
Proof.
  revert i j. induction arr as [|a rest IH]; intros [|i] [|j]; simpl;
    try reflexivity.
  - now destruct (nth_error rest j).
  - apply IH.
Qed.

Lemma setCell_length (grid : list (list number)) (i j : nat) (v : number) :
  map (@length number) (setCell grid i j v) = map (@length number) grid.
Proof.
  revert i. induction grid as [|line rest IH]; intros [|i]; simpl;
    try reflexivity.
  - now rewrite setAt_length.
  - now rewrite IH.
Qed.

Lemma setCell_cellAt (grid : list (list number)) (i j i' j' : nat)
    (v : number) :
  cellAt (setCell grid i j v) i' j'
  = match cellAt grid i' j' with
    | Some a => Some (if Nat.eqb i i' && Nat.eqb j j' then v else a)
    | None => None
    end.
Proof.
  unfold cellAt. revert i i'.
  induction grid as [|line rest IH]; intros [|i] [|i']; simpl;
    try reflexivity.
  - apply setAt_nth_error.
  - destruct (nth_error rest i') as [line'|]; [|reflexivity].
    now destruct (nth_error line' j').
  - destruct (nth_error line j'); reflexivity.
  - apply IH.
Qed.

Lemma fillGrid_cells (rowCount colCount : Z) (results : list WellResult.t) :
  Forall (fun w => (0 <= WellResult.row w)%Z) results ->
  forall grid,
  exists filled,
    fillGrid rowCount colCount results grid = Value filled
    /\ map (@length number) filled = map (@length number) grid
    /\ forall row col,
         (0 <= row < rowCount)%Z -> (0 <= col < colCount)%Z ->
         cellAt filled (Z.to_nat row) (Z.to_nat col)
         = option_map
             (fold_left
                (fun cell well =>
                   if (WellResult.row well =? row)%Z
                      && (WellResult.col well =? col)%Z
                   then WellResult.viability well else cell)
                results)
             (cellAt grid (Z.to_nat row) (Z.to_nat col)).
Proof.
  induction 1 as [|well rest Hrow _ IH]; intros grid.
  - exists grid. repeat split. intros row col _ _. simpl.
    now destruct (cellAt grid _ _).
  - cbn [fillGrid].
    destruct (Z.ltb_spec (WellResult.row well) rowCount) as [Hr|Hr];
      destruct (Z.ltb_spec (WellResult.col well) colCount) as [Hc|Hc];
      cbn [andb].
    + destruct (Z.ltb_spec (WellResult.row well) 0) as [Hneg|_]; [lia|].
      destruct (Z.ltb_spec (WellResult.col well) 0) as [Hcneg|Hcpos].
      * destruct (IH grid) as (filled & -> & Hlen & Hcells).
        exists filled. repeat split; [assumption|].
        intros row col Hrow' Hcol'. rewrite Hcells by assumption.
        cbn [fold_left].
        destruct (Z.eqb_spec (WellResult.col well) col) as [Heq|_]; [lia|].
        now rewrite andb_false_r.
      * destruct (IH (setCell grid (Z.to_nat (WellResult.row well))
                              (Z.to_nat (WellResult.col well))
                              (WellResult.viability well)))
          as (filled & -> & Hlen & Hcells).
        exists filled. repeat split; [now rewrite Hlen, setCell_length|].
        intros row col Hrow' Hcol'. rewrite Hcells by assumption.
        rewrite setCell_cellAt. cbn [fold_left].
        destruct (cellAt grid (Z.to_nat row) (Z.to_nat col));
          [|reflexivity].
        cbn [option_map]. do 2 f_equal.
        destruct (Z.eqb_spec (WellResult.row well) row) as [->|Hne].
        -- rewrite Nat.eqb_refl. cbn [andb].
           destruct (Z.eqb_spec (WellResult.col well) col) as [->|Hne].
           ++ now rewrite Nat.eqb_refl.
           ++ destruct (Nat.eqb_spec (Z.to_nat (WellResult.col well))
                                     (Z.to_nat col)); [lia|reflexivity].
        -- destruct (Nat.eqb_spec (Z.to_nat (WellResult.row well))
                                  (Z.to_nat row)); [lia|reflexivity].
    + destruct (IH grid) as (filled & -> & Hlen & Hcells).
      exists filled. repeat split; [assumption|].
      intros row col Hrow' Hcol'. rewrite Hcells by assumption.
      cbn [fold_left].
      destruct (Z.eqb_spec (WellResult.col well) col) as [Heq|_]; [lia|].
      now rewrite andb_false_r.
    + destruct (IH grid) as (filled & -> & Hlen & Hcells).
      exists filled. repeat split; [assumption|].
      intros row col Hrow' Hcol'. rewrite Hcells by assumption.
      cbn [fold_left].
      destruct (Z.eqb_spec (WellResult.row well) row) as [Heq|_]; [lia|].
      reflexivity.
    + destruct (IH grid) as (filled & -> & Hlen & Hcells).
      exists filled. repeat split; [assumption|].
      intros row col Hrow' Hcol'. rewrite Hcells by assumption.
      cbn [fold_left].
      destruct (Z.eqb_spec (WellResult.row well) row) as [Heq|_]; [lia|].
      reflexivity.
Qed.

Lemma zeroGrid_Value (rowCount colCount : Z) :
  (0 <= rowCount < 2 ^ 32)%Z -> (0 <= colCount < 2 ^ 32)%Z ->
  zeroGrid rowCount colCount
  = Value (repeat (repeat (Fin 0) (Z.to_nat colCount)) (Z.to_nat rowCount)).
Proof.
  intros Hr Hc. unfold zeroGrid, zeroArray.
  destruct (Z.ltb_spec rowCount 0); [lia|].
  destruct (Z.leb_spec (2 ^ 32) rowCount); [lia|].
  destruct (Z.ltb_spec colCount 0); [lia|].
  destruct (Z.leb_spec (2 ^ 32) colCount); [lia|].
  cbn [orb]. destruct (Z.to_nat rowCount) as [|n]; [reflexivity|].
  cbn [repeat]. f_equal. cbn [map]. f_equal.
  induction n as [|n IH]; [reflexivity|]. cbn [repeat map]. now rewrite IH.
Qed.

Lemma cellAt_repeat (line : list number) (n row col : nat) :
  (row < n)%nat -> cellAt (repeat line n) row col = nth_error line col.
Proof.
  intros Hrow. unfold cellAt.
  rewrite (nth_error_nth' _ line) by now rewrite repeat_length.
  now rewrite nth_repeat.
Qed.

(** X16.  For counts that are array lengths and results without a negative
    row, [processResultsIntoGrid] returns a grid of [rowCount] rows of
    [colCount] cells, and the cell at [(row, col)] holds the viability of
    the last result at that position, or 0 when there is none. *)
Theorem processResultsIntoGrid_cells (results : list WellResult.t)
    (rowCount colCount : Z) :
  (0 <= rowCount < 2 ^ 32)%Z -> (0 <= colCount < 2 ^ 32)%Z ->
  Forall (fun w => (0 <= WellResult.row w)%Z) results ->
  exists grid,
    processResultsIntoGrid results rowCount colCount = Value grid
    /\ length grid = Z.to_nat rowCount
    /\ Forall (fun line => length line = Z.to_nat colCount) grid
    /\ forall row col,
         (0 <= row < rowCount)%Z -> (0 <= col < colCount)%Z ->
         cellAt grid (Z.to_nat row) (Z.to_nat col)
         = Some (lastViabilityAt results row col).
Proof.
  intros Hr Hc Hrows. unfold processResultsIntoGrid.
  rewrite zeroGrid_Value by assumption.
  destruct (fillGrid_cells rowCount colCount results Hrows
              (repeat (repeat (Fin 0) (Z.to_nat colCount)) (Z.to_nat rowCount)))
    as (grid & -> & Hlen & Hcells).
  exists grid. split; [reflexivity|].
  assert (Hlens : map (@length number) grid
                  = repeat (Z.to_nat colCount) (Z.to_nat rowCount)).
  { rewrite Hlen. clear. induction (Z.to_nat rowCount) as [|n IH];
      [reflexivity|]. cbn [repeat map]. now rewrite IH, repeat_length. }
  split; [|split].
  - rewrite <- (length_map (@length number)), Hlens. apply repeat_length.
  - apply Forall_forall. intros line Hin.
    apply (in_map (@length number)) in Hin. rewrite Hlens in Hin.
    now apply repeat_spec in Hin.
  - intros row col Hrow Hcol. rewrite Hcells by assumption.
    rewrite cellAt_repeat by lia.
    rewrite (nth_error_nth' _ (Fin 0)) by (rewrite repeat_length; lia).
    rewrite nth_repeat. reflexivity.
Qed.

Lemma processResultsIntoGrid_cells_witness :
  exists grid,
    processResultsIntoGrid doseWells 4 2 = Value grid
    /\ length grid = Z.to_nat 4
    /\ Forall (fun line => length line = Z.to_nat 2) grid
    /\ forall row col,
         (0 <= row < 4)%Z -> (0 <= col < 2)%Z ->
         cellAt grid (Z.to_nat row) (Z.to_nat col)
         = Some (lastViabilityAt doseWells row col).
Proof.
  apply (processResultsIntoGrid_cells doseWells 4 2).
  - lia.
  - lia.
  - repeat constructor; simpl; lia.
Defined.

Lemma lastViabilityAt_cells (f : Z * Z -> WellResult.t) (row col : Z) :
  (forall cell, WellResult.row (f cell) = fst cell
                /\ WellResult.col (f cell) = snd cell) ->
  forall (arr : list (Z * Z)) (start : number),
    fold_left
      (fun cell well =>
         if (WellResult.row well =? row)%Z && (WellResult.col well =? col)%Z
         then WellResult.viability well else cell)
      (map f arr) start
    = if existsb (fun cell => (fst cell =? row)%Z && (snd cell =? col)%Z) arr
      then WellResult.viability (f (row, col)) else start.
Proof.
  intros Hf. induction arr as [|[r c] rest IH]; intros start;
    [reflexivity|].
  cbn [map fold_left existsb fst snd]. rewrite IH.
  destruct (Hf (r, c)) as [-> ->]. cbn [fst snd].
  destruct (Z.eqb_spec r row) as [->|]; cbn [andb orb]; [|reflexivity].
  destruct (Z.eqb_spec c col) as [->|]; cbn [orb]; [|reflexivity].
  now destruct (existsb _ rest).
Qed.

Section GridOfAnalysis.
Context `{M : JSMath}.

(** X17.  The viability grid built from the results of an analysis holds, in
    cell [(row, col)], the viability of well number [row * colCount + col]
    of the results, which is the well of that row and column. *)
Theorem processResultsIntoGrid_of_analysis (ctx : CanvasRenderingContext2D)
    (gridConfig : GridConfig.t) (rowCount colCount : Z)
    (controlNegativePoint controlPositivePoint : Point.t) :
  (0 <= rowCount < 2 ^ 32)%Z -> (0 <= colCount < 2 ^ 32)%Z ->
  let results := wellsOf ctx gridConfig rowCount colCount
                         controlNegativePoint controlPositivePoint in
  exists grid,
    processResultsIntoGrid results rowCount colCount = Value grid
    /\ forall row col,
         (0 <= row < rowCount)%Z -> (0 <= col < colCount)%Z ->
         exists well,
           nth_error results (Z.to_nat (row * colCount + col)) = Some well
           /\ WellResult.row well = row /\ WellResult.col well = col
           /\ cellAt grid (Z.to_nat row) (Z.to_nat col)
              = Some (WellResult.viability well).
Proof.
  intros Hr Hc results.
  unfold processResultsIntoGrid. rewrite zeroGrid_Value by assumption.
  destruct (fillGrid_cells rowCount colCount results)
    with (grid := repeat (repeat (Fin 0) (Z.to_nat colCount))
                         (Z.to_nat rowCount))
    as (grid & -> & _ & Hcells).
  { eapply Forall_impl; [|apply wellsOf_rows]. intros w Hw. simpl in Hw. lia. }
  exists grid. split; [reflexivity|].
  intros row col Hrow Hcol.
  set (f := fun cell : Z * Z =>
              result (analyzeWell ctx gridConfig (wellRadius gridConfig)
                        (referenceCalibration ctx gridConfig
                           controlNegativePoint controlPositivePoint)
                        (fst cell) (snd cell))).
  assert (Hf : forall cell, WellResult.row (f cell) = fst cell
                            /\ WellResult.col (f cell) = snd cell).
  { intros cell. unfold f. rewrite analyzeWell_result. now split. }
  exists (f (row, col)). split; [|split; [|split]].
  - unfold results, wellsOf. fold f.
    now rewrite nth_error_map, cells_nth_error.
  - apply Hf.
  - apply Hf.
  - rewrite Hcells by assumption.
    rewrite cellAt_repeat by lia.
    rewrite (nth_error_nth' _ (Fin 0)) by (rewrite repeat_length; lia).
    rewrite nth_repeat. cbn [option_map]. f_equal.
    unfold results, wellsOf. fold f.
    rewrite (lastViabilityAt_cells f row col Hf).
    replace (existsb _ (cells rowCount colCount)) with true; [reflexivity|].
    symmetry. apply existsb_exists. exists (row, col).
    split; [now apply cells_In|].
    cbn [fst snd]. now rewrite !Z.eqb_refl.
Qed.

End GridOfAnalysis.

Lemma processResultsIntoGrid_of_analysis_witness :
  let results := wellsOf (H := rationalMath) (canvasContext gradientCanvas)
                         columnGrid 2 1 (Point.mk 2 2) (Point.mk 2 6) in
  exists grid,
    processResultsIntoGrid results 2 1 = Value grid
    /\ forall row col,
         (0 <= row < 2)%Z -> (0 <= col < 1)%Z ->
         exists well,
           nth_error results (Z.to_nat (row * 1 + col)) = Some well
           /\ WellResult.row well = row /\ WellResult.col well = col
           /\ cellAt grid (Z.to_nat row) (Z.to_nat col)
              = Some (WellResult.viability well).
Proof.
  apply (processResultsIntoGrid_of_analysis (M := rationalMath)
           (canvasContext gradientCanvas) columnGrid 2 1
           (Point.mk 2 2) (Point.mk 2 6)); lia.
Defined.

(** ** Results view: the plotted data *)

Lemma curvePoint_rowPoint (rows : list (list number)) (c : number) (i : nat) :
  curvePoint rows c i = rowPoint rows c i.
Proof.
  unfold curvePoint, rowPoint.
  destruct (c <=? 0); destruct (nth_error rows i); reflexivity.
Qed.

Lemma mapCurve_mapRows (rows : list (list number)) (concs : list number) :
  forall i, mapCurve rows i concs = mapRows rows i concs.
Proof.
  induction concs as [|c rest IH]; intros i; [reflexivity|].
  cbn [mapCurve mapRows]. now rewrite curvePoint_rowPoint, IH.
Qed.

Lemma groupEveryRow_groupByRow (rowCount : Z) (results : list WellResult.t) :
  Forall (fun w => (WellResult.row w < rowCount)%Z) results ->
  forall rows, groupEveryRow results rows = groupByRow rowCount results rows.
Proof.
  induction 1 as [|well rest Hrow _ IH]; intros rows; [reflexivity|].
  cbn [groupEveryRow groupByRow].
  destruct (Z.ltb_spec (WellResult.row well) rowCount) as [_|]; [|lia].
  destruct (WellResult.row well <? 0)%Z; [reflexivity|].
  destruct (pushAt rows _ _); [apply IH|reflexivity].
Qed.

Lemma pushAt_length (rows : list (list number)) (v : number) :
  forall i rows', pushAt rows i v = Some rows' -> length rows' = length rows.
Proof.
  induction rows as [|vs rest IH]; intros i rows'; [discriminate|].
  destruct i as [|i]; cbn [pushAt].
  - now intros [= <-].
  - destruct (pushAt rest i v) as [rest'|] eqn:E; [|discriminate].
    intros [= <-]. cbn [length]. f_equal. now apply (IH i).
Qed.

Lemma pushAt_None (rows : list (list number)) (v : number) :
  forall i, (length rows <= i)%nat -> pushAt rows i v = None.
Proof.
  induction rows as [|vs rest IH]; intros i Hi; [reflexivity|].
  destruct i as [|i]; cbn [length] in Hi; [lia|].
  cbn [pushAt]. rewrite IH by lia. reflexivity.
Qed.

Lemma groupEveryRow_throws (rowCount : Z) (results : list WellResult.t) :
  Exists (fun w => (rowCount <= WellResult.row w)%Z) results ->
  forall rows, length rows = Z.to_nat rowCount ->
               groupEveryRow results rows = Throw TypeError.
Proof.
  induction 1 as [well rest Hrow|well rest _ IH]; intros rows Hlen;
    cbn [groupEveryRow].
  - destruct (Z.ltb_spec (WellResult.row well) 0); [reflexivity|].
    rewrite pushAt_None by lia. reflexivity.
  - destruct (WellResult.row well <? 0)%Z; [reflexivity|].
    destruct (pushAt rows _ _) as [rows'|] eqn:E; [|reflexivity].
    apply IH. apply pushAt_length in E. lia.
Qed.



(** ** Results view: the dose-response plot *)

Lemma fold_Math_max (values : list number) :
  Forall finite values ->
  forall a,
  exists m,
    fold_left Math_max values (Fin a) = Fin m
    /\ (m = a \/ In (Fin m) values)
    /\ (a <= m)%Q
    /\ Forall (fun x => exists q, x = Fin q /\ (q <= m)%Q) values.
Proof.
  induction 1 as [|x rest [q ->] _ IH]; intros a.
  - exists a. repeat split; [now left|lra|constructor].
  - cbn [fold_left]. unfold Math_max at 2, lt.
    destruct (Qlt_bool a q) eqn:E; qbool.
    + destruct (IH q) as (m & -> & Hin & Hle & Hall).
      exists m. repeat split.
      * right. destruct Hin as [->|Hin]; [now left|now right].
      * lra.
      * constructor; [now exists q|assumption].
    + destruct (IH a) as (m & -> & Hin & Hle & Hall).
      exists m. repeat split.
      * destruct Hin as [->|Hin]; [now left|right; now right].
      * assumption.
      * constructor; [exists q; split; [reflexivity|lra]|assumption].
Qed.

Lemma maxOf_finite (values : list number) :
  values <> [] -> Forall finite values ->
  exists m,
    maxOf values = Fin m /\ In (Fin m) values
    /\ Forall (fun x => exists q, x = Fin q /\ (q <= m)%Q) values.
Proof.
  intros Hne Hall. destruct values as [|x rest]; [contradiction|].
  inversion Hall as [|? ? [q ->] Hrest]; subst.
  unfold maxOf. cbn [fold_left].
  change (Math_max NegInf (Fin q)) with (Fin q).
  destruct (fold_Math_max rest Hrest q) as (m & -> & Hin & Hle & Hbound).
  exists m. repeat split.
  - destruct Hin as [->|Hin]; [now left|now right].
  - constructor; [now exists q|assumption].
Qed.



(** ** Results view: the circles on the image *)



(** ** The application *)

Section ApplicationFacts.
Context `{M : JSMath}.


End ApplicationFacts.

